(** * GDG attendance portal: the attendance integrity engine

    A shallow embedding of the backend's lifecycle scheduler
    ([services/autoActivationService.js]), QR rotation service
    ([services/qrRefreshService.js]), attendance handlers
    ([controllers/attendanceController.js]) and the QR administration
    handlers of the meeting controller, with the properties the
    specification states about them.  The second part adds the attendance
    page and list, the rest of the meeting controller (codes and links
    issued by hand, the live toggle, deletion, the lists of meetings and
    their pagination, the fence of a new meeting) and the quoting of
    the CSV exports ([controllers/reportsController.js]), with properties
    read off the code.

    Conventions.
    - Instants are [Z] milliseconds since the epoch, as [Date.getTime]
      returns them; durations are whole minutes.
    - JavaScript numbers that go through arithmetic (coordinates,
      distances, numbers inside a scanned payload) are IEEE binary64
      values, i.e. Rocq's primitive [float].
    - MongoDB collections are lists in insertion order; [_id] values are
      strings.  The bookkeeping paths Mongoose adds for
      [timestamps: true] ([createdAt], [updatedAt]) and the purely
      descriptive paths ([title], [description], [location],
      [createdBy]) are not part of the model.
    - What the repository takes from its runtime ([JSON], [Math],
      [String.prototype.trim], Mongoose's ObjectId cast, the [qrcode]
      package) is the class [Platform]; every result holds for any
      implementation of it. *)

From Stdlib Require Import ZArith List Ascii String Bool Lia Floats QArith Qround.
From Stdlib Require Import Permutation Sorted.
Import ListNotations.

Local Open Scope string_scope.
Local Open Scope list_scope.
Local Open Scope Z_scope.

Set Implicit Arguments.

(** ** JavaScript values *)

(** The result of [JSON.parse]. *)
#[local] Unset Elimination Schemes.
Inductive JSON : Type :=
| JNull
| JBool (b : bool)
| JNumber (f : float)
| JString (s : string)
| JArray (items : list JSON)
| JObject (props : list (string * JSON)).
#[local] Set Elimination Schemes.

(** A value that may be [undefined]. *)
Definition JSValue := option JSON.

(** What [try { ... } catch (error)] can see. *)
Inductive Exn : Type :=
| TypeError
| CastError
| MongoDuplicateKey   (* error.code === 11000 *)
| MongoFailure.       (* any other rejection of a store call *)

(** [ToBoolean]. *)
Definition truthy (v : JSValue) : bool :=
  match v with
  | None => false
  | Some JNull => false
  | Some (JBool b) => b
  | Some (JNumber f) => negb (PrimFloat.eqb f 0%float || PrimFloat.is_nan f)
  | Some (JString s) => negb (String.eqb s "")
  | Some (JArray _) => true
  | Some (JObject _) => true
  end.

(** [a === b] for two values that come out of two different [JSON.parse]
    calls: primitives are compared by value, arrays and objects by
    identity, and two parses never share an object. *)
Definition strict_eq (a b : JSValue) : bool :=
  match a, b with
  | None, None => true
  | Some JNull, Some JNull => true
  | Some (JBool x), Some (JBool y) => Bool.eqb x y
  | Some (JNumber x), Some (JNumber y) => PrimFloat.eqb x y
  | Some (JString x), Some (JString y) => String.eqb x y
  | _, _ => false
  end.

Fixpoint assoc (k : string) (props : list (string * JSON)) : JSValue :=
  match props with
  | [] => None
  | (k', v) :: rest => if String.eqb k' k then Some v else assoc k rest
  end.

(** [v.k] / [const { k } = v]: a [TypeError] on [null], [undefined] for
    every own property that is missing.  Neither of the two names read by
    the handlers ([meetingId], [token]) exists on a primitive wrapper or
    on [Array.prototype]. *)
Definition get_prop (k : string) (v : JSON) : Exn + JSValue :=
  match v with
  | JNull => inl TypeError
  | JObject props => inr (assoc k props)
  | _ => inr None
  end.

(** ** Documents *)

Definition ObjectId := string.

Inductive MeetingType := offline | online.
Inductive Participation := anyone | selected.
Inductive Method := qr | link.

Record Geofencing := {
  enabled : bool;
  center_lat : float;
  center_lng : float;
  radius : float
}.

Record Meeting := {
  _id : ObjectId;
  type : MeetingType;
  dateTime : Z;
  duration : Z;
  meetingLink : string;
  qrCode : string;
  qrData : string;
  attendanceToken : string;
  isActive : bool;
  qrPaused : bool;
  participation : Participation;
  participants : list ObjectId;
  geofencing : Geofencing
}.

Record User := {
  user_id : ObjectId;
  firebaseUid : string
}.

Record Location := {
  loc_lat : float;
  loc_lng : float;
  loc_accuracy : option float
}.

Record Attendance := {
  meeting : ObjectId;
  user : ObjectId;
  method : Method;
  markedAt : Z;
  location : option Location
}.

Record DB := {
  meetings : list Meeting;
  users : list User;
  attendances : list Attendance
}.

(** ** The runtime the code relies on *)

Class Platform := {
  (** [JSON.parse]; [None] is a [SyntaxError]. *)
  JSON_parse : string -> option JSON;
  (** [JSON.stringify({ meetingId, token, generatedAt })]. *)
  JSON_stringify_qr : ObjectId -> string -> Z -> string;
  (** Mongoose's cast of a query value to an ObjectId; [None] is a
      [CastError]. *)
  castObjectId : JSON -> option ObjectId;
  String_trim : string -> string;
  QRCode_toDataURL : string -> string;
  Math_sin : float -> float;
  Math_cos : float -> float;
  Math_atan2 : float -> float -> float;
  Math_pow : float -> float -> float;
  Math_round : float -> float
}.

(** [Math.PI], the binary64 value nearest to pi (3.141592653589793). *)
Definition Math_PI : float := 0x1.921fb54442d18p+1%float.

(** ** Store queries *)

(** [Meeting.findById(id)] once the id is cast. *)
Definition Meeting_findById (id : ObjectId) (db : DB) : option Meeting :=
  find (fun m => String.eqb (_id m) id) (meetings db).

(** [Meeting.findOne({ attendanceToken: token })]. *)
Definition Meeting_findByToken (token : string) (db : DB) : option Meeting :=
  find (fun m => String.eqb (attendanceToken m) token) (meetings db).

(** [User.findOne({ firebaseUid: uid })]. *)
Definition User_findByUid (uid : string) (db : DB) : option User :=
  find (fun u => String.eqb (firebaseUid u) uid) (users db).

Definition same_pair (m u : ObjectId) (a : Attendance) : bool :=
  String.eqb (meeting a) m && String.eqb (user a) u.

(** [Attendance.findOne({ meeting, user })]. *)
Definition Attendance_findOne (m u : ObjectId) (db : DB) : option Attendance :=
  find (same_pair m u) (attendances db).

(** [Attendance.create(record)] against the collection's unique index
    [{ meeting: 1, user: 1 }]: the insert is refused with the duplicate
    key error 11000 when a record of the pair is stored.  [fault] is the
    store refusing the insert for any other reason. *)
Definition Attendance_create (fault : bool) (r : Attendance) (db : DB) : Exn + DB :=
  if fault then inl MongoFailure
  else if existsb (same_pair (meeting r) (user r)) (attendances db)
       then inl MongoDuplicateKey
       else inr {| meetings := meetings db;
                   users := users db;
                   attendances := attendances db ++ [r] |}.

(** ** Responses *)

Inductive ErrorCode :=
| BadRequest | NotFound | ExpiredQR | TooEarly | MeetingEnded
| Forbidden | LocationRequired | OutOfRange | InternalError.

Inductive Message :=
| Text (s : string)
(** "You are outside the allowed geofence. You are approximately
    ${Math.round(distance)}m away, but you need to be within
    ${meeting.geofencing.radius}m of the meeting location to mark
    attendance." *)
| OutsideGeofence (approx : float) (within : float).

(** The [data] of a success response. *)
Inductive Payload :=
| LinkData (link : string)
| MeetingData (id : ObjectId)
| NoData.

Inductive Response :=
| Failure (status : Z) (error : ErrorCode) (message : Message)
| Success (status : Z) (alreadyAttended : bool) (data : Payload).

Definition error_of (r : Response) : option ErrorCode :=
  match r with
  | Failure _ e _ => Some e
  | Success _ _ _ => None
  end.

(** What a handler has decided when it reaches [Attendance.create]: it
    has either answered already or holds the record to insert. *)
Inductive Decision :=
| Reply (r : Response)
| Insert (rec : Attendance) (m : Meeting).

(** The request as the handler sees it: the clock reading of
    [new Date()], the authenticated [req.user.uid], and whether the store
    will refuse the insert for a reason of its own. *)
Record Env := {
  now : Z;
  uid : string;
  insert_fault : bool
}.

Definition bind {A B : Type} (x : Exn + A) (k : A -> Exn + B) : Exn + B :=
  match x with
  | inl e => inl e
  | inr a => k a
  end.

Notation "x <- e ;; k" := (bind e (fun x => k))
  (at level 61, e at next level, right associativity).

(** [(meeting.duration || 60) * 60000] past the start. *)
Definition endTime (m : Meeting) : Z :=
  dateTime m + (if duration m =? 0 then 60 else duration m) * 60000.

(** [meeting.participants?.some(pid => pid.toString() === id.toString())] *)
Definition isAllowed (m : Meeting) (id : ObjectId) : bool :=
  existsb (fun pid => String.eqb pid id) (participants m).

(** The optional [record.location]. *)
Definition capture (lat lng accuracy : option float) : option Location :=
  match lat, lng with
  | Some la, Some ln =>
      Some {| loc_lat := la; loc_lng := ln; loc_accuracy := accuracy |}
  | _, _ => None
  end.

(** ** The attendance handlers ([controllers/attendanceController.js]) *)

(** Body of [POST /api/attendance/scan-qr]. *)
Record ScanBody := {
  body_qrData : option string;
  body_lat : option float;
  body_lng : option float;
  body_accuracy : option float
}.

(** [POST /api/attendance/:token/mark]: the route parameter and the
    optional body. *)
Record MarkRequest := {
  param_token : string;
  mark_lat : option float;
  mark_lng : option float;
  mark_accuracy : option float
}.

Section Handlers.

Context {P : Platform}.

Definition toRad (deg : float) : float := (deg * Math_PI / 180)%float.

(** Earth radius in metres. *)
Definition R : float := 6371000%float.

(** The haversine distance computed inside [scanQRAttendance]. *)
Definition haversine (lat lng clat clng : float) : float :=
  let dLat := toRad (lat - clat)%float in
  let dLng := toRad (lng - clng)%float in
  let a :=
    (Math_pow (Math_sin (dLat / 2)) 2 +
     Math_cos (toRad clat) * Math_cos (toRad lat) *
       Math_pow (Math_sin (dLng / 2)) 2)%float in
  (R * 2 * Math_atan2 (PrimFloat.sqrt a) (PrimFloat.sqrt (1 - a)))%float.

(** The geofencing block of [scanQRAttendance]; [None] lets the
    submission through. *)
Definition geofence (m : Meeting) (lat lng : option float) : option Response :=
  if enabled (geofencing m) then
    match lat, lng with
    | Some la, Some ln =>
        let distance :=
          haversine la ln (center_lat (geofencing m)) (center_lng (geofencing m)) in
        if (radius (geofencing m) <? distance)%float then
          Some (Failure 400 OutOfRange
                  (OutsideGeofence (Math_round distance) (radius (geofencing m))))
        else None
    | _, _ =>
        Some (Failure 400 LocationRequired
                (Text "This meeting has geofencing enabled. Please allow location access in your browser and try scanning again."))
    end
  else None.

(** [Meeting.findById(meetingId)] on the value read from the payload. *)
Definition Meeting_findById_cast (v : JSValue) (db : DB) : Exn + option Meeting :=
  match v with
  | None => inr None
  | Some j =>
      match castObjectId j with
      | None => inl CastError
      | Some id => inr (Meeting_findById id db)
      end
  end.

(** [JSON.parse(meeting.qrData || '{}')] with its [catch]. *)
Definition meetingQrParsed (m : Meeting) : JSON :=
  if String.eqb (qrData m) "" then JObject []
  else match JSON_parse (qrData m) with
       | Some v => v
       | None => JObject []
       end.

(** [scanQRAttendance] up to, and without, [Attendance.create]. *)
Definition scanQR_decide (e : Env) (b : ScanBody) (db : DB) : Exn + Decision :=
  match body_qrData b with
  | None => inr (Reply (Failure 400 BadRequest (Text "QR data is required.")))
  | Some raw =>
  if String.eqb raw "" then
    inr (Reply (Failure 400 BadRequest (Text "QR data is required.")))
  else
  match JSON_parse raw with
  | None =>
      inr (Reply (Failure 400 BadRequest
                    (Text "Invalid QR code. Please scan a valid meeting QR code.")))
  | Some parsed =>
  meetingId <- get_prop "meetingId" parsed ;;
  token <- get_prop "token" parsed ;;
  if negb (truthy meetingId) || negb (truthy token) then
    inr (Reply (Failure 400 BadRequest
                  (Text "Invalid QR code format. Missing meeting information.")))
  else
  found <- Meeting_findById_cast meetingId db ;;
  match found with
  | None =>
      inr (Reply (Failure 404 NotFound
                    (Text "Meeting not found. The QR code may be outdated.")))
  | Some m =>
  stored <- get_prop "token" (meetingQrParsed m) ;;
  if negb (strict_eq stored token) then
    inr (Reply (Failure 400 ExpiredQR
                  (Text "This QR code has expired. Please scan the latest QR code.")))
  else
  match type m with
  | online =>
      inr (Reply (Failure 400 BadRequest
                    (Text "QR attendance is only available for offline meetings. Use the attendance link for online meetings.")))
  | offline =>
  if now e <? dateTime m then
    inr (Reply (Failure 400 TooEarly
                  (Text "This meeting has not started yet. Please wait for the meeting to begin.")))
  else if endTime m <=? now e then
    inr (Reply (Failure 400 MeetingEnded
                  (Text "This meeting has ended. Attendance can no longer be marked.")))
  else
  match User_findByUid (uid e) db with
  | None =>
      inr (Reply (Failure 403 Forbidden
                    (Text "User not found in the system. Please contact an administrator.")))
  | Some dbUser =>
  match participation m, isAllowed m (user_id dbUser) with
  | selected, false =>
      inr (Reply (Failure 403 Forbidden
                    (Text "You are not on the participants list for this meeting.")))
  | _, _ =>
  match geofence m (body_lat b) (body_lng b) with
  | Some refusal => inr (Reply refusal)
  | None =>
  match Attendance_findOne (_id m) (user_id dbUser) db with
  | Some _ => inr (Reply (Success 200 true (MeetingData (_id m))))
  | None =>
      inr (Insert {| meeting := _id m;
                     user := user_id dbUser;
                     method := qr;
                     markedAt := now e;
                     location := capture (body_lat b) (body_lng b) (body_accuracy b) |}
                  m)
  end end end end end end end end.

(** The [catch] of [scanQRAttendance]. *)
Definition scanQR_catch (ex : Exn) : Response :=
  match ex with
  | MongoDuplicateKey => Success 200 true NoData
  | CastError =>
      Failure 400 BadRequest (Text "Invalid QR code. The meeting ID is malformed.")
  | _ =>
      Failure 500 InternalError (Text "Failed to mark attendance. Please try again.")
  end.

(** [await Attendance.create(record)] and the 201 response. *)
Definition scanQR_commit (e : Env) (rec : Attendance) (m : Meeting) (db : DB)
  : Response * DB :=
  match Attendance_create (insert_fault e) rec db with
  | inr db' => (Success 201 false (MeetingData (_id m)), db')
  | inl ex => (scanQR_catch ex, db)
  end.

Definition scanQRAttendance (e : Env) (b : ScanBody) (db : DB) : Response * DB :=
  match scanQR_decide e b db with
  | inl ex => (scanQR_catch ex, db)
  | inr (Reply r) => (r, db)
  | inr (Insert rec m) => scanQR_commit e rec m db
  end.

(** [markAttendance] up to, and without, [Attendance.create]. *)
Definition mark_decide (e : Env) (r : MarkRequest) (db : DB) : Exn + Decision :=
  let token := param_token r in
  if String.eqb token "" || String.eqb (String_trim token) "" then
    inr (Reply (Failure 400 BadRequest (Text "Attendance token is required.")))
  else
  match Meeting_findByToken token db with
  | None => inr (Reply (Failure 404 NotFound (Text "Invalid attendance link.")))
  | Some m =>
  match type m with
  | offline =>
      inr (Reply (Failure 400 BadRequest
                    (Text "This attendance link is only valid for online meetings.")))
  | online =>
  if now e <? dateTime m then
    inr (Reply (Failure 400 TooEarly
                  (Text "This meeting has not started yet. Please come back when the meeting is live.")))
  else if endTime m <=? now e then
    inr (Reply (Failure 400 MeetingEnded
                  (Text "This meeting has already ended. Attendance can no longer be marked.")))
  else
  match User_findByUid (uid e) db with
  | None =>
      inr (Reply (Failure 403 Forbidden
                    (Text "User not found in the system. Please contact an administrator.")))
  | Some dbUser =>
  match participation m, isAllowed m (user_id dbUser) with
  | selected, false =>
      inr (Reply (Failure 403 Forbidden
                    (Text "You are not on the participants list for this meeting.")))
  | _, _ =>
  match Attendance_findOne (_id m) (user_id dbUser) db with
  | Some _ => inr (Reply (Success 200 true (LinkData (meetingLink m))))
  | None =>
      inr (Insert {| meeting := _id m;
                     user := user_id dbUser;
                     method := link;
                     markedAt := now e;
                     location := capture (mark_lat r) (mark_lng r) (mark_accuracy r) |}
                  m)
  end end end end end.

(** The [catch] of [markAttendance]; on the duplicate key error it looks
    the meeting up again for its link ([meeting?.meetingLink || '']). *)
Definition mark_catch (r : MarkRequest) (db : DB) (ex : Exn) : Response :=
  match ex with
  | MongoDuplicateKey =>
      Success 200 true
        (LinkData match Meeting_findByToken (param_token r) db with
                  | Some m => meetingLink m
                  | None => ""
                  end)
  | _ => Failure 500 InternalError (Text "Failed to mark attendance.")
  end.

Definition mark_commit (e : Env) (r : MarkRequest) (rec : Attendance) (m : Meeting)
  (db : DB) : Response * DB :=
  match Attendance_create (insert_fault e) rec db with
  | inr db' => (Success 201 false (LinkData (meetingLink m)), db')
  | inl ex => (mark_catch r db ex, db)
  end.

Definition markAttendance (e : Env) (r : MarkRequest) (db : DB) : Response * DB :=
  match mark_decide e r db with
  | inl ex => (mark_catch r db ex, db)
  | inr (Reply resp) => (resp, db)
  | inr (Insert rec m) => mark_commit e r rec m db
  end.

End Handlers.

(** ** The background services *)

(** [Meeting.findByIdAndUpdate(id, update)]: the stored document with that
    [_id] is replaced by its update. *)
Fixpoint update_first (id : ObjectId) (f : Meeting -> Meeting) (ms : list Meeting)
  : list Meeting :=
  match ms with
  | [] => []
  | m :: rest =>
      if String.eqb (_id m) id then f m :: rest
      else m :: update_first id f rest
  end.

Definition Meeting_findByIdAndUpdate (id : ObjectId) (f : Meeting -> Meeting) (db : DB)
  : DB :=
  {| meetings := update_first id f (meetings db);
     users := users db;
     attendances := attendances db |}.

Definition set_qr (code data : string) (d : Meeting) : Meeting :=
  {| _id := _id d; type := type d; dateTime := dateTime d; duration := duration d;
     meetingLink := meetingLink d; qrCode := code; qrData := data;
     attendanceToken := attendanceToken d; isActive := isActive d;
     qrPaused := qrPaused d; participation := participation d;
     participants := participants d; geofencing := geofencing d |}.

Definition set_attendanceToken (t : string) (d : Meeting) : Meeting :=
  {| _id := _id d; type := type d; dateTime := dateTime d; duration := duration d;
     meetingLink := meetingLink d; qrCode := qrCode d; qrData := qrData d;
     attendanceToken := t; isActive := isActive d;
     qrPaused := qrPaused d; participation := participation d;
     participants := participants d; geofencing := geofencing d |}.

Definition set_isActive (b : bool) (d : Meeting) : Meeting :=
  {| _id := _id d; type := type d; dateTime := dateTime d; duration := duration d;
     meetingLink := meetingLink d; qrCode := qrCode d; qrData := qrData d;
     attendanceToken := attendanceToken d; isActive := b;
     qrPaused := qrPaused d; participation := participation d;
     participants := participants d; geofencing := geofencing d |}.

Definition set_qrPaused (b : bool) (d : Meeting) : Meeting :=
  {| _id := _id d; type := type d; dateTime := dateTime d; duration := duration d;
     meetingLink := meetingLink d; qrCode := qrCode d; qrData := qrData d;
     attendanceToken := attendanceToken d; isActive := isActive d;
     qrPaused := b; participation := participation d;
     participants := participants d; geofencing := geofencing d |}.

(** What a tick draws from outside the store: [crypto.randomBytes(n)
    .toString('hex')] for the meeting it is processing, and whether the
    asynchronous work on that meeting ([QRCode.toDataURL],
    [findByIdAndUpdate]) rejects. *)
Record Oracle := {
  randomHex : ObjectId -> string;
  rejects : ObjectId -> bool
}.

Section Services.

Context {P : Platform}.

(** *** [services/autoActivationService.js] *)

(** The [update] object built from the selected (lean) document [m],
    as it acts on the stored document. *)
Definition activation (t : Z) (o : Oracle) (m : Meeting) (d : Meeting) : Meeting :=
  let d := set_isActive true d in
  match type m with
  | online =>
      if String.eqb (attendanceToken m) "" then
        set_attendanceToken (randomHex o (_id m)) d
      else d
  | offline =>
      if String.eqb (qrCode m) "" then
        let qrPayload := JSON_stringify_qr (_id m) (randomHex o (_id m)) t in
        set_qr (QRCode_toDataURL qrPayload) qrPayload d
      else d
  end.

(** The first [for] loop; it stops at the first rejection, which the one
    [try] around the whole tick catches. *)
Fixpoint activate_loop (t : Z) (o : Oracle) (todo : list Meeting) (db : DB)
  : option Exn * DB :=
  match todo with
  | [] => (None, db)
  | m :: rest =>
      if t <? endTime m then
        if rejects o (_id m) then (Some MongoFailure, db)
        else activate_loop t o rest
               (Meeting_findByIdAndUpdate (_id m) (activation t o m) db)
      else activate_loop t o rest db
  end.

Definition deactivation (d : Meeting) : Meeting :=
  set_attendanceToken "" (set_qrPaused false (set_qr "" "" (set_isActive false d))).

(** The second [for] loop. *)
Fixpoint deactivate_loop (t : Z) (o : Oracle) (todo : list Meeting) (db : DB)
  : option Exn * DB :=
  match todo with
  | [] => (None, db)
  | m :: rest =>
      if endTime m <=? t then
        if rejects o (_id m) then (Some MongoFailure, db)
        else deactivate_loop t o rest
               (Meeting_findByIdAndUpdate (_id m) deactivation db)
      else deactivate_loop t o rest db
  end.

(** One tick of the scheduler at clock reading [t]. *)
Definition checkAndUpdateMeetings (t : Z) (o : Oracle) (db : DB) : DB :=
  let meetingsToActivate :=
    filter (fun m => negb (isActive m) && (dateTime m <=? t)) (meetings db) in
  match activate_loop t o meetingsToActivate db with
  | (Some _, db1) => db1
  | (None, db1) =>
      let activeMeetings := filter isActive (meetings db1) in
      snd (deactivate_loop t o activeMeetings db1)
  end.

(** *** [services/qrRefreshService.js] *)

Definition QR_REFRESH_INTERVAL : Z := 20.

(** The store together with the module variable [lastRefreshedAt]. *)
Record Server := {
  store : DB;
  lastRefreshedAt : option Z
}.

(** [getSecondsUntilNextRefresh()] at [Date.now() = t].  A [Date] is
    truthy whatever its value, so only [null] returns early. *)
Definition getSecondsUntilNextRefresh (t : Z) (last : option Z) : Z :=
  match last with
  | None => 0
  | Some l =>
      let elapsed := (inject_Z (t - l) / inject_Z 1000)%Q in
      Z.max 0 (Qceiling (inject_Z QR_REFRESH_INTERVAL - elapsed)%Q)
  end.

(** One callback of [meetings.map(async (meeting) => ...)], with its own
    [try]/[catch]. *)
Definition refresh_one (t : Z) (o : Oracle) (id : ObjectId) (db : DB) : DB :=
  if rejects o id then db
  else
    let qrPayload := JSON_stringify_qr id (randomHex o id) t in
    Meeting_findByIdAndUpdate id (set_qr (QRCode_toDataURL qrPayload) qrPayload) db.

(** One tick of the rotation service at clock reading [t]. *)
Definition refreshQRCodes (t : Z) (o : Oracle) (s : Server) : Server :=
  let selected :=
    map _id (filter (fun m => negb (String.eqb (qrCode m) "") && negb (qrPaused m))
                    (meetings (store s))) in
  {| store := fold_left (fun db id => refresh_one t o id db) selected (store s);
     lastRefreshedAt := Some t |}.

(** *** QR administration in the meeting controller *)

Inductive ToggleResponse :=
| Toggled (qrPaused : bool)
| ToggleFailure (status : Z) (error : ErrorCode).

(** [PATCH /api/meetings/:id/qr-pause]. *)
Definition toggleQRPause (id : string) (s : Server) : ToggleResponse * Server :=
  match castObjectId (JString id) with
  | None => (ToggleFailure 400 BadRequest, s)
  | Some oid =>
      match Meeting_findById oid (store s) with
      | None => (ToggleFailure 404 NotFound, s)
      | Some m =>
          (Toggled (negb (qrPaused m)),
           {| store := Meeting_findByIdAndUpdate oid
                         (set_qrPaused (negb (qrPaused m))) (store s);
              lastRefreshedAt := lastRefreshedAt s |})
      end
  end.

Record QRStatus := {
  status_qrCode : option string;
  status_qrData : option string;
  status_isActive : bool;
  status_qrPaused : bool;
  secondsRemaining : Z;
  refreshInterval : Z
}.

Definition or_null (s : string) : option string :=
  if String.eqb s "" then None else Some s.

(** [GET /api/meetings/:id/qr-status] at clock reading [t]; the failure
    responses carry nothing but their status and error code. *)
Definition getQRStatus (t : Z) (id : string) (s : Server)
  : (Z * ErrorCode + QRStatus) * Server :=
  match castObjectId (JString id) with
  | None => (inl (400, BadRequest), s)
  | Some oid =>
      match Meeting_findById oid (store s) with
      | None => (inl (404, NotFound), s)
      | Some m =>
          (inr {| status_qrCode := or_null (qrCode m);
                  status_qrData := or_null (qrData m);
                  status_isActive := isActive m;
                  status_qrPaused := qrPaused m;
                  secondsRemaining := getSecondsUntilNextRefresh t (lastRefreshedAt s);
                  refreshInterval := QR_REFRESH_INTERVAL |}, s)
      end
  end.

End Services.

(** ** Submissions in flight

    A handler gives up control at each [await].  The two store calls that
    touch the attendance collection are the [findOne] that ends the
    checks and the [create] that follows it; between them other requests
    may run.  A task is a submission before its checks, one that holds a
    record to insert, or one that has answered. *)

Inductive Submission :=
| ViaQR (e : Env) (b : ScanBody)
| ViaLink (e : Env) (r : MarkRequest).

Inductive Task :=
| Pending (s : Submission)
| Creating (s : Submission) (rec : Attendance) (m : Meeting)
| Done (r : Response).

Section Interleaving.

Context {P : Platform}.

Definition decide (s : Submission) (db : DB) : Exn + Decision :=
  match s with
  | ViaQR e b => scanQR_decide e b db
  | ViaLink e r => mark_decide e r db
  end.

Definition catch (s : Submission) (db : DB) (ex : Exn) : Response :=
  match s with
  | ViaQR _ _ => scanQR_catch ex
  | ViaLink _ r => mark_catch r db ex
  end.

Definition commit (s : Submission) (rec : Attendance) (m : Meeting) (db : DB)
  : Response * DB :=
  match s with
  | ViaQR e _ => scanQR_commit e rec m db
  | ViaLink e r => mark_commit e r rec m db
  end.

(** The whole handler, run without interruption. *)
Definition handle (s : Submission) (db : DB) : Response * DB :=
  match s with
  | ViaQR e b => scanQRAttendance e b db
  | ViaLink e r => markAttendance e r db
  end.

(** One task runs up to its next [await] on the attendance collection. *)
Definition advance (t : Task) (db : DB) : Task * DB :=
  match t with
  | Pending s =>
      match decide s db with
      | inl ex => (Done (catch s db ex), db)
      | inr (Reply r) => (Done r, db)
      | inr (Insert rec m) => (Creating s rec m, db)
      end
  | Creating s rec m =>
      let (r, db') := commit s rec m db in (Done r, db')
  | Done r => (Done r, db)
  end.

(** The task at position [i] takes its turn. *)
Fixpoint step (i : nat) (ts : list Task) (db : DB) : list Task * DB :=
  match ts with
  | [] => ([], db)
  | t :: rest =>
      match i with
      | O => let (t', db') := advance t db in (t' :: rest, db')
      | S j => let (rest', db') := step j rest db in (t :: rest', db')
      end
  end.

(** A schedule names the task that runs at each turn. *)
Fixpoint run (schedule : list nat) (ts : list Task) (db : DB) : list Task * DB :=
  match schedule with
  | [] => (ts, db)
  | i :: later => let (ts', db') := step i ts db in run later ts' db'
  end.

Definition finished (t : Task) : bool :=
  match t with
  | Done _ => true
  | _ => false
  end.

Fixpoint responses (ts : list Task) : list Response :=
  match ts with
  | [] => []
  | Done r :: rest => r :: responses rest
  | _ :: rest => responses rest
  end.

End Interleaving.

(** The pair a record is indexed by. *)
Definition pair_of (a : Attendance) : ObjectId * ObjectId := (meeting a, user a).

(** The unique index [{ meeting: 1, user: 1 }] holds of a collection. *)
Definition unique_index (atts : list Attendance) : Prop :=
  NoDup (map pair_of atts).

Definition count_pair (m u : ObjectId) (atts : list Attendance) : nat :=
  List.length (filter (same_pair m u) atts).

(** 201 with [alreadyAttended: false]. *)
Definition fresh (r : Response) : bool :=
  match r with
  | Success 201 false _ => true
  | _ => false
  end.

(** 200 with [alreadyAttended: true]. *)
Definition repeated (r : Response) : bool :=
  match r with
  | Success 200 true _ => true
  | _ => false
  end.

Definition failure (r : Response) : bool :=
  match r with
  | Failure _ _ _ => true
  | Success _ _ _ => false
  end.

Definition with_attendances (atts : list Attendance) (db : DB) : DB :=
  {| meetings := meetings db; users := users db; attendances := atts |}.

(** ** The attendance page and the attendance list
    ([controllers/attendanceController.js]) *)

Inductive PageStatus := upcoming | live | ended.

(** The answer of [GET /api/attendance/:token]: a failure, or the
    meeting (its id and its link stand for the fields listed), the status
    of its time window and whether the caller has attended. *)
Inductive PageResponse :=
| PageFailure (status : Z) (error : ErrorCode) (message : Message)
| PageData (id : ObjectId) (link : string) (status : PageStatus)
    (alreadyAttended : bool).

(** The answer of [GET /api/attendance/meeting/:meetingId]; [populate]
    is left out, a record carries the id of its user. *)
Inductive ListResponse :=
| ListFailure (status : Z) (error : ErrorCode) (message : Message)
| Records (data : list Attendance) (total : Z).

(** [.sort({ key: 1 })] as a stable insertion sort: documents with equal
    keys stay in collection order. *)
Fixpoint insert_by {A : Type} (key : A -> Z) (x : A) (l : list A) : list A :=
  match l with
  | [] => [x]
  | y :: rest => if key x <=? key y then x :: y :: rest else y :: insert_by key x rest
  end.

Definition sort_by {A : Type} (key : A -> Z) (l : list A) : list A :=
  fold_right (insert_by key) [] l.

Section Pages.

Context {P : Platform}.

Definition getAttendancePage (e : Env) (token : string) (db : DB) : PageResponse :=
  if String.eqb token "" || String.eqb (String_trim token) "" then
    PageFailure 400 BadRequest (Text "Attendance token is required.")
  else
  match Meeting_findByToken token db with
  | None =>
      PageFailure 404 NotFound
        (Text "Invalid attendance link. This link may have expired or the meeting does not exist.")
  | Some m =>
  match type m with
  | offline =>
      PageFailure 400 BadRequest
        (Text "This attendance link is only valid for online meetings.")
  | online =>
  let status :=
    if now e <? dateTime m then upcoming
    else if endTime m <=? now e then ended
    else live in
  match User_findByUid (uid e) db with
  | None => PageData (_id m) (meetingLink m) status false
  | Some dbUser =>
  match participation m, isAllowed m (user_id dbUser) with
  | selected, false =>
      PageFailure 403 Forbidden
        (Text "You are not on the participants list for this meeting.")
  | _, _ =>
      PageData (_id m) (meetingLink m) status
        match Attendance_findOne (_id m) (user_id dbUser) db with
        | Some _ => true
        | None => false
        end
  end end end end.

Definition getMeetingAttendance (meetingId : string) (db : DB) : ListResponse :=
  match castObjectId (JString meetingId) with
  | None => ListFailure 400 BadRequest (Text "Invalid meeting ID format.")
  | Some id =>
      let records :=
        sort_by markedAt
          (filter (fun a => String.eqb (meeting a) id) (attendances db)) in
      Records records (Z.of_nat (List.length records))
  end.

End Pages.

(** ** Meeting administration (the meeting controller) *)

(** [Meeting.findByIdAndDelete(id)]. *)
Fixpoint remove_first (id : ObjectId) (ms : list Meeting) : list Meeting :=
  match ms with
  | [] => []
  | m :: rest =>
      if String.eqb (_id m) id then rest else m :: remove_first id rest
  end.

Inductive AdminResponse :=
| AdminFailure (status : Z) (error : ErrorCode) (message : Message)
| ActiveToggled (m : Meeting)
| QRGenerated (qrCode qrData : string) (meetingId : ObjectId)
| LinkGenerated (attendanceToken : string) (meetingId : ObjectId)
| Deleted.

Section Administration.

Context {P : Platform}.

(** [PATCH /api/meetings/:id/toggle-active]. *)
Definition toggleActive (id : string) (db : DB) : AdminResponse * DB :=
  match castObjectId (JString id) with
  | None =>
      (* the catch has no case for a CastError *)
      (AdminFailure 500 InternalError (Text "Failed to toggle meeting status."), db)
  | Some oid =>
      match Meeting_findById oid db with
      | None => (AdminFailure 404 NotFound (Text "Meeting not found."), db)
      | Some m =>
          (ActiveToggled (set_isActive (negb (isActive m)) m),
           Meeting_findByIdAndUpdate oid (set_isActive (negb (isActive m))) db)
      end
  end.

(** [POST /api/meetings/:id/generate-qr] at clock reading [t]. *)
Definition generateQR (t : Z) (o : Oracle) (id : string) (db : DB)
  : AdminResponse * DB :=
  match castObjectId (JString id) with
  | None => (AdminFailure 400 BadRequest (Text "Invalid meeting ID format."), db)
  | Some oid =>
      match Meeting_findById oid db with
      | None => (AdminFailure 404 NotFound (Text "Meeting not found."), db)
      | Some m =>
          let token := randomHex o (_id m) in
          let qrPayload := JSON_stringify_qr (_id m) token t in
          if rejects o (_id m) then
            (AdminFailure 500 InternalError (Text "Failed to generate QR code."), db)
          else
            let qrCodeDataUrl := QRCode_toDataURL qrPayload in
            (QRGenerated qrCodeDataUrl qrPayload (_id m),
             Meeting_findByIdAndUpdate oid (set_qr qrCodeDataUrl qrPayload) db)
      end
  end.

(** [POST /api/meetings/:id/generate-attendance-link]. *)
Definition generateAttendanceLink (o : Oracle) (id : string) (db : DB)
  : AdminResponse * DB :=
  match castObjectId (JString id) with
  | None => (AdminFailure 400 BadRequest (Text "Invalid meeting ID format."), db)
  | Some oid =>
      match Meeting_findById oid db with
      | None => (AdminFailure 404 NotFound (Text "Meeting not found."), db)
      | Some m =>
          match type m with
          | offline =>
              (AdminFailure 400 BadRequest
                 (Text "Attendance links can only be generated for online meetings."),
               db)
          | online =>
              let token := randomHex o (_id m) in
              if rejects o (_id m) then
                (AdminFailure 500 InternalError
                   (Text "Failed to generate attendance link."), db)
              else
                (LinkGenerated token (_id m),
                 Meeting_findByIdAndUpdate oid (set_attendanceToken token) db)
          end
      end
  end.

(** [DELETE /api/meetings/:id]. *)
Definition deleteMeeting (id : string) (db : DB) : AdminResponse * DB :=
  match castObjectId (JString id) with
  | None => (AdminFailure 400 BadRequest (Text "Invalid meeting ID format."), db)
  | Some oid =>
      match Meeting_findById oid db with
      | None => (AdminFailure 404 NotFound (Text "Meeting not found."), db)
      | Some _ =>
          (Deleted,
           {| meetings := remove_first oid (meetings db);
              users := users db;
              attendances := attendances db |})
      end
  end.

End Administration.

(** [GET /api/meetings/active] at clock reading [t]: the meetings with
    [dateTime <= t] and [dateTime + $ifNull(duration, 60) * 60000 > t],
    latest start first.  A stored duration is never [null] here. *)
Definition getActiveMeetings (t : Z) (db : DB) : list Meeting :=
  sort_by (fun m => - dateTime m)
    (filter (fun m => (dateTime m <=? t) && (t <? dateTime m + duration m * 60000))
       (meetings db)).

(** The [status] part of the filter that [listMeetings] builds at clock
    reading [t]; any other value of [status] filters nothing out. *)
Definition status_filter (status : string) (t : Z) (m : Meeting) : bool :=
  if String.eqb status "active" then
    (dateTime m <=? t) && (t <? dateTime m + duration m * 60000)
  else if String.eqb status "upcoming" then t <? dateTime m
  else if String.eqb status "past" then dateTime m + duration m * 60000 <=? t
  else true.

(** *** The fence of a new or an edited meeting ([createMeeting],
    [updateMeeting]) *)

(** [Math.max] and [Math.min] of two numbers: NaN when either is NaN,
    and +0 above -0. *)
Definition Math_max (a b : float) : float :=
  if PrimFloat.is_nan a || PrimFloat.is_nan b then PrimFloat.nan
  else if (a <? b)%float then b
  else if (b <? a)%float then a
  else if PrimFloat.get_sign a then b else a.

Definition Math_min (a b : float) : float :=
  if PrimFloat.is_nan a || PrimFloat.is_nan b then PrimFloat.nan
  else if (a <? b)%float then a
  else if (b <? a)%float then b
  else if PrimFloat.get_sign a then a else b.

(** [Math.min(5000, Math.max(10, geofencing.radius || 200))] for a
    [radius] that is a number, or is missing ([None]). *)
Definition fence_radius (radius : option float) : float :=
  let requested :=
    match radius with
    | Some x => if truthy (Some (JNumber x)) then x else 200%float
    | None => 200%float
    end in
  Math_min 5000 (Math_max 10 requested).

(** The fence both handlers store for a request whose
    [geofencing.enabled] is truthy; [lat] and [lng] are the coordinates
    of [geofencing.center] when they are numbers.  [None] is the 400
    "Geofencing requires a valid location". *)
Definition requested_fence (lat lng radius : option float) : option Geofencing :=
  match lat, lng with
  | Some la, Some ln =>
      if (la =? 0)%float && (ln =? 0)%float then None
      else Some {| enabled := true; center_lat := la; center_lng := ln;
                   radius := fence_radius radius |}
  | _, _ => None
  end.

(** *** Pagination ([listMeetings], [listUsers]) *)

(** [x || d] for a number [x]. *)
Definition or_number (x d : float) : float :=
  if truthy (Some (JNumber x)) then x else d.

(** "Sanitize pagination": [parsedPage] and [parsedLimit] are what
    [parseInt(page, 10)] and [parseInt(limit, 10)] return, any binary64
    value, NaN and the infinities included.  The query built from them
    and the rest of the [pagination] object ([total], [totalPages],
    [hasNext]) are not part of the model. *)
Definition pageNum (parsedPage : float) : float :=
  Math_max 1 (or_number parsedPage 1).

Definition limitNum (parsedLimit : float) : float :=
  Math_min 100 (Math_max 1 (or_number parsedLimit 20)).

(** [hasPrev: pageNum > 1]. *)
Definition hasPrev (parsedPage : float) : bool :=
  (1 <? pageNum parsedPage)%float.

(** ** CSV export ([controllers/reportsController.js]) *)

Definition dquote : ascii := ascii_of_nat 34.

(** The [replace] of the export rows: every double quote (character 34)
    becomes two. *)
Fixpoint double_quotes (s : string) : string :=
  match s with
  | EmptyString => EmptyString
  | String c rest =>
      if Ascii.eqb c dquote then String dquote (String dquote (double_quotes rest))
      else String c (double_quotes rest)
  end.

(** The quoted cell of a CSV row: the text between two quotes, its own
    quotes doubled. *)
Definition csv_cell (s : string) : string :=
  String dquote (double_quotes s ++ String dquote EmptyString)%string.





(** ** A small deployment

    A stand-in runtime and a store with three meetings and two users, on
    which the handlers can be run.  The runtime parses payloads of the
    form [qr:<meetingId>:<token>] and [null], takes every string for an
    ObjectId, and uses small-angle approximations for the trigonometric
    functions. *)

Module Sample.

Fixpoint split_on (sep : Ascii.ascii) (acc : string) (s : string) : list string :=
  match s with
  | EmptyString => [acc]
  | String c rest =>
      if Ascii.eqb c sep then acc :: split_on sep "" rest
      else split_on sep (acc ++ String c "")%string rest
  end.

Definition parse (s : string) : option JSON :=
  match split_on ":"%char "" s with
  | ["null"] => Some JNull
  | ["qr"; id; tok] =>
      Some (JObject [("meetingId", JString id); ("token", JString tok)])
  | _ => None
  end.

Definition runtime : Platform := {|
  JSON_parse := parse;
  JSON_stringify_qr := fun id tok _ => ("qr:" ++ id ++ ":" ++ tok)%string;
  castObjectId := fun j => match j with JString s => Some s | _ => None end;
  String_trim := fun s => s;
  QRCode_toDataURL := fun s => ("data:" ++ s)%string;
  Math_sin := fun x => x;
  Math_cos := fun _ => 1%float;
  Math_atan2 := fun y x => (y / x)%float;
  Math_pow := fun x _ => (x * x)%float;
  Math_round := fun x => x
|}.

Definition no_fence : Geofencing :=
  {| enabled := false; center_lat := 0; center_lng := 0; radius := 200 |}.

Definition fence : Geofencing :=
  {| enabled := true; center_lat := 17.5; center_lng := 80.5; radius := 200 |}.

(** Starts at 1 000 000 ms and lasts 60 minutes. *)
Definition standup : Meeting :=
  {| _id := "m1"; type := offline; dateTime := 1000000; duration := 60;
     meetingLink := ""; qrCode := "data:qr:m1:tokA"; qrData := "qr:m1:tokA";
     attendanceToken := ""; isActive := true; qrPaused := false;
     participation := anyone; participants := []; geofencing := no_fence |}.

Definition webinar : Meeting :=
  {| _id := "m2"; type := online; dateTime := 1000000; duration := 60;
     meetingLink := "https://meet.example/abc"; qrCode := ""; qrData := "";
     attendanceToken := "linkB"; isActive := true; qrPaused := false;
     participation := anyone; participants := []; geofencing := no_fence |}.

Definition workshop : Meeting :=
  {| _id := "m3"; type := offline; dateTime := 1000000; duration := 60;
     meetingLink := ""; qrCode := "data:qr:m3:tokC"; qrData := "qr:m3:tokC";
     attendanceToken := ""; isActive := true; qrPaused := true;
     participation := selected; participants := ["u1"]; geofencing := fence |}.

Definition alice : User := {| user_id := "u1"; firebaseUid := "alice" |}.
Definition bob : User := {| user_id := "u2"; firebaseUid := "bob" |}.

Definition db0 : DB :=
  {| meetings := [standup; webinar; workshop];
     users := [alice; bob];
     attendances := [] |}.

(** Two offline meetings whose codes are rotating. *)
Definition on_display : DB :=
  {| meetings := [standup; set_qrPaused false workshop];
     users := [alice; bob];
     attendances := [] |}.

(** A meeting whose window, 1 000 000 to 4 600 000 ms, went by with the
    flag never set, and two talks that start at 5 000 000 ms. *)
Definition missed : Meeting :=
  {| _id := "m4"; type := offline; dateTime := 1000000; duration := 60;
     meetingLink := ""; qrCode := ""; qrData := "";
     attendanceToken := ""; isActive := false; qrPaused := false;
     participation := anyone; participants := []; geofencing := no_fence |}.

Definition talk (id : ObjectId) : Meeting :=
  {| _id := id; type := online; dateTime := 5000000; duration := 60;
     meetingLink := "https://meet.example/talk"; qrCode := ""; qrData := "";
     attendanceToken := ""; isActive := false; qrPaused := false;
     participation := anyone; participants := []; geofencing := no_fence |}.

Definition upcoming : DB :=
  {| meetings := [missed; talk "m5"; talk "m6"];
     users := [alice; bob];
     attendances := [] |}.

(** Draws the same token for every meeting; the work on the meetings
    named in [failing] rejects. *)
Definition oracle (failing : list ObjectId) : Oracle :=
  {| randomHex := fun _ => "c0ffee";
     rejects := fun id => existsb (String.eqb id) failing |}.

Definition at_ (t : Z) (who : string) : Env :=
  {| now := t; uid := who; insert_fault := false |}.

Definition scan (payload : string) (position : option (float * float)) : ScanBody :=
  {| body_qrData := Some payload;
     body_lat := option_map fst position;
     body_lng := option_map snd position;
     body_accuracy := None |}.

Definition open_link (token : string) : MarkRequest :=
  {| param_token := token; mark_lat := None; mark_lng := None; mark_accuracy := None |}.

End Sample.

(** ** Notions used in the statements *)

Definition env_of (s : Submission) : Env :=
  match s with
  | ViaQR e _ => e
  | ViaLink e _ => e
  end.

(** A submission is a valid proof for the pair [(E, S)] on the meetings
    and users of [db]: with no record stored it passes every check and
    reaches the insert of a record for that pair, and the store does not
    fail it for reasons of its own. *)
Definition valid_for {P : Platform} (db : DB) (E S : ObjectId) (s : Submission) : Prop :=
  insert_fault (env_of s) = false /\
  exists rec m,
    decide s (with_attendances [] db) = inr (Insert rec m) /\
    meeting rec = E /\ user rec = S.

Definition count_fresh (rs : list Response) : nat :=
  List.length (filter fresh rs).

(** The scanned payload is well formed, carries the (truthy) [token] and
    names a meeting that exists, [m]. *)
Definition decodes_to {P : Platform} (b : ScanBody) (db : DB) (token : JSValue)
  (m : Meeting) : Prop :=
  exists raw parsed meetingId,
    body_qrData b = Some raw /\ raw <> "" /\
    JSON_parse raw = Some parsed /\
    get_prop "meetingId" parsed = inr meetingId /\
    get_prop "token" parsed = inr token /\
    truthy meetingId = true /\ truthy token = true /\
    Meeting_findById_cast meetingId db = inr (Some m).

(** [meetingQrParsed.token], the token held in the meeting's proof state. *)
Definition storedToken {P : Platform} (m : Meeting) : Exn + JSValue :=
  get_prop "token" (meetingQrParsed m).

(** The checks that come before the time window in each handler pass
    and resolve the submission to the meeting [m]: the payload is well
    formed, the event exists, the token is current (QR) and the meeting
    is of the handler's type. *)
Definition reaches_window {P : Platform} (s : Submission) (db : DB) (m : Meeting) : Prop :=
  match s with
  | ViaQR _ b =>
      exists token stored,
        decodes_to b db token m /\
        storedToken m = inr stored /\
        strict_eq stored token = true /\
        type m = offline
  | ViaLink _ q =>
      param_token q <> "" /\ String_trim (param_token q) <> "" /\
      Meeting_findByToken (param_token q) db = Some m /\
      type m = online
  end.

(** A QR submission by the user [u] passes every check that comes
    before the geofencing block. *)
Definition reaches_geofence {P : Platform} (e : Env) (b : ScanBody) (db : DB)
  (m : Meeting) (u : User) : Prop :=
  reaches_window (ViaQR e b) db m /\
  dateTime m <= now e < endTime m /\
  User_findByUid (uid e) db = Some u /\
  (participation m = selected -> isAllowed m (user_id u) = true).

(** The submission resolves to the meeting [m], whose type is not the
    one its handler serves: a QR submission against an online meeting, or
    a link submission against an offline one. *)
Definition mismatched {P : Platform} (s : Submission) (db : DB) (m : Meeting) : Prop :=
  match s with
  | ViaQR _ b => (exists token, decodes_to b db token m) /\ type m = online
  | ViaLink _ q =>
      param_token q <> "" /\ String_trim (param_token q) <> "" /\
      Meeting_findByToken (param_token q) db = Some m /\
      type m = offline
  end.

(** The scheduler run at the clock readings of [ticks], in turn. *)
Fixpoint scheduler_ticks {P : Platform} (ticks : list (Z * Oracle)) (db : DB) : DB :=
  match ticks with
  | [] => db
  | (t, o) :: later => scheduler_ticks later (checkAndUpdateMeetings t o db)
  end.

(** Every path of a meeting document but [qrPaused] agrees. *)
Definition same_but_qrPaused (a b : Meeting) : Prop :=
  _id a = _id b /\ type a = type b /\ dateTime a = dateTime b /\
  duration a = duration b /\ meetingLink a = meetingLink b /\
  qrCode a = qrCode b /\ qrData a = qrData b /\
  attendanceToken a = attendanceToken b /\ isActive a = isActive b /\
  participation a = participation b /\ participants a = participants b /\
  geofencing a = geofencing b.

(** The store with every cached [isActive] flag replaced by [f]'s. *)
Definition recache (f : Meeting -> bool) (db : DB) : DB :=
  {| meetings := map (fun m => set_isActive (f m) m) (meetings db);
     users := users db;
     attendances := attendances db |}.

(** The answers that the statements name. *)

Definition expired : Response :=
  Failure 400 ExpiredQR
    (Text "This QR code has expired. Please scan the latest QR code.").

Definition location_required : Response :=
  Failure 400 LocationRequired
    (Text "This meeting has geofencing enabled. Please allow location access in your browser and try scanning again.").

Definition wrong_channel_qr : Response :=
  Failure 400 BadRequest
    (Text "QR attendance is only available for offline meetings. Use the attendance link for online meetings.").

Definition wrong_channel_link : Response :=
  Failure 400 BadRequest
    (Text "This attendance link is only valid for online meetings.").

(** *** A run of valid submissions for one pair

    What holds of the tasks and the store while valid submissions for
    the pair [(E, S)] take their turns on the store that started as
    [db0]. *)

Section RunInvariant.

Context {P : Platform}.
Variables (E S : ObjectId) (db0 : DB).

(** What holds of a task while valid submissions for [(E, S)] run. *)
Definition task_ok (db : DB) (t : Task) : Prop :=
  match t with
  | Pending s => valid_for db0 E S s
  | Creating s rec _ =>
      insert_fault (env_of s) = false /\ meeting rec = E /\ user rec = S
  | Done r =>
      (fresh r = true \/ repeated r = true) /\
      existsb (same_pair E S) (attendances db) = true
  end.

Definition fresh_of (t : Task) : nat :=
  match t with
  | Done r => if fresh r then 1 else 0
  | _ => 0
  end.

Definition grows (db db' : DB) : Prop :=
  forall f, existsb f (attendances db) = true ->
            existsb f (attendances db') = true.

Definition frame (db : DB) : Prop :=
  meetings db = meetings db0 /\ users db = users db0.

(** The invariant of a turn, and so of a schedule. *)
Definition preserved (ts : list Task) (db : DB) (ts' : list Task) (db' : DB) : Prop :=
  frame db' /\
  unique_index (attendances db') /\
  grows db db' /\
  Forall (task_ok db') ts' /\
  List.length ts' = List.length ts /\
  (count_fresh (responses ts') + count_pair E S (attendances db) =
   count_fresh (responses ts) + count_pair E S (attendances db'))%nat.

End RunInvariant.

Section RotatedDocument.

Context {P : Platform}.

(** What a rotation tick at [t] stores for the meeting [id]. *)
Definition rotated (t : Z) (o : Oracle) (id : ObjectId) : Meeting -> Meeting :=
  let qrPayload := JSON_stringify_qr id (randomHex o id) t in
  set_qr (QRCode_toDataURL qrPayload) qrPayload.

End RotatedDocument.

(** *** The handlers past the time window *)

Definition user_missing : Response :=
  Failure 403 Forbidden
    (Text "User not found in the system. Please contact an administrator.").

Definition not_listed : Response :=
  Failure 403 Forbidden
    (Text "You are not on the participants list for this meeting.").

(** The record a handler builds for the user [u] at the meeting [m]. *)
Definition record_for (s : Submission) (m : Meeting) (u : User) : Attendance :=
  match s with
  | ViaQR e b =>
      {| meeting := _id m; user := user_id u; method := qr; markedAt := now e;
         location := capture (body_lat b) (body_lng b) (body_accuracy b) |}
  | ViaLink e q =>
      {| meeting := _id m; user := user_id u; method := link; markedAt := now e;
         location := capture (mark_lat q) (mark_lng q) (mark_accuracy q) |}
  end.

(** The 200 answer to a member who has attended. *)
Definition repeat_reply (s : Submission) (m : Meeting) : Response :=
  match s with
  | ViaQR _ _ => Success 200 true (MeetingData (_id m))
  | ViaLink _ _ => Success 200 true (LinkData (meetingLink m))
  end.

(** The 201 answer that goes with a new record. *)
Definition fresh_reply (s : Submission) (m : Meeting) : Response :=
  match s with
  | ViaQR _ _ => Success 201 false (MeetingData (_id m))
  | ViaLink _ _ => Success 201 false (LinkData (meetingLink m))
  end.

(** The geofencing block, which only the QR handler has. *)
Definition geofence_of {P : Platform} (s : Submission) (m : Meeting) : option Response :=
  match s with
  | ViaQR _ b => geofence m (body_lat b) (body_lng b)
  | ViaLink _ _ => None
  end.

(** Whether the eligibility check lets the user through. *)
Definition eligible (m : Meeting) (u : User) : bool :=
  match participation m with
  | selected => isAllowed m (user_id u)
  | anyone => true
  end.

(** What is left of a handler once the checks up to the time window
    have passed for the meeting [m]. *)
Definition after_window {P : Platform} (s : Submission) (db : DB) (m : Meeting)
  : Response * DB :=
  match User_findByUid (uid (env_of s)) db with
  | None => (user_missing, db)
  | Some u =>
      if eligible m u then
        match geofence_of s m with
        | Some refusal => (refusal, db)
        | None =>
            match Attendance_findOne (_id m) (user_id u) db with
            | Some _ => (repeat_reply s m, db)
            | None => commit s (record_for s m u) m db
            end
        end
      else (not_listed, db)
  end.

(** Everything a handler checks holds of the submission [s], which
    resolves to the meeting [m] and the user [u]. *)
Definition admissible {P : Platform} (s : Submission) (db : DB) (m : Meeting) (u : User)
  : Prop :=
  reaches_window s db m /\
  dateTime m <= now (env_of s) < endTime m /\
  User_findByUid (uid (env_of s)) db = Some u /\
  eligible m u = true /\
  geofence_of s m = None.

(** The paths of a meeting that only its administrators edit. *)
Definition schedule_of (m : Meeting)
  : ObjectId * MeetingType * Z * Z * string * Participation * list ObjectId * Geofencing :=
  (_id m, type m, dateTime m, duration m, meetingLink m, participation m,
   participants m, geofencing m).

(** Every path of a meeting but [qrCode] and [qrData]. *)
Definition beside_qr (m : Meeting) :=
  (schedule_of m, attendanceToken m, isActive m, qrPaused m).

(** Every path of a meeting but [isActive], and every path but
    [attendanceToken]. *)
Definition beside_isActive (m : Meeting) :=
  (schedule_of m, qrCode m, qrData m, attendanceToken m, qrPaused m).

Definition beside_attendanceToken (m : Meeting) :=
  (schedule_of m, qrCode m, qrData m, isActive m, qrPaused m).

(** A tick in which no work rejects. *)
Definition clean (o : Oracle) : Prop := forall id, rejects o id = false.

(** The meeting is selected by the rotation service. *)
Definition rotating (m : Meeting) : bool :=
  negb (String.eqb (qrCode m) "") && negb (qrPaused m).

(** Reading a quoted CSV cell off the front of a row: the text between
    the opening quote and the first quote that is not doubled, every pair
    of quotes read as one, and what follows the cell; [None] when the
    row does not start with a closed quoted cell. *)
Fixpoint csv_body (s : string) : option (string * string) :=
  match s with
  | EmptyString => None
  | String c rest =>
      if Ascii.eqb c dquote then
        match rest with
        | EmptyString => Some (EmptyString, EmptyString)
        | String c' rest' =>
            if Ascii.eqb c' dquote then
              option_map (fun r => (String dquote (fst r), snd r)) (csv_body rest')
            else Some (EmptyString, rest)
        end
      else option_map (fun r => (String c (fst r), snd r)) (csv_body rest)
  end.

Definition csv_read (row : string) : option (string * string) :=
  match row with
  | String c rest => if Ascii.eqb c dquote then csv_body rest else None
  | EmptyString => None
  end.

(** What follows a cell in a row does not start with a quote: it is the
    comma before the next cell, or nothing. *)
Definition after_cell (rest : string) : bool :=
  match rest with
  | EmptyString => true
  | String c _ => negb (Ascii.eqb c dquote)
  end.



(** *** The loops of the scheduler, document by document *)

(** The shape the two [for] loops share: the selected documents [todo]
    are visited in turn, and [F x] is stored over the document with the
    id of [x] when [cond x] holds. *)
Fixpoint sweep (cond : Meeting -> bool) (F : Meeting -> Meeting -> Meeting)
  (o : Oracle) (todo : list Meeting) (db : DB) : option Exn * DB :=
  match todo with
  | [] => (None, db)
  | x :: rest =>
      if cond x then
        if rejects o (_id x) then (Some MongoFailure, db)
        else sweep cond F o rest (Meeting_findByIdAndUpdate (_id x) (F x) db)
      else sweep cond F o rest db
  end.

(** What a sweep without rejections does to one stored document. *)
Definition swept (cond : Meeting -> bool) (F : Meeting -> Meeting -> Meeting)
  (todo : list Meeting) (d : Meeting) : Meeting :=
  fold_left (fun c x => if cond x && String.eqb (_id c) (_id x) then F x c else c)
            todo d.

(** What a tick without rejections does to one stored document. *)
Definition tick_doc {P : Platform} (t : Z) (o : Oracle) (d : Meeting) : Meeting :=
  let d1 :=
    if negb (isActive d) && (dateTime d <=? t) && (t <? endTime d)
    then activation t o d d else d in
  if isActive d1 && (endTime d1 <=? t) then deactivation d1 else d1.

(** *** Issued proofs and accepted submissions *)

(** The runtime reads back what it writes for the payload of the meeting
    [id] with the token [tok] issued at [t]: [JSON.parse] of the payload
    is an object with that [meetingId] and that [token], the id casts to
    itself, and neither of them nor the payload is empty. *)
Definition well_coded {P : Platform} (id : ObjectId) (tok : string) (t : Z) : Prop :=
  JSON_stringify_qr id tok t <> "" /\ id <> "" /\ tok <> "" /\
  castObjectId (JString id) = Some id /\
  exists props,
    JSON_parse (JSON_stringify_qr id tok t) = Some (JObject props) /\
    assoc "meetingId" props = Some (JString id) /\
    assoc "token" props = Some (JString tok).

(** Everything a handler checks apart from the proof itself is in order:
    the clock is inside the window of [m], the caller is the user [u],
    who may attend and stands inside the fence, and the store takes the
    insert. *)
Definition in_order {P : Platform} (s : Submission) (db : DB) (m : Meeting) (u : User)
  : Prop :=
  dateTime m <= now (env_of s) < endTime m /\
  User_findByUid (uid (env_of s)) db = Some u /\
  eligible m u = true /\
  geofence_of s m = None /\
  insert_fault (env_of s) = false.

(** The handler answers the submission with the 201 of a new record, or
    with the 200 repeat when the member had attended, and a record of the
    member at the meeting is stored afterwards. *)
Definition accepted {P : Platform} (s : Submission) (db : DB) (m : Meeting) (u : User)
  : Prop :=
  fst (handle s db) =
    (if existsb (same_pair (_id m) (user_id u)) (attendances db)
     then repeat_reply s m else fresh_reply s m) /\
  meetings (snd (handle s db)) = meetings db /\
  users (snd (handle s db)) = users db /\
  exists a, Attendance_findOne (_id m) (user_id u) (snd (handle s db)) = Some a.

(** *** The distance of the specification *)

(** Degrees to radians. *)
Definition radians (deg : float) : float := (deg * Math_PI / 180)%float.

Section GreatCircle.

Context {P : Platform}.

(** The haversine of an angle, the square of the sine of its half. *)
Definition hav (theta : float) : float := Math_pow (Math_sin (theta / 2)) 2.

(** The haversine formula for the great-circle distance between the
    points [(lat1, lng1)] and [(lat2, lng2)], given in degrees, on a
    sphere of radius [r]: with

      h = hav (lat2 - lat1) + cos lat1 * cos lat2 * hav (lng2 - lng1)

    the distance is [2 r atan2 (sqrt h) (sqrt (1 - h))]. *)
Definition great_circle (r lat1 lng1 lat2 lng2 : float) : float :=
  let h :=
    (hav (radians (lat2 - lat1)) +
     Math_cos (radians lat1) * Math_cos (radians lat2) *
       hav (radians (lng2 - lng1)))%float in
  (2 * r * Math_atan2 (PrimFloat.sqrt h) (PrimFloat.sqrt (1 - h)))%float.

End GreatCircle.

(** *** What the geofencing block establishes *)


(** *** Histories *)

(** The operations of the model that write to the store. *)
Inductive Operation :=
| Submit (s : Submission)
| SchedulerTick (t : Z) (o : Oracle)
| RotationTick (t : Z) (o : Oracle)
| TogglePause (id : string)
| ToggleActive (id : string)
| GenerateQR (t : Z) (o : Oracle) (id : string)
| GenerateLink (o : Oracle) (id : string)
| DeleteMeeting (id : string).

Definition on_store (f : DB -> DB) (sv : Server) : Server :=
  {| store := f (store sv); lastRefreshedAt := lastRefreshedAt sv |}.

Definition perform {P : Platform} (op : Operation) (sv : Server) : Server :=
  match op with
  | Submit s => on_store (fun db => snd (handle s db)) sv
  | SchedulerTick t o => on_store (checkAndUpdateMeetings t o) sv
  | RotationTick t o => refreshQRCodes t o sv
  | TogglePause id => snd (toggleQRPause id sv)
  | ToggleActive id => on_store (fun db => snd (toggleActive id db)) sv
  | GenerateQR t o id => on_store (fun db => snd (generateQR t o id db)) sv
  | GenerateLink o id => on_store (fun db => snd (generateAttendanceLink o id db)) sv
  | DeleteMeeting id => on_store (fun db => snd (deleteMeeting id db)) sv
  end.

(** The server after the operations of [ops], run one after the other. *)
Definition history {P : Platform} (ops : list Operation) (sv : Server) : Server :=
  fold_left (fun sv op => perform op sv) ops sv.

(** * Properties *)

(** Case analysis along the guards of a handler. *)
Ltac walk H :=
  repeat match type of H with
         | context [match ?x with _ => _ end] => destruct x eqn:?
         end.

(** The same on the goal, innermost scrutinee first. *)
Ltac walk_goal :=
  repeat match goal with
         | |- context [match ?x with _ => _ end] =>
             lazymatch x with
             | context [match _ with _ => _ end] => fail
             | _ => destruct x eqn:?
             end
         end.


(** ** The handlers on the sample deployment *)

(** One second before the start, at the start, one second before the end
    and at the end of the stand-up (1 000 000 ms, 60 minutes). *)
Example window_boundaries :
  map (fun t => error_of (fst (scanQRAttendance (P := Sample.runtime)
                                 (Sample.at_ t "alice")
                                 (Sample.scan "qr:m1:tokA" None) Sample.db0)))
      [999000; 1000000; 4599000; 4600000]
  = [Some TooEarly; None; None; Some MeetingEnded].
Proof. reflexivity. Qed.

(** A member who is not on the workshop's list is turned away, with a
    current code and inside the window. *)
Example restricted_meeting :
  error_of (fst (scanQRAttendance (P := Sample.runtime)
                   (Sample.at_ 1200000 "bob")
                   (Sample.scan "qr:m3:tokC" (Some (17.5, 80.5)%float)) Sample.db0))
  = Some Forbidden.
Proof. reflexivity. Qed.

(** A listed member who sends no position to the fenced workshop. *)
Example position_missing :
  fst (scanQRAttendance (P := Sample.runtime)
         (Sample.at_ 1200000 "alice") (Sample.scan "qr:m3:tokC" None) Sample.db0)
  = location_required.
Proof. reflexivity. Qed.

(** The payload [null] parses, and reading its fields throws. *)
Example null_payload :
  scanQRAttendance (P := Sample.runtime)
    (Sample.at_ 1200000 "alice") (Sample.scan "null" None) Sample.db0
  = (Failure 500 InternalError
       (Text "Failed to mark attendance. Please try again."), Sample.db0).
Proof. reflexivity. Qed.

(** Joining the webinar by its link, then joining again. *)
Example join_and_rejoin :
  let e := Sample.at_ 1200000 "bob" in
  let first := markAttendance (P := Sample.runtime) e (Sample.open_link "linkB")
                 Sample.db0 in
  let again := markAttendance (P := Sample.runtime) e (Sample.open_link "linkB")
                 (snd first) in
  fst first = Success 201 false (LinkData "https://meet.example/abc") /\
  fst again = Success 200 true (LinkData "https://meet.example/abc") /\
  snd again = snd first.
Proof. repeat split. Qed.

(** A link that belongs to no meeting. *)
Example unknown_link :
  fst (markAttendance (P := Sample.runtime)
         (Sample.at_ 1200000 "bob") (Sample.open_link "nope") Sample.db0)
  = Failure 404 NotFound (Text "Invalid attendance link.").
Proof. reflexivity. Qed.

(** A tick at 6 000 000 ms activates the two talks, each with a fresh
    link token, and leaves the missed meeting dormant. *)
Example tick_activates :
  map (fun m => (_id m, isActive m, attendanceToken m))
      (meetings (checkAndUpdateMeetings (P := Sample.runtime) 6000000
                   (Sample.oracle []) Sample.upcoming))
  = [("m4", false, ""); ("m5", true, "c0ffee"); ("m6", true, "c0ffee")].
Proof. reflexivity. Qed.

(** The countdown one millisecond and twenty seconds after a rotation. *)
Example countdown_values :
  map (fun t => getSecondsUntilNextRefresh t (Some 10000)) [10000; 10001; 29999; 30000; 31000]
  = [20; 20; 1; 0; 0].
Proof. reflexivity. Qed.


(** ** The rotation countdown *)

Lemma Qceiling_quotient (n : Z) (d : positive) :
  Qceiling (inject_Z n / inject_Z (Z.pos d)) = - ((- n) / Z.pos d).
Proof.
  unfold Qceiling. f_equal.
  rewrite (Zdiv_Qdiv (- n) (Z.pos d)).
  apply Qfloor_comp.
  rewrite inject_Z_opp. field.
  discriminate.
Qed.

Lemma getSecondsUntilNextRefresh_closed_form (t l : Z) :
  getSecondsUntilNextRefresh t (Some l) =
  Z.max 0 (QR_REFRESH_INTERVAL - (t - l) / 1000).
Proof.
  unfold getSecondsUntilNextRefresh, QR_REFRESH_INTERVAL. f_equal.
  transitivity (Qceiling (inject_Z (20 * 1000 - (t - l)) / inject_Z 1000)).
  - apply Qceiling_comp.
    unfold Z.sub.
    rewrite !inject_Z_plus, !inject_Z_opp, inject_Z_plus, inject_Z_opp, inject_Z_mult.
    field.
  - rewrite Qceiling_quotient.
    replace (- (20 * 1000 - (t - l))) with ((t - l) + (- 20) * 1000) by ring.
    rewrite Z.div_add by discriminate. ring.
Qed.

(** C10. The seconds-until-next-rotation value of the read-only status
    query is 0 while no rotation tick has completed, and otherwise the
    ceiling [c] of interval minus elapsed seconds (the integer with
    [c - 1 < 20 - elapsed <= c], written in milliseconds), clamped below
    at 0; for a query made no earlier than the recorded instant it lies
    between 0 and the 20-second interval.  The query leaves the server
    state as it was. *)
Theorem qr_status_countdown {P : Platform} (t : Z) (id : string) (s : Server)
  (q : QRStatus) :
  fst (getQRStatus t id s) = inr q ->
  snd (getQRStatus t id s) = s /\
  match lastRefreshedAt s with
  | None => secondsRemaining q = 0
  | Some l =>
      (exists c : Z,
          1000 * (c - 1) < 1000 * QR_REFRESH_INTERVAL - (t - l) <= 1000 * c /\
          secondsRemaining q = Z.max 0 c) /\
      (l <= t -> 0 <= secondsRemaining q <= QR_REFRESH_INTERVAL)
  end.
Proof.
  unfold getQRStatus.
  destruct (castObjectId (JString id)) as [oid|]; [|discriminate].
  destruct (Meeting_findById oid (store s)) as [m|]; [|discriminate].
  cbn [fst snd]. intros [= <-]. split; [reflexivity|]. cbn [secondsRemaining].
  destruct (lastRefreshedAt s) as [l|]; [|reflexivity].
  rewrite getSecondsUntilNextRefresh_closed_form. unfold QR_REFRESH_INTERVAL.
  assert (Hdiv := Z.div_mod (t - l) 1000 ltac:(discriminate)).
  assert (Hmod := Z.mod_pos_bound (t - l) 1000 ltac:(reflexivity)).
  split.
  - exists (20 - (t - l) / 1000). split; [lia | reflexivity].
  - intros Hle.
    assert (0 <= (t - l) / 1000) by (apply Z.div_pos; lia).
    lia.
Qed.

Lemma qr_status_countdown_witness :
  let s := {| store := Sample.db0; lastRefreshedAt := Some 10000 |} in
  exists q, fst (getQRStatus (P := Sample.runtime) 25500 "m1" s) = inr q /\
            0 <= secondsRemaining q <= QR_REFRESH_INTERVAL.
Proof.
  intro s.
  exists {| status_qrCode := Some "data:qr:m1:tokA";
            status_qrData := Some "qr:m1:tokA";
            status_isActive := true;
            status_qrPaused := false;
            secondsRemaining := getSecondsUntilNextRefresh 25500 (Some 10000);
            refreshInterval := QR_REFRESH_INTERVAL |}.
  split; [reflexivity|].
  refine (proj2 (proj2 (@qr_status_countdown Sample.runtime
                         25500 "m1" s _ eq_refl)) _).
  lia.
Defined.

(** ** What the validator writes *)

Section Writes.

Context {P : Platform}.

Lemma geofence_refusal (m : Meeting) (lat lng : option float) (r : Response) :
  geofence m lat lng = Some r ->
  exists msg, r = Failure 400 LocationRequired msg \/ r = Failure 400 OutOfRange msg.
Proof.
  unfold geofence. intros H. walk H; inversion H; eauto.
Qed.

(** Whatever a handler answers before it reaches [Attendance.create] is
    a failure or the idempotent repeat. *)
Lemma scanQR_decide_reply (e : Env) (b : ScanBody) (db : DB) (r : Response) :
  scanQR_decide e b db = inr (Reply r) -> failure r || repeated r = true.
Proof.
  unfold scanQR_decide, bind. intros H.
  walk H; try discriminate; inversion H; subst; try reflexivity;
    match goal with
    | G : geofence _ _ _ = Some _ |- _ =>
        destruct (geofence_refusal _ _ _ G) as [msg [-> | ->]]; reflexivity
    end.
Qed.

Lemma mark_decide_reply (e : Env) (q : MarkRequest) (db : DB) (r : Response) :
  mark_decide e q db = inr (Reply r) -> failure r || repeated r = true.
Proof.
  unfold mark_decide. intros H.
  walk H; try discriminate; inversion H; reflexivity.
Qed.

Lemma decide_reply (s : Submission) (db : DB) (r : Response) :
  decide s db = inr (Reply r) -> failure r || repeated r = true.
Proof.
  destruct s; [apply scanQR_decide_reply | apply mark_decide_reply].
Qed.


Lemma kind_not_fresh (r : Response) :
  failure r || repeated r = true -> fresh r = false.
Proof.
  destruct r as [st err msg | st al d]; [reflexivity|].
  destruct st as [|p|p], al; try reflexivity; cbn;
    repeat (destruct p as [p|p|]; try reflexivity; try discriminate).
Qed.


(** Run without interruption, the two turns of a task are the handler. *)
Lemma handle_advance (s : Submission) (db : DB) :
  let (t, db1) := advance (Pending s) db in
  advance t db1 = (Done (fst (handle s db)), snd (handle s db)).
Proof.
  destruct s as [e b | e q]; cbn [handle advance decide];
    [unfold scanQRAttendance | unfold markAttendance].
  - destruct (scanQR_decide e b db) as [ex | [r | rec m]]; cbn; try reflexivity.
    destruct (scanQR_commit e rec m db); reflexivity.
  - destruct (mark_decide e q db) as [ex | [r | rec m]]; cbn; try reflexivity.
    destruct (mark_commit e q rec m db); reflexivity.
Qed.

Lemma commit_cases (s : Submission) (rec : Attendance) (m : Meeting) (db : DB) :
  (fresh (fst (commit s rec m db)) = true /\
   snd (commit s rec m db) = with_attendances (attendances db ++ [rec]) db /\
   existsb (same_pair (meeting rec) (user rec)) (attendances db) = false) \/
  (failure (fst (commit s rec m db)) || repeated (fst (commit s rec m db)) = true /\
   snd (commit s rec m db) = db).
Proof.
  destruct s as [e b | e q]; cbn [commit];
    [unfold scanQR_commit | unfold mark_commit]; unfold Attendance_create;
    destruct (insert_fault e);
    try (right; split; reflexivity);
    destruct (existsb _ _) eqn:Hdup;
    try (right; split; reflexivity);
    left; repeat split; reflexivity.
Qed.

End Writes.


(** ** The unique index under interleaved submissions *)

Lemma existsb_same_pair (atts : list Attendance) (rec : Attendance) :
  existsb (same_pair (meeting rec) (user rec)) atts = false ->
  ~ In (pair_of rec) (map pair_of atts).
Proof.
  intros Hno Hin. apply in_map_iff in Hin as (a & Heq & Ha).
  assert (Ht : existsb (same_pair (meeting rec) (user rec)) atts = true).
  { apply existsb_exists. exists a. split; [assumption|].
    unfold pair_of in Heq. injection Heq as Hm Hu.
    unfold same_pair. rewrite Hm, Hu, !String.eqb_refl. reflexivity. }
  congruence.
Qed.

Lemma unique_index_insert (atts : list Attendance) (rec : Attendance) :
  unique_index atts ->
  existsb (same_pair (meeting rec) (user rec)) atts = false ->
  unique_index (atts ++ [rec]).
Proof.
  unfold unique_index. intros Hu Hno.
  rewrite map_app. cbn [map].
  apply NoDup_incl_NoDup with (l := pair_of rec :: map pair_of atts).
  - constructor; [apply existsb_same_pair; assumption | assumption].
  - rewrite length_app. cbn [List.length]. cbn. lia.
  - intros x [<- | Hx]; apply in_or_app; [right; left | left]; auto.
Qed.

Lemma count_pair_app (m u : ObjectId) (l1 l2 : list Attendance) :
  count_pair m u (l1 ++ l2) = (count_pair m u l1 + count_pair m u l2)%nat.
Proof. unfold count_pair. rewrite filter_app, length_app. reflexivity. Qed.

Lemma count_pair_absent (m u : ObjectId) (atts : list Attendance) :
  existsb (same_pair m u) atts = false -> count_pair m u atts = 0%nat.
Proof.
  unfold count_pair. induction atts as [|a atts IH]; cbn; [reflexivity|].
  destruct (same_pair m u a); cbn; [discriminate | exact IH].
Qed.

Lemma count_pair_present (m u : ObjectId) (atts : list Attendance) :
  existsb (same_pair m u) atts = true -> (1 <= count_pair m u atts)%nat.
Proof.
  unfold count_pair. induction atts as [|a atts IH]; cbn; [discriminate|].
  destruct (same_pair m u a); cbn; [lia | exact IH].
Qed.

Lemma count_pair_unique (m u : ObjectId) (atts : list Attendance) :
  unique_index atts -> (count_pair m u atts <= 1)%nat.
Proof.
  unfold unique_index, count_pair.
  induction atts as [|a atts IH]; cbn; [lia|].
  intros Hnd. inversion Hnd as [|x l Hnotin Hnd']; subst.
  destruct (same_pair m u a) eqn:Ha; cbn; [|auto].
  assert (Hz : count_pair m u atts = 0%nat).
  { apply count_pair_absent.
    destruct (existsb (same_pair m u) atts) eqn:Hex; [|reflexivity].
    exfalso. apply Hnotin.
    apply existsb_exists in Hex as (a' & Hin & Ha').
    apply in_map_iff. exists a'. split; [|assumption].
    unfold same_pair in Ha, Ha'.
    apply andb_prop in Ha as [H1 H2]. apply andb_prop in Ha' as [H3 H4].
    apply String.eqb_eq in H1, H2, H3, H4. unfold pair_of. congruence. }
  unfold count_pair in Hz. lia.
Qed.

Lemma find_existsb {A : Type} (f : A -> bool) (l : list A) :
  existsb f l = match find f l with Some _ => true | None => false end.
Proof.
  induction l as [|a l IH]; cbn; [reflexivity|].
  destruct (f a); [reflexivity | exact IH].
Qed.

Section Interleavings.

Context {P : Platform}.

Lemma advance_frame (t : Task) (db : DB) :
  meetings (snd (advance t db)) = meetings db /\
  users (snd (advance t db)) = users db.
Proof.
  destruct t as [s | s rec m | r]; cbn [advance].
  - destruct (decide s db) as [ex | [r | rec m]]; split; reflexivity.
  - destruct (commit s rec m db) as [r db'] eqn:Hc. cbn [snd].
    destruct (commit_cases s rec m db) as [(_ & Hs & _) | (_ & Hs)];
      rewrite Hc in Hs; cbn [snd] in Hs; subst db'; split; reflexivity.
  - split; reflexivity.
Qed.

Lemma advance_unique (t : Task) (db : DB) :
  unique_index (attendances db) ->
  unique_index (attendances (snd (advance t db))).
Proof.
  intros Hu. destruct t as [s | s rec m | r]; cbn [advance].
  - destruct (decide s db) as [ex | [r | rec m]]; exact Hu.
  - destruct (commit s rec m db) as [r db'] eqn:Hc. cbn [snd].
    destruct (commit_cases s rec m db) as [(_ & Hs & Hno) | (_ & Hs)];
      rewrite Hc in Hs; cbn [snd] in Hs; subst db'; [|exact Hu].
    cbn [attendances with_attendances]. apply unique_index_insert; assumption.
  - exact Hu.
Qed.

Lemma step_unique (i : nat) (ts : list Task) (db : DB) :
  unique_index (attendances db) ->
  unique_index (attendances (snd (step i ts db))).
Proof.
  revert i. induction ts as [|t ts IH]; intros i Hu; [destruct i; exact Hu|].
  destruct i as [|j]; cbn [step].
  - generalize (advance_unique t db Hu). destruct (advance t db). exact (fun H => H).
  - specialize (IH j Hu). destruct (step j ts db). exact IH.
Qed.

Lemma run_unique (schedule : list nat) (ts : list Task) (db : DB) :
  unique_index (attendances db) ->
  unique_index (attendances (snd (run schedule ts db))).
Proof.
  revert ts db. induction schedule as [|i later IH]; intros ts db Hu; [exact Hu|].
  cbn [run]. generalize (step_unique i ts db Hu).
  destruct (step i ts db) as [ts' db']. cbn [snd]. apply IH.
Qed.

(** Every submission answers: two turns finish a task, so two rounds over
    the tasks finish them all. *)
Lemma advance_twice (t : Task) (db db' : DB) :
  finished (fst (advance (fst (advance t db)) db')) = true.
Proof.
  destruct t as [s | s rec m | r]; cbn [advance].
  - destruct (decide s db) as [ex | [r | rec m]]; cbn [fst advance];
      try reflexivity.
    destruct (commit s rec m db'); reflexivity.
  - destruct (commit s rec m db); reflexivity.
  - reflexivity.
Qed.

Lemma step_at (pre post : list Task) (t : Task) (db : DB) :
  step (List.length pre) (pre ++ t :: post) db =
  ((pre ++ fst (advance t db) :: post)%list, snd (advance t db)).
Proof.
  induction pre as [|p pre IH]; cbn [List.length app step].
  - destruct (advance t db); reflexivity.
  - rewrite IH. reflexivity.
Qed.

Lemma run_round (ts pre : list Task) (db : DB) :
  exists ts' db',
    run (seq (List.length pre) (List.length ts)) (pre ++ ts) db
    = ((pre ++ ts')%list, db') /\
    Forall2 (fun t t' => exists d, t' = fst (advance t d)) ts ts'.
Proof.
  revert pre db. induction ts as [|t ts IH]; intros pre db.
  - exists [], db. split; [reflexivity | constructor].
  - cbn [List.length seq run]. rewrite step_at.
    destruct (IH (pre ++ [fst (advance t db)]) (snd (advance t db)))
      as (ts' & db' & Hrun & Hall).
    rewrite length_app, Nat.add_1_r, <- !app_assoc in Hrun. cbn [app] in Hrun.
    exists (fst (advance t db) :: ts'), db'. split; [exact Hrun|].
    constructor; [exists db; reflexivity | exact Hall].
Qed.

Lemma run_app (s1 s2 : list nat) (ts : list Task) (db : DB) :
  run (s1 ++ s2) ts db = run s2 (fst (run s1 ts db)) (snd (run s1 ts db)).
Proof.
  revert ts db. induction s1 as [|i s1 IH]; intros ts db; cbn [app run].
  - reflexivity.
  - destruct (step i ts db) as [ts' db']. apply IH.
Qed.

Lemma two_rounds_finish (ts : list Task) (db : DB) :
  let round := seq 0 (List.length ts) in
  forallb finished (fst (run (round ++ round)%list ts db)) = true.
Proof.
  intros round. unfold round. rewrite run_app.
  destruct (run_round ts [] db) as (ts1 & db1 & Hrun1 & Hall1).
  cbn [List.length app] in Hrun1. rewrite Hrun1. cbn [fst snd].
  rewrite (Forall2_length Hall1).
  destruct (run_round ts1 [] db1) as (ts2 & db2 & Hrun2 & Hall2).
  cbn [List.length app] in Hrun2. rewrite Hrun2. cbn [fst].
  clear Hrun1 Hrun2. revert ts2 Hall2.
  induction Hall1 as [|t t1 ts ts1 [d1 Ht1] _ IH]; intros ts2 Hall2;
    inversion Hall2 as [|x t2 l ts2' [d2 Ht2] Hrest]; subst; cbn [forallb].
  - reflexivity.
  - rewrite advance_twice. apply IH. exact Hrest.
Qed.

End Interleavings.

Section ExactlyOnce.

Context {P : Platform}.

(** The checks before the final [findOne] read meetings and users only. *)
Lemma decide_shape (s : Submission) (db : DB) (rec : Attendance) (m : Meeting) :
  decide s (with_attendances [] db) = inr (Insert rec m) ->
  forall atts,
    if existsb (same_pair (meeting rec) (user rec)) atts
    then exists r, decide s (with_attendances atts db) = inr (Reply r) /\
                   repeated r = true
    else decide s (with_attendances atts db) = inr (Insert rec m).
Proof.
  intros H atts. rewrite find_existsb.
  destruct s as [e b | e q]; cbn [decide] in *.
  - unfold scanQR_decide, bind, Meeting_findById_cast, Meeting_findById,
      User_findByUid, Attendance_findOne in *.
    cbn [meetings users attendances with_attendances find] in *.
    walk H; try discriminate; inversion H; subst; cbn [meeting user].
    all: destruct (find _ atts); eauto.
  - unfold mark_decide, Meeting_findByToken, User_findByUid, Attendance_findOne in *.
    cbn [meetings users attendances with_attendances find] in *.
    walk H; try discriminate; inversion H; subst; cbn [meeting user].
    all: destruct (find _ atts); eauto.
Qed.

Variables (E S : ObjectId) (db0 : DB).

Lemma frame_with_attendances (db : DB) :
  frame db0 db -> db = with_attendances (attendances db) db0.
Proof.
  destruct db as [ms us atts]. unfold frame, with_attendances. cbn.
  intros [-> ->]. reflexivity.
Qed.

Lemma task_ok_grows (db db' : DB) (t : Task) :
  grows db db' -> task_ok E S db0 db t -> task_ok E S db0 db' t.
Proof.
  intros Hg. destruct t as [s | s rec m | r]; cbn; auto.
  intros [Hr Hex]. split; [exact Hr | apply Hg; exact Hex].
Qed.

Lemma count_fresh_cons (t : Task) (ts : list Task) :
  count_fresh (responses (t :: ts)) = (fresh_of t + count_fresh (responses ts))%nat.
Proof.
  unfold count_fresh. destruct t as [s | s rec m | r]; cbn; try reflexivity.
  destruct (fresh r); reflexivity.
Qed.

Lemma repeated_not_fresh (r : Response) : repeated r = true -> fresh r = false.
Proof.
  intros Hr. apply kind_not_fresh. rewrite Hr. apply orb_true_r.
Qed.

Lemma advance_ok (t : Task) (db : DB) :
  frame db0 db -> unique_index (attendances db) -> task_ok E S db0 db t ->
  frame db0 (snd (advance t db)) /\
  unique_index (attendances (snd (advance t db))) /\
  grows db (snd (advance t db)) /\
  task_ok E S db0 (snd (advance t db)) (fst (advance t db)) /\
  (fresh_of (fst (advance t db)) + count_pair E S (attendances db) =
   fresh_of t + count_pair E S (attendances (snd (advance t db))))%nat.
Proof.
  intros Hf Hu Hok.
  destruct (advance_frame t db) as [Hm Hus].
  split; [unfold frame in *; destruct Hf; split; congruence|].
  split; [apply advance_unique; exact Hu|].
  destruct t as [s | s rec m | r]; cbn [advance].
  - destruct Hok as (Hfault & rec & m & Hd & HE & HS).
    generalize (decide_shape s db0 Hd (attendances db)).
    rewrite <- (frame_with_attendances Hf). rewrite HE, HS.
    destruct (existsb (same_pair E S) (attendances db)) eqn:Hex.
    + intros (r & -> & Hr). cbn [fst snd fresh_of].
      rewrite (repeated_not_fresh _ Hr).
      repeat split; auto. congruence.
    + intros ->. cbn [fst snd fresh_of task_ok].
      repeat split; auto. congruence.
  - destruct Hok as (Hfault & HE & HS).
    assert (Hc : commit s rec m db =
                 match Attendance_create false rec db with
                 | inr db' => (fst (commit s rec m db), db')
                 | inl ex => (catch s db ex, db)
                 end).
    { destruct s as [e b | e q]; cbn [commit env_of catch] in *;
        [unfold scanQR_commit | unfold mark_commit]; rewrite Hfault;
        destruct (Attendance_create false rec db); reflexivity. }
    destruct (commit_cases s rec m db) as [(Hfr & Hs & Hno) | (Hk & Hs)].
    + destruct (commit s rec m db) as [r db'] eqn:Hcm. cbn [fst snd] in *.
      subst db'. rewrite HE, HS in Hno.
      assert (Hrec : same_pair E S rec = true).
      { unfold same_pair. rewrite HE, HS, !String.eqb_refl. reflexivity. }
      cbn [fresh_of task_ok attendances with_attendances]. rewrite Hfr.
      split; [|split].
      * intros f Hex. cbn [attendances with_attendances].
        rewrite existsb_app, Hex. reflexivity.
      * split; [left; reflexivity|].
        rewrite existsb_app. cbn. rewrite Hrec. apply orb_true_r.
      * rewrite count_pair_app, (count_pair_absent _ _ _ Hno).
        unfold count_pair. cbn. rewrite Hrec. reflexivity.
    + unfold Attendance_create in Hc.
      destruct (existsb (same_pair (meeting rec) (user rec)) (attendances db))
        eqn:Hex.
      * rewrite Hc. cbn [fst snd fresh_of task_ok].
        assert (Hrep : repeated (catch s db MongoDuplicateKey) = true)
          by (destruct s; reflexivity).
        rewrite (repeated_not_fresh _ Hrep). rewrite HE, HS in Hex.
        repeat split; auto. congruence.
      * exfalso. destruct (commit s rec m db) as [r db'] eqn:Hcm.
        cbn [fst snd] in *. subst db'.
        assert (Habs : attendances db = (attendances db ++ [rec])%list)
          by (injection Hc as Hdb; rewrite Hdb at 1; reflexivity).
        apply (f_equal (@List.length _)) in Habs.
        rewrite length_app in Habs. cbn in Habs. lia.
  - destruct Hok as [Hr Hex]. cbn [fst snd]. repeat split; auto. congruence.
Qed.

Lemma step_ok (i : nat) (ts : list Task) (db : DB) :
  frame db0 db -> unique_index (attendances db) -> Forall (task_ok E S db0 db) ts ->
  preserved E S db0 ts db (fst (step i ts db)) (snd (step i ts db)).
Proof.
  unfold preserved. revert i.
  induction ts as [|t ts IH]; intros i Hf Hu Hall.
  - destruct i; cbn; repeat split; auto; try apply Hf; intros f Hex; exact Hex.
  - inversion Hall as [|t0 ts0 Ht Hts]; subst.
    destruct i as [|j]; cbn [step].
    + destruct (advance_ok t Hf Hu Ht) as (Hf' & Hu' & Hg & Ht' & Hcount).
      destruct (advance t db) as [t' db']. cbn [fst snd] in *.
      repeat split; try assumption; try apply Hf'.
      * constructor; [assumption|].
        eapply Forall_impl; [|exact Hts]. intros a. apply task_ok_grows, Hg.
      * rewrite !count_fresh_cons. lia.
    + destruct (IH j Hf Hu Hts) as (Hf' & Hu' & Hg & Hts' & Hlen & Hcount).
      destruct (step j ts db) as [ts' db']. cbn [fst snd] in *.
      repeat split; try assumption; try apply Hf'.
      * constructor; [eapply task_ok_grows; eassumption | assumption].
      * cbn [List.length]. congruence.
      * rewrite !count_fresh_cons. lia.
Qed.

Lemma run_ok (schedule : list nat) (ts : list Task) (db : DB) :
  frame db0 db -> unique_index (attendances db) -> Forall (task_ok E S db0 db) ts ->
  preserved E S db0 ts db (fst (run schedule ts db)) (snd (run schedule ts db)).
Proof.
  revert ts db. induction schedule as [|i later IH]; intros ts db Hf Hu Hall.
  - cbn. unfold preserved. repeat split; auto; try apply Hf.
    intros f Hex; exact Hex.
  - cbn [run].
    destruct (step_ok i Hf Hu Hall) as (Hf1 & Hu1 & Hg1 & Hall1 & Hlen1 & Hc1).
    destruct (step i ts db) as [ts1 db1]. cbn [fst snd] in *.
    destruct (IH ts1 db1 Hf1 Hu1 Hall1) as (Hf2 & Hu2 & Hg2 & Hall2 & Hlen2 & Hc2).
    unfold preserved. repeat split; try assumption; try apply Hf2.
    + intros f Hex. apply Hg2, Hg1, Hex.
    + congruence.
    + lia.
Qed.

Lemma responses_pending (subs : list Submission) :
  responses (map Pending subs) = [].
Proof. induction subs; cbn; auto. Qed.

Lemma responses_finished (ts : list Task) :
  forallb finished ts = true ->
  List.length (responses ts) = List.length ts.
Proof.
  induction ts as [|t ts IH]; cbn; [reflexivity|].
  destruct t; cbn; try discriminate. intros H. rewrite IH; auto.
Qed.

Lemma responses_ok (db : DB) (ts : list Task) :
  Forall (task_ok E S db0 db) ts ->
  Forall (fun r => fresh r = true \/ repeated r = true) (responses ts) /\
  (responses ts <> [] -> existsb (same_pair E S) (attendances db) = true).
Proof.
  induction 1 as [|t ts Ht Hts [IH1 IH2]]; cbn.
  - split; [constructor | congruence].
  - destruct t as [s | s rec m | r]; cbn in Ht; auto.
    destruct Ht as [Hr Hex]. split; [constructor; assumption | auto].
Qed.

End ExactlyOnce.

(** C1. On a store that satisfies the unique index on (meeting, user),
    whatever submissions run and however their turns interleave, the
    index still holds afterwards: no pair ever has two records.  When the
    submissions are valid proofs for one pair [(E, S)] -- including those
    that pass the duplicate pre-check together and then race to insert --
    and all have answered, exactly one record of the pair is stored,
    every submission has a success response, and all but the one that
    inserted the record carry [alreadyAttended: true]. *)
Theorem attendance_exactly_once {P : Platform} (db0 : DB) (E S : ObjectId)
  (subs : list Submission) (schedule : list nat) :
  unique_index (attendances db0) ->
  unique_index (attendances (snd (run schedule (map Pending subs) db0))) /\
  (Forall (valid_for db0 E S) subs ->
   subs <> [] ->
   forallb finished (fst (run schedule (map Pending subs) db0)) = true ->
   let rs := responses (fst (run schedule (map Pending subs) db0)) in
   count_pair E S (attendances (snd (run schedule (map Pending subs) db0))) = 1%nat /\
   List.length rs = List.length subs /\
   Forall (fun r => fresh r = true \/ repeated r = true) rs /\
   (count_fresh rs + count_pair E S (attendances db0) = 1)%nat).
Proof.
  intros Hu. split; [apply run_unique; exact Hu|].
  intros Hvalid Hne Hfin rs.
  assert (Hall : Forall (task_ok E S db0 db0) (map Pending subs)).
  { apply Forall_map. eapply Forall_impl; [|exact Hvalid]. intros s Hs. exact Hs. }
  destruct (run_ok schedule (conj eq_refl eq_refl) Hu Hall)
    as (Hf & Hu' & Hg & Hall' & Hlen & Hcount).
  rewrite responses_pending in Hcount. cbn in Hcount.
  destruct (responses_ok Hall') as [Hrs Hex].
  fold rs in Hrs, Hex, Hcount.
  assert (Hlen' : List.length rs = List.length subs).
  { unfold rs. rewrite (responses_finished _ Hfin), Hlen. apply length_map. }
  assert (Hone : count_pair E S
                   (attendances (snd (run schedule (map Pending subs) db0))) = 1%nat).
  { assert (Hrs_ne : rs <> []).
    { intros Heq. rewrite Heq in Hlen'. destruct subs; [congruence | discriminate]. }
    generalize (count_pair_present _ _ _ (Hex Hrs_ne)).
    generalize (count_pair_unique E S Hu'). lia. }
  repeat split; try assumption. unfold count_fresh in *. lia.
Qed.

(** Two scans of the same code by the same member, both past the
    pre-check before either inserts. *)
Lemma attendance_exactly_once_witness :
  let subs := [ViaQR (Sample.at_ 1200000 "alice") (Sample.scan "qr:m1:tokA" None);
               ViaQR (Sample.at_ 1200001 "alice") (Sample.scan "qr:m1:tokA" None)] in
  let final := run (P := Sample.runtime) [0; 1; 0; 1]%nat (map Pending subs) Sample.db0 in
  fst final = [Done (Success 201 false (MeetingData "m1"));
               Done (Success 200 true NoData)] /\
  count_pair "m1" "u1" (attendances (snd final)) = 1%nat.
Proof.
  intros subs final. split; [reflexivity|].
  refine (proj1 (proj2 (@attendance_exactly_once Sample.runtime Sample.db0 "m1" "u1"
                          subs [0; 1; 0; 1]%nat _) _ _ _)).
  - constructor.
  - repeat constructor; cbn; eexists; eexists;
      (split; [reflexivity | split; reflexivity]).
  - discriminate.
  - reflexivity.
Defined.

(** ** The time window *)

Lemma find_map_invariant {A : Type} (p : A -> bool) (g : A -> A) (l : list A) :
  (forall a, p (g a) = p a) ->
  find p (map g l) = option_map g (find p l).
Proof.
  intros Hp. induction l as [|a l IH]; cbn; [reflexivity|].
  rewrite Hp. destruct (p a); [reflexivity | exact IH].
Qed.

Lemma endTime_positive_duration (m : Meeting) :
  0 < duration m -> endTime m = dateTime m + duration m * 60000.
Proof.
  intros Hd. unfold endTime.
  destruct (duration m =? 0) eqn:Hz; [apply Z.eqb_eq in Hz; lia | reflexivity].
Qed.

Section Window.

Context {P : Platform}.

Lemma handle_recache (f : Meeting -> bool) (s : Submission) (db : DB) :
  fst (handle s (recache f db)) = fst (handle s db) /\
  attendances (snd (handle s (recache f db))) = attendances (snd (handle s db)).
Proof.
  destruct s as [e b | e q]; cbn [handle].
  - unfold scanQRAttendance, scanQR_decide, bind, Meeting_findById_cast,
      Meeting_findById.
    cbn [meetings recache].
    destruct (body_qrData b) as [raw|]; [|split; reflexivity].
    destruct (String.eqb raw ""); [split; reflexivity|].
    destruct (JSON_parse raw) as [parsed|]; [|split; reflexivity].
    destruct (get_prop "meetingId" parsed) as [ex|meetingId]; [split; reflexivity|].
    destruct (get_prop "token" parsed) as [ex|token]; [split; reflexivity|].
    destruct (negb (truthy meetingId) || negb (truthy token)); [split; reflexivity|].
    destruct meetingId as [j|]; [|split; reflexivity].
    destruct (castObjectId j) as [id|]; [|split; reflexivity].
    rewrite find_map_invariant by reflexivity.
    destruct (find _ (meetings db)) as [m|]; [|split; reflexivity].
    cbn [option_map].
    change (meetingQrParsed (set_isActive (f m) m)) with (meetingQrParsed m).
    destruct (get_prop "token" (meetingQrParsed m)) as [ex|stored];
      [split; reflexivity|].
    destruct (negb (strict_eq stored token)); [split; reflexivity|].
    change (type (set_isActive (f m) m)) with (type m).
    destruct (type m); [|split; reflexivity].
    change (dateTime (set_isActive (f m) m)) with (dateTime m).
    change (endTime (set_isActive (f m) m)) with (endTime m).
    destruct (now e <? dateTime m); [split; reflexivity|].
    destruct (endTime m <=? now e); [split; reflexivity|].
    change (User_findByUid (uid e) (recache f db)) with (User_findByUid (uid e) db).
    destruct (User_findByUid (uid e) db) as [u|]; [|split; reflexivity].
    change (participation (set_isActive (f m) m)) with (participation m).
    change (isAllowed (set_isActive (f m) m)) with (isAllowed m).
    change (geofence (set_isActive (f m) m)) with (geofence m).
    change (_id (set_isActive (f m) m)) with (_id m).
    change (Attendance_findOne (_id m) (user_id u) (recache f db))
      with (Attendance_findOne (_id m) (user_id u) db).
    destruct (participation m), (isAllowed m (user_id u));
      try (split; reflexivity);
      destruct (geofence m (body_lat b) (body_lng b));
      try (split; reflexivity);
      destruct (Attendance_findOne (_id m) (user_id u) db);
      try (split; reflexivity);
      unfold scanQR_commit, Attendance_create;
      destruct (insert_fault e); try (split; reflexivity);
      cbn [attendances recache meeting user];
      destruct (existsb _ (attendances db)); split; reflexivity.
  - unfold markAttendance, mark_decide, Meeting_findByToken.
    cbn [meetings recache].
    destruct (String.eqb (param_token q) "" || String.eqb (String_trim (param_token q)) "");
      [split; reflexivity|].
    rewrite find_map_invariant by reflexivity.
    destruct (find _ (meetings db)) as [m|] eqn:Hfind; [|split; reflexivity].
    cbn [option_map].
    change (type (set_isActive (f m) m)) with (type m).
    destruct (type m); [split; reflexivity|].
    change (dateTime (set_isActive (f m) m)) with (dateTime m).
    change (endTime (set_isActive (f m) m)) with (endTime m).
    destruct (now e <? dateTime m); [split; reflexivity|].
    destruct (endTime m <=? now e); [split; reflexivity|].
    change (User_findByUid (uid e) (recache f db)) with (User_findByUid (uid e) db).
    destruct (User_findByUid (uid e) db) as [u|]; [|split; reflexivity].
    change (participation (set_isActive (f m) m)) with (participation m).
    change (isAllowed (set_isActive (f m) m)) with (isAllowed m).
    change (_id (set_isActive (f m) m)) with (_id m).
    change (meetingLink (set_isActive (f m) m)) with (meetingLink m).
    change (Attendance_findOne (_id m) (user_id u) (recache f db))
      with (Attendance_findOne (_id m) (user_id u) db).
    destruct (participation m), (isAllowed m (user_id u));
      try (split; reflexivity);
      destruct (Attendance_findOne (_id m) (user_id u) db);
      try (split; reflexivity);
      unfold mark_commit, Attendance_create;
      destruct (insert_fault e); try (split; reflexivity);
      cbn [attendances recache meeting user];
      (destruct (existsb _ (attendances db)); [|split; reflexivity]);
      unfold mark_catch, Meeting_findByToken; cbn [meetings recache];
      rewrite find_map_invariant by reflexivity; rewrite Hfind;
      split; reflexivity.
Qed.

(** Past its earlier checks, a handler is at the comparison of the clock
    with the schedule. *)
Lemma handle_at_window (s : Submission) (db : DB) (m : Meeting) :
  reaches_window s db m ->
  ((now (env_of s) <? dateTime m) = true ->
   exists msg, fst (handle s db) = Failure 400 TooEarly msg) /\
  ((now (env_of s) <? dateTime m) = false ->
   (endTime m <=? now (env_of s)) = true ->
   exists msg, fst (handle s db) = Failure 400 MeetingEnded msg) /\
  ((now (env_of s) <? dateTime m) = false ->
   (endTime m <=? now (env_of s)) = false ->
   error_of (fst (handle s db)) <> Some TooEarly /\
   error_of (fst (handle s db)) <> Some MeetingEnded).
Proof.
  destruct s as [e b | e q]; cbn [reaches_window handle env_of].
  - intros (token & stored & (raw & parsed & meetingId & Hraw & Hne & Hparse &
            Hid & Htok & Htid & Httok & Hfind) & Hstored & Heq & Htype).
    apply String.eqb_neq in Hne. unfold storedToken in Hstored.
    unfold scanQRAttendance, scanQR_decide, bind.
    rewrite Hraw, Hne, Hparse, Hid, Htok, Htid, Httok, Hfind, Hstored, Heq, Htype.
    cbn [negb orb].
    split; [|split].
    + intros ->. eexists. reflexivity.
    + intros -> ->. eexists. reflexivity.
    + intros -> ->. unfold scanQR_commit, Attendance_create.
      split;
        walk_goal; cbn; try discriminate;
        match goal with
        | G : geofence _ _ _ = Some _ |- _ =>
            destruct (geofence_refusal _ _ _ G) as [msg [-> | ->]]; discriminate
        end.
  - intros (Hne & Htrim & Hfind & Htype).
    apply String.eqb_neq in Hne, Htrim.
    unfold markAttendance, mark_decide.
    rewrite Hne, Htrim, Hfind, Htype. cbn [orb].
    split; [|split].
    + intros ->. eexists. reflexivity.
    + intros -> ->. eexists. reflexivity.
    + intros -> ->. unfold mark_commit, Attendance_create.
      split;
        walk_goal; cbn; discriminate.
Qed.

End Window.

(** C2. For a submission that has passed the payload, event-resolution,
    channel and freshness checks against a meeting with start [t0] and a
    duration of [d] minutes, at clock reading [now]: before [t0] the
    answer is [TooEarly]; from [t0 + d] on it is [MeetingEnded]; in
    between, the answer is neither, so the time check passes.  The
    cached [isActive] flags have no part in it: the response and the
    record written are the same whatever the flags are. *)
Theorem temporal_window {P : Platform} (s : Submission) (db : DB) (m : Meeting) :
  reaches_window s db m ->
  0 < duration m ->
  let t0 := dateTime m in
  let d := duration m * 60000 in
  let t := now (env_of s) in
  (t < t0 -> exists msg, fst (handle s db) = Failure 400 TooEarly msg) /\
  (t0 + d <= t -> exists msg, fst (handle s db) = Failure 400 MeetingEnded msg) /\
  (t0 <= t < t0 + d ->
   error_of (fst (handle s db)) <> Some TooEarly /\
   error_of (fst (handle s db)) <> Some MeetingEnded) /\
  (forall f,
     fst (handle s (recache f db)) = fst (handle s db) /\
     attendances (snd (handle s (recache f db))) = attendances (snd (handle s db))).
Proof.
  intros Hreach Hd t0 d t.
  destruct (handle_at_window s db m Hreach) as (Hearly & Hended & Hin).
  rewrite (endTime_positive_duration m Hd) in Hended, Hin.
  fold t0 d t in Hearly, Hended, Hin.
  assert (0 < d) by (unfold d; lia).
  split; [|split; [|split]].
  - intros Hlt. apply Hearly. apply Z.ltb_lt. exact Hlt.
  - intros Hle. apply Hended; [apply Z.ltb_ge | apply Z.leb_le]; lia.
  - intros Hin'. apply Hin; [apply Z.ltb_ge | apply Z.leb_gt]; lia.
  - intros f. apply handle_recache.
Qed.

Lemma temporal_window_witness :
  let s := ViaQR (Sample.at_ 1200000 "alice") (Sample.scan "qr:m1:tokA" None) in
  error_of (fst (handle (P := Sample.runtime) s Sample.db0)) <> Some TooEarly /\
  error_of (fst (handle (P := Sample.runtime) s Sample.db0)) <> Some MeetingEnded.
Proof.
  intros s.
  refine (proj1 (proj2 (proj2
            (@temporal_window Sample.runtime s Sample.db0 Sample.standup _ _))) _).
  - exists (Some (JString "tokA")), (Some (JString "tokA")).
    split; [|repeat split].
    exists "qr:m1:tokA",
      (JObject [("meetingId", JString "m1"); ("token", JString "tokA")]),
      (Some (JString "m1")).
    repeat split. discriminate.
  - reflexivity.
  - cbn. lia.
Defined.

(** ** Token freshness *)

Lemma find_update_first_same (id : ObjectId) (f : Meeting -> Meeting)
  (ms : list Meeting) :
  (forall d, _id (f d) = _id d) ->
  find (fun m => String.eqb (_id m) id) (update_first id f ms) =
  option_map f (find (fun m => String.eqb (_id m) id) ms).
Proof.
  intros Hid. induction ms as [|m ms IH]; cbn; [reflexivity|].
  destruct (String.eqb (_id m) id) eqn:Hm; cbn.
  - rewrite Hid, Hm. reflexivity.
  - rewrite Hm. exact IH.
Qed.

Lemma find_update_first_other (id id' : ObjectId) (f : Meeting -> Meeting)
  (ms : list Meeting) :
  (forall d, _id (f d) = _id d) ->
  id <> id' ->
  find (fun m => String.eqb (_id m) id) (update_first id' f ms) =
  find (fun m => String.eqb (_id m) id) ms.
Proof.
  intros Hid Hne. induction ms as [|m ms IH]; cbn; [reflexivity|].
  destruct (String.eqb (_id m) id') eqn:Hm'; cbn.
  - rewrite Hid. apply String.eqb_eq in Hm'.
    destruct (String.eqb (_id m) id) eqn:Hm; [|reflexivity].
    apply String.eqb_eq in Hm. congruence.
  - destruct (String.eqb (_id m) id); [reflexivity | exact IH].
Qed.

Section Rotation.

Context {P : Platform}.

Lemma refresh_one_find (t : Z) (o : Oracle) (id id' : ObjectId) (db : DB) :
  Meeting_findById id (refresh_one t o id' db) =
  if String.eqb id id' && negb (rejects o id')
  then option_map (rotated t o id) (Meeting_findById id db)
  else Meeting_findById id db.
Proof.
  unfold refresh_one, Meeting_findById.
  destruct (rejects o id'); [rewrite andb_false_r; reflexivity|].
  rewrite andb_true_r. cbn [meetings Meeting_findByIdAndUpdate].
  destruct (String.eqb id id') eqn:Heq.
  - apply String.eqb_eq in Heq. subst id'.
    apply find_update_first_same. reflexivity.
  - apply String.eqb_neq in Heq.
    apply find_update_first_other; [reflexivity | assumption].
Qed.

Lemma refresh_fold_find (t : Z) (o : Oracle) (id : ObjectId) (ids : list ObjectId) :
  rejects o id = false ->
  forall (db : DB) (d : Meeting),
    Meeting_findById id db = Some d \/ Meeting_findById id db = Some (rotated t o id d) ->
    let db' := fold_left (fun db id' => refresh_one t o id' db) ids db in
    (In id ids -> Meeting_findById id db' = Some (rotated t o id d)) /\
    (Meeting_findById id db' = Some d \/
     Meeting_findById id db' = Some (rotated t o id d)).
Proof.
  intros Hrej. induction ids as [|id' ids IH]; intros db d Hd; cbn [fold_left].
  - split; [intros [] | exact Hd].
  - assert (Hstep : (String.eqb id id' = true /\
                     Meeting_findById id (refresh_one t o id' db) =
                     Some (rotated t o id d)) \/
                    (String.eqb id id' = false /\
                     (Meeting_findById id (refresh_one t o id' db) = Some d \/
                      Meeting_findById id (refresh_one t o id' db) =
                      Some (rotated t o id d)))).
    { rewrite refresh_one_find.
      destruct (String.eqb id id') eqn:Heq; [left | right]; split; auto.
      apply String.eqb_eq in Heq. subst id'. rewrite Hrej. cbn.
      destruct Hd as [-> | ->]; reflexivity. }
    destruct Hstep as [[Heq Hf] | [Heq Hf]].
    + destruct (IH (refresh_one t o id' db) d (or_intror Hf)) as [_ [Hsame | Hrot]].
      * split; [intros _|]; auto.
        (* already rotated: a later turn leaves it rotated *)
        destruct (IH (refresh_one t o id' db) (rotated t o id d) (or_introl Hf))
          as [_ [H1 | H1]]; [exact H1 | exact H1].
      * split; auto.
    + destruct (IH (refresh_one t o id' db) d Hf) as [Hin Hor].
      split; [|exact Hor].
      intros [Hhead | Htail]; [|auto].
      subst id'. rewrite String.eqb_refl in Heq. discriminate.
Qed.

End Rotation.

(** C3. For a QR submission whose payload decodes to a meeting id and a
    token and resolves to an existing meeting, the validator compares the
    submitted token with the token in the meeting's stored payload by
    strict equality: on any inequality it answers [ExpiredQR], and on
    equality it never does.  In particular, once a rotation tick has
    replaced the meeting's token by a different one, the submission is
    refused with [ExpiredQR], whatever time has passed since the tick. *)
Theorem token_freshness {P : Platform} (e : Env) (b : ScanBody) (db : DB)
  (token : JSValue) (m : Meeting) :
  decodes_to b db token m ->
  (forall stored,
      storedToken m = inr stored ->
      (strict_eq stored token = false -> scanQRAttendance e b db = (expired, db)) /\
      (strict_eq stored token = true ->
       error_of (fst (scanQRAttendance e b db)) <> Some ExpiredQR)) /\
  (forall t o last props,
      negb (String.eqb (qrCode m) "") && negb (qrPaused m) = true ->
      rejects o (_id m) = false ->
      JSON_parse (JSON_stringify_qr (_id m) (randomHex o (_id m)) t) =
        Some (JObject props) ->
      assoc "token" props = Some (JString (randomHex o (_id m))) ->
      strict_eq (Some (JString (randomHex o (_id m)))) token = false ->
      fst (scanQRAttendance e b
             (store (refreshQRCodes t o {| store := db; lastRefreshedAt := last |})))
      = expired).
Proof.
  intros (raw & parsed & meetingId & Hraw & Hne & Hparse & Hid & Htok & Htid &
          Httok & Hfind).
  apply String.eqb_neq in Hne.
  split.
  - intros stored Hstored. unfold storedToken in Hstored.
    unfold scanQRAttendance, scanQR_decide, bind.
    rewrite Hraw, Hne, Hparse, Hid, Htok, Htid, Httok, Hfind, Hstored.
    cbn [negb orb]. split.
    + intros ->. reflexivity.
    + intros ->. cbn [negb]. unfold scanQR_commit, Attendance_create.
      walk_goal; cbn; try discriminate;
        match goal with
        | G : geofence _ _ _ = Some _ |- _ =>
            destruct (geofence_refusal _ _ _ G) as [msg [-> | ->]]; discriminate
        end.
  - intros t o last props Hsel Hrej Hlaw Hprop Hdiff.
    unfold Meeting_findById_cast in Hfind.
    destruct meetingId as [j|]; [|discriminate].
    destruct (castObjectId j) as [id|] eqn:Hcast; [|discriminate].
    injection Hfind as Hfind.
    assert (Hin : In m (meetings db) /\ String.eqb (_id m) id = true)
      by (apply find_some in Hfind; exact Hfind).
    destruct Hin as [Hin Hmid]. apply String.eqb_eq in Hmid.
    set (selected_ids :=
           map _id (filter (fun m => negb (String.eqb (qrCode m) "") && negb (qrPaused m))
                      (meetings db))).
    assert (Hsel_in : In id selected_ids).
    { subst id. apply in_map. apply filter_In. split; assumption. }
    rewrite Hmid in Hrej, Hlaw, Hprop, Hdiff.
    destruct (@refresh_fold_find P t o id selected_ids Hrej db m (or_introl Hfind))
      as [Hrot _].
    specialize (Hrot Hsel_in).
    unfold refreshQRCodes. cbn [store]. fold selected_ids.
    unfold scanQRAttendance, scanQR_decide, bind, Meeting_findById_cast.
    rewrite Hraw, Hne, Hparse, Hid, Htok, Htid, Httok, Hcast, Hrot.
    cbn [negb orb].
    assert (Hstored : exists stored,
               get_prop "token" (meetingQrParsed (rotated t o id m)) = inr stored /\
               strict_eq stored token = false).
    { unfold meetingQrParsed, rotated. cbn [qrData set_qr].
      destruct (String.eqb (JSON_stringify_qr id (randomHex o id) t) "").
      - exists None. split; [reflexivity|].
        destruct token as [[ | | | | | ]|]; try reflexivity. discriminate.
      - rewrite Hlaw. exists (Some (JString (randomHex o id))).
        split; [cbn; rewrite Hprop; reflexivity | exact Hdiff]. }
    destruct Hstored as (stored & -> & ->). reflexivity.
Qed.

(** The code that was accepted at tick N is refused after tick N+1. *)
Lemma token_freshness_witness :
  let e := Sample.at_ 1200000 "alice" in
  let b := Sample.scan "qr:m1:tokA" None in
  let o := {| randomHex := fun _ => "tokB"; rejects := fun _ => false |} in
  fst (scanQRAttendance (P := Sample.runtime) e b Sample.db0)
  = Success 201 false (MeetingData "m1") /\
  fst (scanQRAttendance (P := Sample.runtime) e b
         (store (refreshQRCodes (P := Sample.runtime) 1200000 o
                   {| store := Sample.db0; lastRefreshedAt := Some 1180000 |})))
  = expired.
Proof.
  intros e b o. split; [reflexivity|].
  refine (proj2 (@token_freshness Sample.runtime e b Sample.db0
                   (Some (JString "tokA")) Sample.standup _)
            1200000 o (Some 1180000)
            [("meetingId", JString "m1"); ("token", JString "tokB")] _ _ _ _ _);
    try reflexivity.
  exists "qr:m1:tokA",
    (JObject [("meetingId", JString "m1"); ("token", JString "tokA")]),
    (Some (JString "m1")).
  repeat split. discriminate.
Defined.

(** ** Geofencing *)

Lemma SFcompare_antisym (x y : spec_float) :
  SFcompare y x = option_map CompOpp (SFcompare x y).
Proof.
  destruct x as [sx | sx | | sx mx ex], y as [sy | sy | | sy my ey]; cbn;
    try destruct sx; try destruct sy; try reflexivity;
    rewrite (Z.compare_antisym ey ex);
    destruct (ey ?= ex); cbn; try reflexivity;
    rewrite (Pos.compare_cont_antisym mx my Eq); reflexivity.
Qed.

(** [d <= r] excludes [d > r], as it must for the boundary [d = r]. *)
Lemma float_leb_not_gt (d r : float) :
  (d <=? r)%float = true -> (r <? d)%float = false.
Proof.
  rewrite ltb_spec, leb_spec. unfold SFltb, SFleb.
  rewrite (SFcompare_antisym (Prim2SF d) (Prim2SF r)).
  destruct (SFcompare (Prim2SF d) (Prim2SF r)) as [[ | | ]|]; cbn; congruence.
Qed.

(** The distance computed inside [scanQRAttendance] is the haversine
    formula, from the fence centre to the submitted point, with the Earth
    radius of 6 371 000 m. *)
Lemma haversine_great_circle {P : Platform} (lat lng clat clng : float) :
  haversine lat lng clat clng = great_circle 6371000 clat clng lat lng.
Proof.
  unfold haversine, great_circle, hav, radians, toRad, R. cbv zeta.
  change (6371000 * 2)%float with (2 * 6371000)%float. reflexivity.
Qed.

(** C4. For a QR submission that reaches the geofencing block of a meeting
    whose fence is enabled: without a latitude or without a longitude
    the answer is [LocationRequired]; with both, the distance the
    validator computes is the great-circle distance of the haversine
    formula between the fence centre and the submitted point on a sphere
    of radius 6 371 000 m, and it answers [OutOfRange], the message
    carrying [Math.round] of that distance and the radius, exactly when
    [distance > radius]; a distance with [distance <= radius], the
    radius itself included, passes the geofence. *)
Theorem geofence_check {P : Platform} (e : Env) (b : ScanBody) (db : DB)
  (m : Meeting) (u : User) :
  reaches_geofence e b db m u ->
  enabled (geofencing m) = true ->
  let fence := geofencing m in
  let r := fst (scanQRAttendance e b db) in
  (body_lat b = None \/ body_lng b = None -> r = location_required) /\
  (forall la ln,
      body_lat b = Some la -> body_lng b = Some ln ->
      let distance := great_circle 6371000 (center_lat fence) (center_lng fence) la ln in
      geofence m (Some la) (Some ln) =
        (if (radius fence <? distance)%float
         then Some (Failure 400 OutOfRange
                      (OutsideGeofence (Math_round distance) (radius fence)))
         else None) /\
      ((radius fence <? distance)%float = true ->
       r = Failure 400 OutOfRange (OutsideGeofence (Math_round distance) (radius fence))) /\
      ((radius fence <? distance)%float = false ->
       error_of r <> Some OutOfRange /\ error_of r <> Some LocationRequired) /\
      ((distance <=? radius fence)%float = true ->
       (radius fence <? distance)%float = false)).
Proof.
  intros ((token & stored & (raw & parsed & meetingId & Hraw & Hne & Hparse &
           Hid & Htok & Htid & Httok & Hfind) & Hstored & Heq & Htype) &
          [Hstart Hend] & Huser & Hallowed) Hen fence r.
  apply String.eqb_neq in Hne. unfold storedToken in Hstored.
  apply Z.ltb_ge in Hstart. apply Z.leb_gt in Hend.
  assert (Hr : r = fst match geofence m (body_lat b) (body_lng b) with
                       | Some refusal => (refusal, db)
                       | None =>
                           match Attendance_findOne (_id m) (user_id u) db with
                           | Some _ => (Success 200 true (MeetingData (_id m)), db)
                           | None =>
                               scanQR_commit e
                                 {| meeting := _id m; user := user_id u; method := qr;
                                    markedAt := now e;
                                    location := capture (body_lat b) (body_lng b)
                                                  (body_accuracy b) |} m db
                           end
                       end).
  { unfold r, scanQRAttendance, scanQR_decide, bind.
    rewrite Hraw, Hne, Hparse, Hid, Htok, Htid, Httok, Hfind, Hstored, Heq, Htype,
      Hstart, Hend, Huser.
    cbn [negb orb].
    destruct (participation m) eqn:Hp;
      [|rewrite (Hallowed eq_refl)];
      destruct (geofence m (body_lat b) (body_lng b));
      try reflexivity;
      destruct (Attendance_findOne (_id m) (user_id u) db); reflexivity. }
  rewrite Hr. subst fence. unfold geofence. rewrite Hen.
  split.
  - intros [-> | ->]; [|destruct (body_lat b)]; reflexivity.
  - intros la ln -> ->. cbv zeta.
    rewrite (haversine_great_circle la ln (center_lat (geofencing m))
               (center_lng (geofencing m))).
    split; [|split; [|split]].
    + reflexivity.
    + intros ->. reflexivity.
    + intros ->. unfold scanQR_commit, Attendance_create.
      split; walk_goal; cbn; discriminate.
    + apply float_leb_not_gt.
Qed.

(** A listed participant scans the workshop's code 1/512 of a degree
    north of the fence centre, some 217 m away, and is turned back by the
    200 m fence; at half that offset, some 109 m away, the fence lets the
    scan through. *)
Lemma geofence_check_witness :
  let e := Sample.at_ 1200000 "alice" in
  let far := Sample.scan "qr:m3:tokC" (Some (17.501953125, 80.5)%float) in
  let near := Sample.scan "qr:m3:tokC" (Some (17.5009765625, 80.5)%float) in
  error_of (fst (scanQRAttendance (P := Sample.runtime) e far Sample.db0))
    = Some OutOfRange /\
  error_of (fst (scanQRAttendance (P := Sample.runtime) e near Sample.db0))
    <> Some OutOfRange.
Proof.
  intros e far near.
  assert (Hreach : forall position,
             reaches_geofence (P := Sample.runtime) e
               (Sample.scan "qr:m3:tokC" position) Sample.db0
               Sample.workshop Sample.alice).
  { intros position. split; [|split; [|split]].
    - exists (Some (JString "tokC")), (Some (JString "tokC")).
      split; [|repeat split].
      exists "qr:m3:tokC",
        (JObject [("meetingId", JString "m3"); ("token", JString "tokC")]),
        (Some (JString "m3")).
      repeat split. discriminate.
    - cbn. lia.
    - reflexivity.
    - reflexivity. }
  split.
  - exact (f_equal error_of
             (proj1 (proj2 (proj2 (@geofence_check Sample.runtime e far Sample.db0
                                     Sample.workshop Sample.alice
                                     (Hreach _) eq_refl)
                              17.501953125%float 80.5%float eq_refl eq_refl))
                    eq_refl)).
  - exact (proj1 (proj1 (proj2 (proj2 (proj2 (@geofence_check Sample.runtime e near
                                                 Sample.db0 Sample.workshop Sample.alice
                                                 (Hreach _) eq_refl)
                                          17.5009765625%float 80.5%float
                                          eq_refl eq_refl)))
                    eq_refl)).
Defined.

(** ** Channel match and its place among the checks *)

(** C5, as stated, fails: a QR submission that resolves to an online
    meeting is not always answered [BadRequest].  The webinar holds no QR
    payload, so the token comparison, which comes first, answers
    [ExpiredQR]. *)
Lemma channel_before_freshness_counterexample :
  ~ (forall (P : Platform) (s : Submission) (db : DB) (m : Meeting),
        mismatched s db m ->
        error_of (fst (handle s db)) = Some BadRequest).
Proof.
  intros H.
  specialize (H Sample.runtime
                (ViaQR (Sample.at_ 1200000 "alice") (Sample.scan "qr:m2:tokX" None))
                Sample.db0 Sample.webinar).
  assert (Hm : mismatched (P := Sample.runtime)
                 (ViaQR (Sample.at_ 1200000 "alice") (Sample.scan "qr:m2:tokX" None))
                 Sample.db0 Sample.webinar).
  { split; [|reflexivity].
    exists (Some (JString "tokX")).
    exists "qr:m2:tokX",
      (JObject [("meetingId", JString "m2"); ("token", JString "tokX")]),
      (Some (JString "m2")).
    repeat split. discriminate. }
  specialize (H Hm). discriminate H.
Qed.

(** C5, amended.  The checks run in the order of the code and stop at the
    first failure, and in the QR handler the token comparison comes
    before the type check.  A link submission that resolves to an
    offline meeting is answered [BadRequest].  A QR submission that
    resolves to an online meeting is answered [ExpiredQR] when its token
    differs from the one in the meeting's stored payload, and
    [BadRequest] only when the two are strictly equal.  Nothing is
    written either way. *)
Theorem channel_mismatch {P : Platform} (s : Submission) (db : DB) (m : Meeting) :
  mismatched s db m ->
  snd (handle s db) = db /\
  match s with
  | ViaLink _ _ => fst (handle s db) = wrong_channel_link
  | ViaQR _ b =>
      forall token stored,
        decodes_to b db token m ->
        storedToken m = inr stored ->
        fst (handle s db) =
        if strict_eq stored token then wrong_channel_qr else expired
  end.
Proof.
  destruct s as [e b | e q]; cbn [mismatched handle].
  - intros [(token & raw & parsed & meetingId & Hraw & Hne & Hparse & Hid & Htok &
             Htid & Httok & Hfind) Htype].
    apply String.eqb_neq in Hne.
    assert (Hh : scanQRAttendance e b db =
                 match storedToken m with
                 | inl ex => (scanQR_catch ex, db)
                 | inr stored =>
                     (if strict_eq stored token then wrong_channel_qr else expired, db)
                 end).
    { unfold scanQRAttendance, scanQR_decide, bind, storedToken.
      rewrite Hraw, Hne, Hparse, Hid, Htok, Htid, Httok, Hfind, Htype.
      cbn [negb orb].
      destruct (get_prop "token" (meetingQrParsed m)) as [ex | stored];
        [reflexivity|].
      destruct (strict_eq stored token); reflexivity. }
    rewrite Hh. split.
    + destruct (storedToken m) as [ex | stored]; reflexivity.
    + intros token' stored (raw' & parsed' & meetingId' & Hraw' & _ & Hparse' &
                            _ & Htok' & _) ->.
      assert (token' = token) by congruence.
      subst token'. reflexivity.
  - intros (Hne & Htrim & Hfind & Htype).
    apply String.eqb_neq in Hne, Htrim.
    unfold markAttendance, mark_decide.
    rewrite Hne, Htrim, Hfind, Htype. split; reflexivity.
Qed.

Lemma channel_mismatch_witness :
  handle (P := Sample.runtime)
    (ViaQR (Sample.at_ 1200000 "alice") (Sample.scan "qr:m2:tokX" None)) Sample.db0
  = (expired, Sample.db0).
Proof.
  assert (Hd : decodes_to (P := Sample.runtime) (Sample.scan "qr:m2:tokX" None)
                 Sample.db0 (Some (JString "tokX")) Sample.webinar).
  { exists "qr:m2:tokX",
      (JObject [("meetingId", JString "m2"); ("token", JString "tokX")]),
      (Some (JString "m2")).
    repeat split. discriminate. }
  destruct (@channel_mismatch Sample.runtime
              (ViaQR (Sample.at_ 1200000 "alice") (Sample.scan "qr:m2:tokX" None))
              Sample.db0 Sample.webinar
              (conj (ex_intro _ (Some (JString "tokX")) Hd) eq_refl))
    as [Hdb Hr].
  specialize (Hr (Some (JString "tokX")) None Hd eq_refl).
  apply injective_projections; [exact Hr | exact Hdb].
Defined.

(** ** The scheduler and elapsed windows *)

Lemma update_first_ids (id : ObjectId) (f : Meeting -> Meeting) (ms : list Meeting) :
  (forall d, _id (f d) = _id d) ->
  map _id (update_first id f ms) = map _id ms.
Proof.
  intros Hid. induction ms as [|m ms IH]; cbn; [reflexivity|].
  destruct (String.eqb (_id m) id); cbn; [rewrite Hid | rewrite IH]; reflexivity.
Qed.

Lemma update_first_keeps (id : ObjectId) (f : Meeting -> Meeting) (ms : list Meeting)
  (m : Meeting) :
  _id m <> id -> In m ms -> In m (update_first id f ms).
Proof.
  intros Hne. induction ms as [|x ms IH]; cbn; [auto|].
  intros [-> | Hin].
  - apply String.eqb_neq in Hne. rewrite Hne. left. reflexivity.
  - destruct (String.eqb (_id x) id); [right; exact Hin | right; auto].
Qed.

Lemma unique_id (ms : list Meeting) (a b : Meeting) :
  NoDup (map _id ms) -> In a ms -> In b ms -> _id a = _id b -> a = b.
Proof.
  induction ms as [|x ms IH]; cbn; [intros _ []|].
  intros Hnd Ha Hb Hid. inversion Hnd as [|y l Hnotin Hnd']; subst.
  destruct Ha as [-> | Ha], Hb as [-> | Hb]; auto.
  - exfalso. apply Hnotin. rewrite Hid. apply in_map. exact Hb.
  - exfalso. apply Hnotin. rewrite <- Hid. apply in_map. exact Ha.
Qed.

Section Scheduler.

Context {P : Platform}.

Lemma activation_id (t : Z) (o : Oracle) (m d : Meeting) :
  _id (activation t o m d) = _id d.
Proof.
  unfold activation. destruct (type m);
    [destruct (String.eqb (qrCode m) "") | destruct (String.eqb (attendanceToken m) "")];
    reflexivity.
Qed.

(** A loop of the tick leaves alone every document whose id is not the
    id of a selected meeting that it updates. *)
Lemma activate_loop_keeps (t : Z) (o : Oracle) (m : Meeting) (todo : list Meeting) :
  forall db,
    (forall x, In x todo -> (t <? endTime x) = true -> _id x <> _id m) ->
    In m (meetings db) ->
    In m (meetings (snd (activate_loop t o todo db))) /\
    map _id (meetings (snd (activate_loop t o todo db))) = map _id (meetings db).
Proof.
  induction todo as [|x todo IH]; intros db Hother Hin; cbn [activate_loop].
  - split; [exact Hin | reflexivity].
  - assert (Hrest : forall y, In y todo -> (t <? endTime y) = true -> _id y <> _id m)
      by (intros y Hy; apply Hother; right; exact Hy).
    destruct (t <? endTime x) eqn:Hx; [|apply IH; assumption].
    destruct (rejects o (_id x)); [split; [exact Hin | reflexivity]|].
    destruct (IH (Meeting_findByIdAndUpdate (_id x) (activation t o x) db) Hrest)
      as [Hin' Hids].
    { cbn [meetings Meeting_findByIdAndUpdate]. apply update_first_keeps; [|exact Hin].
      intros Heq. apply (Hother x (or_introl eq_refl) Hx). auto. }
    split; [exact Hin'|]. rewrite Hids. cbn [meetings Meeting_findByIdAndUpdate].
    apply update_first_ids. intros d. apply activation_id.
Qed.

Lemma deactivate_loop_keeps (t : Z) (o : Oracle) (m : Meeting) (todo : list Meeting) :
  forall db,
    (forall x, In x todo -> _id x <> _id m) ->
    In m (meetings db) ->
    In m (meetings (snd (deactivate_loop t o todo db))) /\
    map _id (meetings (snd (deactivate_loop t o todo db))) = map _id (meetings db).
Proof.
  induction todo as [|x todo IH]; intros db Hother Hin; cbn [deactivate_loop].
  - split; [exact Hin | reflexivity].
  - assert (Hrest : forall y, In y todo -> _id y <> _id m)
      by (intros y Hy; apply Hother; right; exact Hy).
    destruct (endTime x <=? t); [|apply IH; assumption].
    destruct (rejects o (_id x)); [split; [exact Hin | reflexivity]|].
    destruct (IH (Meeting_findByIdAndUpdate (_id x) deactivation db) Hrest)
      as [Hin' Hids].
    { cbn [meetings Meeting_findByIdAndUpdate]. apply update_first_keeps; [|exact Hin].
      intros Heq. apply (Hother x (or_introl eq_refl)). auto. }
    split; [exact Hin'|]. rewrite Hids. cbn [meetings Meeting_findByIdAndUpdate].
    apply update_first_ids. reflexivity.
Qed.

(** One tick at or after the end of a dormant meeting's window. *)
Lemma tick_keeps_dormant (t : Z) (o : Oracle) (db : DB) (m : Meeting) :
  NoDup (map _id (meetings db)) ->
  In m (meetings db) ->
  isActive m = false ->
  endTime m <= t ->
  In m (meetings (checkAndUpdateMeetings t o db)) /\
  map _id (meetings (checkAndUpdateMeetings t o db)) = map _id (meetings db).
Proof.
  intros Hnd Hin Hdormant Hend. unfold checkAndUpdateMeetings.
  set (todo := filter (fun m => negb (isActive m) && (dateTime m <=? t)) (meetings db)).
  destruct (activate_loop_keeps t o m todo db) as [Hin1 Hids1]; [|exact Hin|].
  { intros x Hx Hlive Heq.
    apply filter_In in Hx as [Hx _].
    assert (x = m) by (apply (unique_id (meetings db)); assumption).
    subst x. apply Z.ltb_lt in Hlive. lia. }
  destruct (activate_loop t o todo db) as [[ex|] db1]; cbn [snd] in *.
  - split; assumption.
  - destruct (deactivate_loop_keeps t o m (filter isActive (meetings db1)) db1)
      as [Hin2 Hids2]; [|exact Hin1|].
    { intros x Hx Heq.
      apply filter_In in Hx as [Hx Hactive].
      assert (x = m).
      { apply (unique_id (meetings db1)); try assumption. rewrite Hids1. exact Hnd. }
      subst x. congruence. }
    split; [exact Hin2 | congruence].
Qed.

(** A rejection in the first loop ends the tick where it stands: when the
    first meeting that is due rejects, nothing at all is updated. *)
Lemma first_rejection_ends_tick (t : Z) (o : Oracle) (db : DB) (m : Meeting)
  (others : list Meeting) :
  filter (fun m => negb (isActive m) && (dateTime m <=? t)) (meetings db)
  = m :: others ->
  t < endTime m ->
  rejects o (_id m) = true ->
  checkAndUpdateMeetings t o db = db.
Proof.
  intros Hsel Hlive Hrej. unfold checkAndUpdateMeetings.
  rewrite Hsel. cbn [activate_loop].
  apply Z.ltb_lt in Hlive. rewrite Hlive, Hrej. reflexivity.
Qed.

End Scheduler.

(** C6. A meeting that is still marked dormant when its whole window
    (start plus duration) has elapsed is left as it is, dormant and with
    every field unchanged, by a scheduler tick at that time and by every
    later tick: it is never activated in retrospect. *)
Theorem dormant_after_window {P : Platform} (db : DB) (m : Meeting)
  (ticks : list (Z * Oracle)) :
  NoDup (map _id (meetings db)) ->
  In m (meetings db) ->
  isActive m = false ->
  0 < duration m ->
  Forall (fun tick => dateTime m + duration m * 60000 <= fst tick) ticks ->
  In m (meetings (scheduler_ticks ticks db)) /\
  Meeting_findById (_id m) (scheduler_ticks ticks db) = Some m.
Proof.
  intros Hnd Hin Hdormant Hd Hticks.
  assert (Hgoal : In m (meetings (scheduler_ticks ticks db)) /\
                  NoDup (map _id (meetings (scheduler_ticks ticks db)))).
  { revert db Hnd Hin.
    induction Hticks as [|[t o] ticks Ht Hticks IH]; intros db Hnd Hin;
      cbn [scheduler_ticks]; [split; assumption|].
    cbn [fst] in Ht. rewrite <- (endTime_positive_duration m Hd) in Ht.
    destruct (@tick_keeps_dormant P t o db m Hnd Hin Hdormant Ht) as [Hin' Hids].
    apply IH; [rewrite Hids; exact Hnd | exact Hin']. }
  destruct Hgoal as [Hin' Hnd']. split; [exact Hin'|].
  unfold Meeting_findById.
  destruct (find (fun x => String.eqb (_id x) (_id m))
              (meetings (scheduler_ticks ticks db))) as [x|] eqn:Hfind.
  - apply find_some in Hfind as [Hx Hid]. apply String.eqb_eq in Hid.
    f_equal. apply (unique_id (meetings (scheduler_ticks ticks db))); assumption.
  - exfalso. apply (find_none _ _ Hfind) in Hin'.
    rewrite String.eqb_refl in Hin'. discriminate.
Qed.

Lemma dormant_after_window_witness :
  Meeting_findById "m4"
    (scheduler_ticks (P := Sample.runtime)
       [(4600000, Sample.oracle []); (6000000, Sample.oracle [])] Sample.upcoming)
  = Some Sample.missed.
Proof.
  refine (proj2 (@dormant_after_window Sample.runtime Sample.upcoming Sample.missed
                   [(4600000, Sample.oracle []); (6000000, Sample.oracle [])]
                   _ _ _ _ _)).
  - repeat constructor; cbn; intuition discriminate.
  - left. reflexivity.
  - reflexivity.
  - reflexivity.
  - repeat constructor; cbn; lia.
Defined.

(** ** Failures inside a tick *)

(** C7, at a failing input.  Two talks are due to go live at the tick.
    When the update of the first one rejects, the scheduler's single
    [try] ends the tick: the second talk, whose own update would have
    succeeded (as the same tick with no rejection shows), is left
    dormant.  The rotation service, whose callbacks each have their own
    [try], still rotates the code of a meeting when another one's
    refresh rejects. *)
Theorem scheduler_failure_ends_tick :
  let failing := Sample.oracle ["m5"] in
  let quiet := Sample.oracle [] in
  checkAndUpdateMeetings (P := Sample.runtime) 6000000 failing Sample.upcoming
  = Sample.upcoming /\
  option_map isActive
    (Meeting_findById "m6"
       (checkAndUpdateMeetings (P := Sample.runtime) 6000000 failing Sample.upcoming))
  = Some false /\
  option_map isActive
    (Meeting_findById "m6"
       (checkAndUpdateMeetings (P := Sample.runtime) 6000000 quiet Sample.upcoming))
  = Some true /\
  option_map qrData
    (Meeting_findById "m3"
       (store (refreshQRCodes (P := Sample.runtime) 6000000 (Sample.oracle ["m1"])
                 {| store := Sample.on_display; lastRefreshedAt := None |})))
  = Some "qr:m3:c0ffee".
Proof. repeat split. Qed.

(** In the rotation service a rejection stays with its meeting: every
    selected meeting whose own refresh does not reject gets its new code,
    whatever happens to the others, and the tick records its instant. *)
Theorem rotation_failures_isolated {P : Platform} (t : Z) (o : Oracle) (s : Server)
  (m : Meeting) :
  Meeting_findById (_id m) (store s) = Some m ->
  qrCode m <> "" ->
  qrPaused m = false ->
  rejects o (_id m) = false ->
  Meeting_findById (_id m) (store (refreshQRCodes t o s))
  = Some (rotated t o (_id m) m) /\
  lastRefreshedAt (refreshQRCodes t o s) = Some t.
Proof.
  intros Hfind Hcode Hpaused Hrej. split; [|reflexivity].
  unfold refreshQRCodes. cbn [store].
  apply (@refresh_fold_find P t o (_id m) _ Hrej (store s) m (or_introl Hfind)).
  apply in_map. apply filter_In. split.
  - apply find_some in Hfind. apply Hfind.
  - apply String.eqb_neq in Hcode. rewrite Hcode, Hpaused. reflexivity.
Qed.

Lemma rotation_failures_isolated_witness :
  option_map qrData
    (Meeting_findById "m1"
       (store (refreshQRCodes (P := Sample.runtime) 6000000 (Sample.oracle ["m3"])
                 {| store := Sample.on_display; lastRefreshedAt := None |})))
  = Some "qr:m1:c0ffee".
Proof.
  exact (f_equal (option_map qrData)
           (proj1 (@rotation_failures_isolated Sample.runtime 6000000
                     (Sample.oracle ["m3"])
                     {| store := Sample.on_display; lastRefreshedAt := None |}
                     Sample.standup eq_refl ltac:(discriminate) eq_refl eq_refl))).
Defined.

(** ** The pause toggle *)

Lemma update_first_split (id : ObjectId) (f : Meeting -> Meeting) (ms : list Meeting)
  (m : Meeting) :
  find (fun x => String.eqb (_id x) id) ms = Some m ->
  exists l1 l2,
    ms = (l1 ++ m :: l2)%list /\ update_first id f ms = (l1 ++ f m :: l2)%list.
Proof.
  induction ms as [|x ms IH]; cbn; [discriminate|].
  destruct (String.eqb (_id x) id).
  - intros [= ->]. exists [], ms. split; reflexivity.
  - intros Hfind. destruct (IH Hfind) as (l1 & l2 & -> & ->).
    exists (x :: l1), l2. split; reflexivity.
Qed.

(** C8, as stated, fails on the resume transition.  The workshop is
    paused and the last rotation was at 1 000 ms.  The toggle resumes it,
    and the shared instant afterwards is still the one of that rotation:
    it has not been reset, and a status query at 50 000 ms, or at any
    time from 21 000 ms on, reads a countdown of 0 and not a restarted
    one. *)
Lemma resume_resets_instant_counterexample :
  let s := {| store := Sample.db0; lastRefreshedAt := Some 1000 |} in
  let s' := snd (toggleQRPause (P := Sample.runtime) "m3" s) in
  option_map qrPaused (Meeting_findById "m3" (store s)) = Some true /\
  fst (toggleQRPause (P := Sample.runtime) "m3" s) = Toggled false /\
  option_map qrPaused (Meeting_findById "m3" (store s')) = Some false /\
  lastRefreshedAt s' = Some 1000 /\
  getSecondsUntilNextRefresh 50000 (lastRefreshedAt s') = 0.
Proof. repeat split. Qed.

(** C8, amended.  The pause toggle flips the paused flag of the meeting it
    names and nothing else: every other field of that meeting, every
    other meeting, the users, the attendance records and the shared
    last-rotated-at instant are as before, on pause and on resume alike.
    When the id names no meeting, nothing changes at all. *)
Theorem toggle_flips_paused_only {P : Platform} (id : string) (s : Server) :
  lastRefreshedAt (snd (toggleQRPause id s)) = lastRefreshedAt s /\
  users (store (snd (toggleQRPause id s))) = users (store s) /\
  attendances (store (snd (toggleQRPause id s))) = attendances (store s) /\
  match castObjectId (JString id) with
  | None => snd (toggleQRPause id s) = s
  | Some oid =>
      match Meeting_findById oid (store s) with
      | None => snd (toggleQRPause id s) = s
      | Some m =>
          fst (toggleQRPause id s) = Toggled (negb (qrPaused m)) /\
          exists before after m',
            meetings (store s) = (before ++ m :: after)%list /\
            meetings (store (snd (toggleQRPause id s))) = (before ++ m' :: after)%list /\
            qrPaused m' = negb (qrPaused m) /\
            same_but_qrPaused m m'
      end
  end.
Proof.
  unfold toggleQRPause.
  destruct (castObjectId (JString id)) as [oid|]; [|repeat split].
  destruct (Meeting_findById oid (store s)) as [m|] eqn:Hfind; [|repeat split].
  cbn [fst snd store lastRefreshedAt users attendances Meeting_findByIdAndUpdate].
  repeat split.
  destruct (update_first_split oid (set_qrPaused (negb (qrPaused m))) _ Hfind)
    as (l1 & l2 & H1 & H2).
  exists l1, l2, (set_qrPaused (negb (qrPaused m)) m).
  cbn [meetings]. repeat split; assumption.
Qed.

(** * Further properties *)

(** ** The handlers, stage by stage *)

Section Staged.

Context {P : Platform}.

(** Past the time window a handler is [after_window]. *)
Lemma handle_past_window (s : Submission) (db : DB) (m : Meeting) :
  reaches_window s db m ->
  dateTime m <= now (env_of s) < endTime m ->
  handle s db = after_window s db m.
Proof.
  intros Hreach [Hstart Hend].
  apply Z.ltb_ge in Hstart. apply Z.leb_gt in Hend.
  destruct s as [e b | e q]; cbn [reaches_window handle env_of] in *.
  - destruct Hreach as (token & stored & (raw & parsed & meetingId & Hraw & Hne &
                        Hparse & Hid & Htok & Htid & Httok & Hfind) & Hstored & Heq &
                        Htype).
    apply String.eqb_neq in Hne. unfold storedToken in Hstored.
    unfold scanQRAttendance, scanQR_decide, bind, after_window, eligible.
    rewrite Hraw, Hne, Hparse, Hid, Htok, Htid, Httok, Hfind, Hstored, Heq, Htype,
      Hstart, Hend.
    cbn [negb orb env_of geofence_of commit record_for repeat_reply].
    destruct (User_findByUid (uid e) db) as [u|]; [|reflexivity].
    destruct (participation m), (isAllowed m (user_id u)); try reflexivity;
      destruct (geofence m (body_lat b) (body_lng b)); try reflexivity;
      destruct (Attendance_findOne (_id m) (user_id u) db); reflexivity.
  - destruct Hreach as (Hne & Htrim & Hfind & Htype).
    apply String.eqb_neq in Hne, Htrim.
    unfold markAttendance, mark_decide, after_window, eligible.
    rewrite Hne, Htrim, Hfind, Htype, Hstart, Hend.
    cbn [negb orb env_of geofence_of commit record_for repeat_reply].
    destruct (User_findByUid (uid e) db) as [u|]; [|reflexivity].
    destruct (participation m), (isAllowed m (user_id u)); try reflexivity;
      destruct (Attendance_findOne (_id m) (user_id u) db); reflexivity.
Qed.

End Staged.

(** ** What a success response guarantees *)

Lemma get_prop_throws (k : string) (v : JSON) (ex : Exn) :
  get_prop k v = inl ex -> ex = TypeError.
Proof. destruct v; cbn; congruence. Qed.

Ltac refused :=
  cbv beta iota;
  first [ intros Hrefused; discriminate Hrefused
        | left; eapply get_prop_throws; eassumption ].

Section Soundness.

Context {P : Platform}.

(** Whatever a handler decides, short of a failure, it has checked
    everything: the record it is about to insert, or the repeat it
    answers, is for a submission that is admissible. *)
Lemma decide_sound (s : Submission) (db : DB) :
  match decide s db with
  | inl ex => ex = TypeError \/ ex = CastError
  | inr (Reply r) =>
      repeated r = true ->
      exists m u, admissible s db m u /\ r = repeat_reply s m /\
                  exists a, Attendance_findOne (_id m) (user_id u) db = Some a
  | inr (Insert rec m) =>
      exists u, admissible s db m u /\ rec = record_for s m u /\
                Attendance_findOne (_id m) (user_id u) db = None
  end.
Proof.
  destruct s as [e b | e q]; cbn [decide].
  - unfold scanQR_decide, bind.
    destruct (body_qrData b) as [raw|] eqn:Hraw; [|refused].
    destruct (String.eqb raw "") eqn:Hne; [refused|].
    destruct (JSON_parse raw) as [parsed|] eqn:Hparse; [|refused].
    destruct (get_prop "meetingId" parsed) as [ex|meetingId] eqn:Hid; [refused|].
    destruct (get_prop "token" parsed) as [ex|token] eqn:Htok; [refused|].
    destruct (negb (truthy meetingId) || negb (truthy token)) eqn:Htruthy; [refused|].
    destruct (Meeting_findById_cast meetingId db) as [ex|[m|]] eqn:Hfind;
      [ right; unfold Meeting_findById_cast in Hfind;
        destruct meetingId as [j|]; try destruct (castObjectId j); congruence
      | | refused ].
    destruct (get_prop "token" (meetingQrParsed m)) as [ex|stored] eqn:Hstored;
      [refused|].
    destruct (negb (strict_eq stored token)) eqn:Heq; [refused|].
    destruct (type m) eqn:Htype; [|refused].
    destruct (now e <? dateTime m) eqn:Hstart; [refused|].
    destruct (endTime m <=? now e) eqn:Hend; [refused|].
    destruct (User_findByUid (uid e) db) as [u|] eqn:Hu; [|refused].
    apply orb_false_elim in Htruthy as [Htid Httok].
    apply negb_false_iff in Htid, Httok, Heq.
    apply String.eqb_neq in Hne. apply Z.ltb_ge in Hstart. apply Z.leb_gt in Hend.
    assert (Hreach : reaches_window (ViaQR e b) db m).
    { exists token, stored. repeat split; try assumption.
      exists raw, parsed, meetingId. repeat split; assumption. }
    assert (Hadm : eligible m u = true ->
                   geofence m (body_lat b) (body_lng b) = None ->
                   admissible (ViaQR e b) db m u).
    { intros He Hg. repeat split; assumption. }
    cbv beta iota.
    destruct (participation m) eqn:Hp, (isAllowed m (user_id u)) eqn:Ha;
      try refused;
      (assert (He : eligible m u = true) by (unfold eligible; rewrite Hp; auto));
      (destruct (geofence m (body_lat b) (body_lng b)) as [refusal|] eqn:Hg;
       [ destruct (geofence_refusal _ _ _ Hg) as [msg [-> | ->]]; refused |]);
      (destruct (Attendance_findOne (_id m) (user_id u) db) as [a|] eqn:Hex;
       [ intros _; exists m, u; split; [auto|]; split; [reflexivity|];
         eexists; exact Hex
       | exists u; split; [auto|]; split; [reflexivity | exact Hex] ]).
  - unfold mark_decide.
    destruct (String.eqb (param_token q) "") eqn:Hne; [refused|].
    destruct (String.eqb (String_trim (param_token q)) "") eqn:Htrim; [refused|].
    cbn [orb].
    destruct (Meeting_findByToken (param_token q) db) as [m|] eqn:Hfind; [|refused].
    destruct (type m) eqn:Htype; [refused|].
    destruct (now e <? dateTime m) eqn:Hstart; [refused|].
    destruct (endTime m <=? now e) eqn:Hend; [refused|].
    destruct (User_findByUid (uid e) db) as [u|] eqn:Hu; [|refused].
    apply String.eqb_neq in Hne, Htrim.
    apply Z.ltb_ge in Hstart. apply Z.leb_gt in Hend.
    assert (Hadm : eligible m u = true -> admissible (ViaLink e q) db m u).
    { intros He. repeat split; assumption. }
    destruct (participation m) eqn:Hp, (isAllowed m (user_id u)) eqn:Ha;
      try refused;
      (assert (He : eligible m u = true) by (unfold eligible; rewrite Hp; auto));
      (destruct (Attendance_findOne (_id m) (user_id u) db) as [a|] eqn:Hex;
       [ intros _; exists m, u; split; [auto|]; split; [reflexivity|];
         eexists; exact Hex
       | exists u; split; [auto|]; split; [reflexivity | exact Hex] ]).
Qed.

End Soundness.

Section Outcomes.

Context {P : Platform}.

Lemma find_app_last {A : Type} (f : A -> bool) (l : list A) (x : A) :
  find f l = None -> f x = true -> find f (l ++ [x]) = Some x.
Proof.
  induction l as [|a l IH]; cbn; intros Hnone Hx.
  - rewrite Hx. reflexivity.
  - destruct (f a); [discriminate | auto].
Qed.

(** The three outcomes of a handler. *)
Lemma handle_cases (s : Submission) (db : DB) :
  (failure (fst (handle s db)) = true /\ snd (handle s db) = db) \/
  exists m u,
    admissible s db m u /\
    ((Attendance_findOne (_id m) (user_id u) db = None /\
      insert_fault (env_of s) = false /\
      handle s db =
      (fresh_reply s m, with_attendances (attendances db ++ [record_for s m u]) db)) \/
     ((exists a, Attendance_findOne (_id m) (user_id u) db = Some a) /\
      handle s db = (repeat_reply s m, db))).
Proof.
  assert (Hh : handle s db =
               match decide s db with
               | inl ex => (catch s db ex, db)
               | inr (Reply r) => (r, db)
               | inr (Insert rec m) => commit s rec m db
               end) by (destruct s; reflexivity).
  generalize (decide_sound s db). rewrite Hh. clear Hh.
  destruct (decide s db) as [ex | [r | rec m]] eqn:Hd.
  - intros [-> | ->]; left; destruct s; split; reflexivity.
  - intros Hsound. cbn [fst snd].
    destruct (failure r) eqn:Hf; [left; split; reflexivity|].
    right. generalize (decide_reply _ _ Hd). rewrite Hf. cbn [orb]. intros Hr.
    destruct (Hsound Hr) as (m & u & Hadm & -> & Hex).
    exists m, u. split; [exact Hadm|]. right. split; [exact Hex | reflexivity].
  - intros (u & Hadm & -> & Hnone).
    assert (Hdup : existsb (same_pair (_id m) (user_id u)) (attendances db) = false).
    { rewrite find_existsb. unfold Attendance_findOne in Hnone. rewrite Hnone.
      reflexivity. }
    assert (Hpair : meeting (record_for s m u) = _id m /\
                    user (record_for s m u) = user_id u)
      by (destruct s; split; reflexivity).
    destruct Hpair as [Hpm Hpu].
    destruct (insert_fault (env_of s)) eqn:Hfault.
    + left. destruct s as [e b | e q]; cbn [commit env_of] in *;
        [unfold scanQR_commit | unfold mark_commit]; unfold Attendance_create;
        rewrite Hfault; split; reflexivity.
    + right. exists m, u. split; [exact Hadm|]. left.
      split; [exact Hnone|]. split; [reflexivity|].
      destruct s as [e b | e q]; cbn [commit env_of] in *;
        [unfold scanQR_commit | unfold mark_commit]; unfold Attendance_create;
        rewrite Hfault; cbn [meeting user record_for]; rewrite Hdup; reflexivity.
Qed.

(** The checks read the meetings and the users only. *)
Lemma admissible_frame (s : Submission) (db db' : DB) (m : Meeting) (u : User) :
  meetings db' = meetings db -> users db' = users db ->
  admissible s db m u -> admissible s db' m u.
Proof.
  intros Hm Hu (Hreach & Hwin & Huser & Hel & Hgeo).
  repeat split; try assumption.
  - destruct s as [e b | e q]; cbn [reaches_window] in *.
    + destruct Hreach as (token & stored & (raw & parsed & meetingId & Hraw & Hne &
                          Hparse & Hid & Htok & Htid & Httok & Hfind) & Hrest).
      exists token, stored. split; [|exact Hrest].
      exists raw, parsed, meetingId. repeat split; try assumption.
      unfold Meeting_findById_cast, Meeting_findById in *. rewrite Hm. exact Hfind.
    + unfold Meeting_findByToken in *. rewrite Hm. exact Hreach.
  - apply Hwin.
  - apply Hwin.
  - unfold User_findByUid in *. rewrite Hu. exact Huser.
Qed.

End Outcomes.


(** A distance that is not a number passes the fence. *)
Lemma nan_distance_passes {P : Platform} (m : Meeting) (la ln : float) :
  PrimFloat.is_nan
    (great_circle 6371000 (center_lat (geofencing m)) (center_lng (geofencing m)) la ln)
  = true ->
  geofence m (Some la) (Some ln) = None.
Proof.
  intros Hnan. unfold geofence. rewrite haversine_great_circle.
  destruct (enabled (geofencing m)); [|reflexivity].
  replace (radius (geofencing m) <? _)%float with false; [reflexivity|].
  symmetry. rewrite FloatAxioms.ltb_spec. unfold SFltb.
  unfold PrimFloat.is_nan in Hnan. apply negb_true_iff in Hnan.
  rewrite FloatAxioms.eqb_spec in Hnan. unfold SFeqb in Hnan.
  destruct (Prim2SF (great_circle _ _ _ _ _)) as [sd | sd | | sd md ed].
  - destruct sd; discriminate.
  - destruct sd; discriminate.
  - destruct (Prim2SF (radius (geofencing m))) as [sr | sr | | sr mr er]; reflexivity.
  - cbn in Hnan. rewrite Z.compare_refl, Pos.compare_cont_refl in Hnan.
    destruct sd; discriminate.
Qed.

(** A latitude of 2^1023 overflows on its way to radians; the distance
    is not a number, and the listed participant is recorded at the fenced
    workshop from there. *)
Example position_overflow :
  fst (scanQRAttendance (P := Sample.runtime) (Sample.at_ 1200000 "alice")
         (Sample.scan "qr:m3:tokC" (Some (0x1p+1023, 80.5)%float)) Sample.db0)
  = Success 201 false (MeetingData "m3").
Proof. reflexivity. Qed.



(** ** The attendance page *)

(** X4. The attendance page predicts what joining will do, for the same
    caller, link, clock reading and store.  When the page is refused,
    joining fails too, with the same status and error except that a
    caller who is not on the list may be told the time first.  When the
    page shows the meeting as upcoming or ended, joining answers
    [TooEarly] or [MeetingEnded].  When it shows the meeting live, joining
    by a registered caller succeeds (short of a store fault) with the
    meeting link shown and the same [alreadyAttended], new (201) or
    repeated (200); a caller without an account sees the page but is
    refused on joining. *)
Theorem page_predicts_mark {P : Platform} (e : Env) (q : MarkRequest) (db : DB) :
  match getAttendancePage e (param_token q) db with
  | PageFailure st err _ =>
      failure (fst (markAttendance e q db)) = true /\
      (err <> Forbidden -> exists msg, fst (markAttendance e q db) = Failure st err msg)
  | PageData id meetingLink status already =>
      match status with
      | upcoming => error_of (fst (markAttendance e q db)) = Some TooEarly
      | ended => error_of (fst (markAttendance e q db)) = Some MeetingEnded
      | live =>
          match User_findByUid (uid e) db with
          | None => fst (markAttendance e q db) = user_missing
          | Some _ =>
              insert_fault e = false ->
              fst (markAttendance e q db)
              = Success (if already then 200 else 201) already (LinkData meetingLink)
          end
      end
  end.
Proof.
  unfold getAttendancePage, markAttendance, mark_decide.
  destruct (String.eqb (param_token q) "" || String.eqb (String_trim (param_token q)) "");
    [split; [reflexivity | intros _; eexists; reflexivity]|].
  destruct (Meeting_findByToken (param_token q) db) as [m|];
    [|split; [reflexivity | intros _; eexists; reflexivity]].
  destruct (type m);
    [split; [reflexivity | intros _; eexists; reflexivity]|].
  destruct (now e <? dateTime m) eqn:Hstart.
  { destruct (User_findByUid (uid e) db) as [u|]; [|reflexivity].
    destruct (participation m), (isAllowed m (user_id u)); try reflexivity.
    split; [reflexivity | congruence]. }
  destruct (endTime m <=? now e) eqn:Hend.
  { destruct (User_findByUid (uid e) db) as [u|]; [|reflexivity].
    destruct (participation m), (isAllowed m (user_id u)); try reflexivity.
    split; [reflexivity | congruence]. }
  destruct (User_findByUid (uid e) db) as [u|]; [|reflexivity].
  assert (Hcreate : forall a,
             Attendance_findOne (_id m) (user_id u) db = a ->
             insert_fault e = false ->
             fst match a with
                 | Some _ => (Success 200 true (LinkData (meetingLink m)), db)
                 | None =>
                     mark_commit e q
                       {| meeting := _id m; user := user_id u; method := link;
                          markedAt := now e;
                          location := capture (mark_lat q) (mark_lng q) (mark_accuracy q) |}
                       m db
                 end
             = Success (if match a with Some _ => true | None => false end
                        then 200 else 201)
                 match a with Some _ => true | None => false end
                 (LinkData (meetingLink m))).
  { intros [a|] Ha Hfault; [reflexivity|].
    unfold mark_commit, Attendance_create. rewrite Hfault. cbn [meeting user].
    rewrite find_existsb. unfold Attendance_findOne in Ha. rewrite Ha. reflexivity. }
  destruct (participation m), (isAllowed m (user_id u));
    try (split; [reflexivity | congruence]);
    intros Hfault;
    rewrite <- (Hcreate _ eq_refl Hfault);
    destruct (Attendance_findOne (_id m) (user_id u) db); reflexivity.
Qed.

(** ** The attendance list of a meeting *)

Lemma insert_by_perm {A : Type} (key : A -> Z) (x : A) (l : list A) :
  Permutation (insert_by key x l) (x :: l).
Proof.
  induction l as [|y l IH]; cbn; [reflexivity|].
  destruct (key x <=? key y); [reflexivity|].
  rewrite IH. apply perm_swap.
Qed.

Lemma sort_by_perm {A : Type} (key : A -> Z) (l : list A) :
  Permutation (sort_by key l) l.
Proof.
  induction l as [|x l IH]; cbn; [reflexivity|].
  rewrite insert_by_perm. constructor. exact IH.
Qed.

Lemma insert_by_sorted {A : Type} (key : A -> Z) (x : A) (l : list A) :
  Sorted (fun a b => key a <= key b) l ->
  Sorted (fun a b => key a <= key b) (insert_by key x l).
Proof.
  induction 1 as [|y l Hs IH Hhd]; cbn.
  - repeat constructor.
  - destruct (key x <=? key y) eqn:Hle.
    + apply Z.leb_le in Hle. repeat constructor; assumption.
    + apply Z.leb_gt in Hle. constructor; [exact IH|].
      destruct l as [|z l]; cbn.
      * constructor. lia.
      * destruct (key x <=? key z); constructor; [lia|].
        inversion Hhd; assumption.
Qed.

Lemma sort_by_sorted {A : Type} (key : A -> Z) (l : list A) :
  Sorted (fun a b => key a <= key b) (sort_by key l).
Proof.
  induction l as [|x l IH]; cbn; [constructor|].
  apply insert_by_sorted. exact IH.
Qed.

Lemma unique_index_users (id : ObjectId) (atts : list Attendance) :
  unique_index atts ->
  NoDup (map user (filter (fun a => String.eqb (meeting a) id) atts)).
Proof.
  unfold unique_index. induction atts as [|a atts IH]; cbn; [constructor|].
  intros Hnd. inversion Hnd as [|x l Hnotin Hnd']; subst.
  destruct (String.eqb (meeting a) id) eqn:Ha; [|auto].
  cbn. constructor; [|auto].
  intros Hin. apply Hnotin.
  apply in_map_iff in Hin as (b & Hu & Hb).
  apply filter_In in Hb as [Hb Hmb].
  apply String.eqb_eq in Ha, Hmb.
  apply in_map_iff. exists b. split; [|exact Hb].
  unfold pair_of. congruence.
Qed.

(** X5. The attendance list of a meeting holds exactly the stored records
    of that meeting, in the order of their [markedAt], with [total] their
    number; on a store that satisfies the unique index no member appears
    in it twice.  An id that does not cast is a 400. *)
Theorem attendance_list {P : Platform} (meetingId : string) (db : DB) :
  match castObjectId (JString meetingId) with
  | None =>
      getMeetingAttendance meetingId db
      = ListFailure 400 BadRequest (Text "Invalid meeting ID format.")
  | Some id =>
      exists data,
        getMeetingAttendance meetingId db = Records data (Z.of_nat (List.length data)) /\
        (forall a, In a data <-> In a (attendances db) /\ meeting a = id) /\
        Sorted (fun a b => markedAt a <= markedAt b) data /\
        (unique_index (attendances db) -> NoDup (map user data))
  end.
Proof.
  unfold getMeetingAttendance.
  destruct (castObjectId (JString meetingId)) as [id|]; [|reflexivity].
  set (mine := filter (fun a => String.eqb (meeting a) id) (attendances db)).
  exists (sort_by markedAt mine). split; [reflexivity|].
  assert (Hperm : Permutation (sort_by markedAt mine) mine) by apply sort_by_perm.
  split; [|split].
  - intros a. split.
    + intros Hin. apply (Permutation_in _ Hperm) in Hin.
      apply filter_In in Hin as [Hin Heq]. apply String.eqb_eq in Heq. auto.
    + intros [Hin Heq]. apply (Permutation_in _ (Permutation_sym Hperm)).
      apply filter_In. split; [exact Hin | apply String.eqb_eq; exact Heq].
  - apply sort_by_sorted.
  - intros Hu.
    apply (Permutation_NoDup (Permutation_map user (Permutation_sym Hperm))).
    apply unique_index_users. exact Hu.
Qed.

(** ** The scheduler, document by document *)

Lemma update_first_map (id : ObjectId) (f : Meeting -> Meeting) (ms : list Meeting) :
  NoDup (map _id ms) ->
  update_first id f ms = map (fun d => if String.eqb (_id d) id then f d else d) ms.
Proof.
  induction ms as [|m ms IH]; cbn; [reflexivity|].
  intros Hnd. inversion Hnd as [|x l Hnotin Hnd']; subst.
  destruct (String.eqb (_id m) id) eqn:Hm.
  - f_equal. apply String.eqb_eq in Hm. subst id.
    rewrite <- (map_id ms) at 1. apply map_ext_in.
    intros d Hd. destruct (String.eqb (_id d) (_id m)) eqn:Hd'; [|reflexivity].
    apply String.eqb_eq in Hd'. exfalso. apply Hnotin. rewrite <- Hd'.
    apply in_map. exact Hd.
  - f_equal. apply IH. exact Hnd'.
Qed.

Lemma update_first_proj {B : Type} (pr : Meeting -> B) (id : ObjectId)
  (f : Meeting -> Meeting) (ms : list Meeting) :
  (forall d, pr (f d) = pr d) ->
  map pr (update_first id f ms) = map pr ms.
Proof.
  intros Hpr. induction ms as [|m ms IH]; cbn; [reflexivity|].
  destruct (String.eqb (_id m) id); cbn; [rewrite Hpr | rewrite IH]; reflexivity.
Qed.

Lemma map_ids_preserved (g : Meeting -> Meeting) (ms : list Meeting) :
  (forall d, _id (g d) = _id d) -> map _id (map g ms) = map _id ms.
Proof. intros Hg. rewrite map_map. apply map_ext. exact Hg. Qed.

Lemma NoDup_ids_filter (sel : Meeting -> bool) (ms : list Meeting) :
  NoDup (map _id ms) -> NoDup (map _id (filter sel ms)).
Proof.
  induction ms as [|m ms IH]; cbn; [auto|].
  intros Hnd. inversion Hnd as [|x l Hnotin Hnd']; subst.
  destruct (sel m); cbn; [|auto].
  constructor; [|auto].
  intros Hin. apply Hnotin. apply in_map_iff in Hin as (d & Hd & Hin).
  apply filter_In in Hin as [Hin _]. rewrite <- Hd. apply in_map. exact Hin.
Qed.

Lemma selected_by_id (sel : Meeting -> bool) (ms : list Meeting) (d : Meeting) :
  NoDup (map _id ms) -> In d ms ->
  existsb (fun x => String.eqb (_id x) (_id d)) (filter sel ms) = sel d.
Proof.
  intros Hnd Hin. destruct (sel d) eqn:Hsel.
  - apply existsb_exists. exists d.
    split; [apply filter_In; auto | apply String.eqb_refl].
  - destruct (existsb _ _) eqn:Hex; [|reflexivity].
    apply existsb_exists in Hex as (x & Hx & Hid).
    apply filter_In in Hx as [Hx Hselx]. apply String.eqb_eq in Hid.
    assert (x = d) by (apply (unique_id ms); assumption).
    congruence.
Qed.

Lemma sweep_clean (cond : Meeting -> bool) (F : Meeting -> Meeting -> Meeting)
  (o : Oracle) (todo : list Meeting) :
  clean o ->
  (forall x d, _id (F x d) = _id d) ->
  forall db,
    NoDup (map _id (meetings db)) ->
    sweep cond F o todo db =
    (None, {| meetings := map (swept cond F todo) (meetings db);
              users := users db;
              attendances := attendances db |}).
Proof.
  intros Hclean HF. induction todo as [|x todo IH]; intros db Hnd; cbn [sweep swept fold_left].
  - rewrite map_id. destruct db; reflexivity.
  - destruct (cond x) eqn:Hc.
    + rewrite Hclean. rewrite IH.
      * cbn [meetings users attendances Meeting_findByIdAndUpdate].
        rewrite update_first_map by exact Hnd. rewrite map_map. f_equal. f_equal.
        apply map_ext. intros d. unfold swept. cbn [fold_left].
        rewrite Hc. reflexivity.
      * cbn [meetings Meeting_findByIdAndUpdate].
        rewrite update_first_ids; [exact Hnd | apply HF].
    + rewrite IH by exact Hnd. f_equal. f_equal.
      apply map_ext. intros d. unfold swept. cbn [fold_left].
      rewrite Hc. reflexivity.
Qed.

Lemma swept_own (cond : Meeting -> bool) (F : Meeting -> Meeting -> Meeting)
  (d : Meeting) (todo : list Meeting) :
  (forall x c, _id (F x c) = _id c) ->
  NoDup (map _id todo) ->
  (forall x, In x todo -> _id x = _id d -> x = d) ->
  forall c,
    _id c = _id d ->
    swept cond F todo c =
    if existsb (fun x => String.eqb (_id x) (_id d)) todo && cond d then F d c else c.
Proof.
  intros HF. unfold swept.
  induction todo as [|x todo IH]; intros Hnd Hown c Hc; cbn [fold_left existsb].
  - reflexivity.
  - inversion Hnd as [|y l Hnotin Hnd']; subst.
    assert (Hown' : forall y, In y todo -> _id y = _id d -> y = d)
      by (intros y Hy; apply Hown; right; exact Hy).
    destruct (String.eqb (_id x) (_id d)) eqn:Hx.
    + apply String.eqb_eq in Hx.
      assert (x = d) by (apply Hown; [left; reflexivity | exact Hx]). subst x.
      rewrite Hc, String.eqb_refl, andb_true_r. cbn [orb andb].
      assert (Hnone : existsb (fun x => String.eqb (_id x) (_id d)) todo = false).
      { destruct (existsb _ todo) eqn:Hex; [|reflexivity].
        apply existsb_exists in Hex as (y & Hy & Hid). apply String.eqb_eq in Hid.
        exfalso. apply Hnotin. rewrite <- Hid. apply in_map. exact Hy. }
      destruct (cond d).
      * rewrite IH; [rewrite Hnone; reflexivity | exact Hnd' | exact Hown' |].
        rewrite HF. exact Hc.
      * rewrite IH; [rewrite Hnone; reflexivity | exact Hnd' | exact Hown' | exact Hc].
    + assert (Hcx : String.eqb (_id c) (_id x) = false).
      { rewrite Hc. rewrite String.eqb_sym. exact Hx. }
      rewrite Hcx, andb_false_r. cbn [orb].
      apply IH; assumption.
Qed.

Section SchedulerByDocument.

Context {P : Platform}.

Lemma activate_loop_sweep (t : Z) (o : Oracle) (todo : list Meeting) (db : DB) :
  activate_loop t o todo db = sweep (fun x => t <? endTime x) (activation t o) o todo db.
Proof.
  revert db. induction todo as [|x todo IH]; intros db; cbn; [reflexivity|].
  destruct (t <? endTime x); [|apply IH].
  destruct (rejects o (_id x)); [reflexivity | apply IH].
Qed.

Lemma deactivate_loop_sweep (t : Z) (o : Oracle) (todo : list Meeting) (db : DB) :
  deactivate_loop t o todo db =
  sweep (fun x => endTime x <=? t) (fun _ => deactivation) o todo db.
Proof.
  revert db. induction todo as [|x todo IH]; intros db; cbn; [reflexivity|].
  destruct (endTime x <=? t); [|apply IH].
  destruct (rejects o (_id x)); [reflexivity | apply IH].
Qed.

(** A sweep over the documents selected from the store itself touches
    each selected document for which the condition holds, and only
    those. *)
Lemma sweep_selected (cond sel : Meeting -> bool) (F : Meeting -> Meeting -> Meeting)
  (o : Oracle) (db : DB) :
  clean o ->
  (forall x d, _id (F x d) = _id d) ->
  NoDup (map _id (meetings db)) ->
  sweep cond F o (filter sel (meetings db)) db =
  (None, {| meetings := map (fun d => if sel d && cond d then F d d else d) (meetings db);
            users := users db;
            attendances := attendances db |}).
Proof.
  intros Hclean HF Hnd. rewrite (sweep_clean cond F _ Hclean HF db Hnd).
  f_equal. f_equal. apply map_ext_in. intros d Hd.
  rewrite (@swept_own cond F d (filter sel (meetings db)) HF).
  - rewrite (selected_by_id sel _ d Hnd Hd). reflexivity.
  - apply NoDup_ids_filter. exact Hnd.
  - intros x Hx Hid. apply filter_In in Hx as [Hx _].
    apply (unique_id (meetings db)); assumption.
  - reflexivity.
Qed.

(** A tick in which nothing rejects, on a store with unique ids, is
    [tick_doc] applied to every document. *)
Lemma tick_as_map (t : Z) (o : Oracle) (db : DB) :
  clean o ->
  NoDup (map _id (meetings db)) ->
  checkAndUpdateMeetings t o db =
  {| meetings := map (tick_doc t o) (meetings db);
     users := users db;
     attendances := attendances db |}.
Proof.
  intros Hclean Hnd. unfold checkAndUpdateMeetings.
  rewrite activate_loop_sweep.
  rewrite (sweep_selected _ (fun m => negb (isActive m) && (dateTime m <=? t))
             (activation t o) db Hclean (activation_id t o) Hnd).
  rewrite deactivate_loop_sweep.
  set (db1 := {| meetings := map _ (meetings db); users := users db;
                 attendances := attendances db |}).
  assert (Hnd1 : NoDup (map _id (meetings db1))).
  { unfold db1. cbn [meetings]. rewrite map_ids_preserved; [exact Hnd|].
    intros d. destruct (_ && _); [apply activation_id | reflexivity]. }
  rewrite (sweep_selected _ isActive (fun _ => deactivation) db1 Hclean
             (fun _ _ => eq_refl) Hnd1).
  cbn [snd]. unfold db1. cbn [meetings users attendances].
  rewrite map_map. reflexivity.
Qed.

End SchedulerByDocument.

(** ** Acceptance *)

Section Acceptance.

Context {P : Platform}.

Lemma handle_admissible (s : Submission) (db : DB) (m : Meeting) (u : User) :
  admissible s db m u ->
  insert_fault (env_of s) = false ->
  handle s db =
  match Attendance_findOne (_id m) (user_id u) db with
  | Some _ => (repeat_reply s m, db)
  | None =>
      (fresh_reply s m, with_attendances (attendances db ++ [record_for s m u]) db)
  end.
Proof.
  intros (Hreach & Hwin & Hu & Hel & Hgeo) Hfault.
  rewrite (handle_past_window s db m Hreach Hwin).
  unfold after_window. rewrite Hu, Hel, Hgeo.
  destruct (Attendance_findOne (_id m) (user_id u) db) eqn:Hone; [reflexivity|].
  unfold Attendance_findOne in Hone.
  destruct s; cbn [commit env_of] in *;
    unfold scanQR_commit, mark_commit, Attendance_create;
    rewrite Hfault; cbn [record_for meeting user];
    rewrite find_existsb, Hone; reflexivity.
Qed.

Lemma admissible_accepted (s : Submission) (db : DB) (m : Meeting) (u : User) :
  admissible s db m u ->
  insert_fault (env_of s) = false ->
  accepted s db m u.
Proof.
  intros Hadm Hfault. unfold accepted.
  rewrite (handle_admissible Hadm Hfault), find_existsb.
  unfold Attendance_findOne.
  destruct (find (same_pair (_id m) (user_id u)) (attendances db)) eqn:Hone;
    cbn [fst snd with_attendances meetings users attendances].
  - split; [reflexivity|]. split; [reflexivity|]. split; [reflexivity|].
    eexists. exact Hone.
  - split; [reflexivity|]. split; [reflexivity|]. split; [reflexivity|].
    exists (record_for s m u). apply find_app_last; [exact Hone|].
    unfold same_pair. destruct s; cbn [record_for meeting user];
      rewrite !String.eqb_refl; reflexivity.
Qed.

Lemma in_order_schedule (s : Submission) (db db' : DB) (m m' : Meeting) (u : User) :
  schedule_of m' = schedule_of m ->
  users db' = users db ->
  in_order s db m u -> in_order s db' m' u.
Proof.
  intros Hsch Husers (Hwin & Hu & Hel & Hgeo & Hfault).
  unfold schedule_of in Hsch. injection Hsch as Hid Hty Hdt Hdur Hlink Hpart Hps Hgf.
  unfold in_order, endTime, eligible, isAllowed, User_findByUid, geofence_of, geofence in *.
  rewrite Hdt, Hdur, Hpart, Hps, Hgf, Husers.
  repeat split; try assumption; apply Hwin.
Qed.

Lemma admissible_in_order (s : Submission) (db : DB) (m : Meeting) (u : User) :
  reaches_window s db m -> in_order s db m u ->
  admissible s db m u /\ insert_fault (env_of s) = false.
Proof.
  intros Hreach (Hwin & Hu & Hel & Hgeo & Hfault).
  unfold admissible. auto 10.
Qed.

End Acceptance.

(** X6. A submission that passes every check is accepted, whatever
    else the store holds: the member who had not attended gets the 201 and
    exactly the record built from the submission is appended; the member
    who had attended gets the 200 repeat and nothing is written.  Either
    way a record of the pair is stored afterwards, the meetings and users
    are untouched, and the unique index of the collection is kept. *)
Theorem admissible_is_accepted {P : Platform} (s : Submission) (db : DB)
  (m : Meeting) (u : User) :
  admissible s db m u ->
  insert_fault (env_of s) = false ->
  accepted s db m u /\
  (unique_index (attendances db) -> unique_index (attendances (snd (handle s db)))) /\
  (attendances (snd (handle s db)) = attendances db \/
   attendances (snd (handle s db)) = attendances db ++ [record_for s m u]).
Proof.
  intros Hadm Hfault. split; [apply admissible_accepted; assumption|].
  rewrite (handle_admissible Hadm Hfault).
  destruct (Attendance_findOne (_id m) (user_id u) db) eqn:Hone;
    cbn [snd with_attendances attendances].
  - split; [auto | left; reflexivity].
  - split; [|right; reflexivity].
    intros Hidx. apply unique_index_insert; [exact Hidx|].
    unfold Attendance_findOne in Hone. rewrite find_existsb.
    destruct s; cbn [record_for meeting user]; rewrite Hone; reflexivity.
Qed.

Lemma admissible_is_accepted_witness :
  let s := ViaLink (Sample.at_ 1200000 "bob") (Sample.open_link "linkB") in
  accepted (P := Sample.runtime) s Sample.db0 Sample.webinar Sample.bob.
Proof.
  intros s.
  refine (proj1 (@admissible_is_accepted Sample.runtime s Sample.db0
                   Sample.webinar Sample.bob _ eq_refl)).
  split; [|split; [|split; [|split]]].
  - split; [discriminate|]. split; [discriminate|]. split; reflexivity.
  - unfold endTime; cbn; lia.
  - reflexivity.
  - reflexivity.
  - reflexivity.
Defined.

(** ** What a tick of the scheduler settles *)

Lemma endTime_schedule (a b : Meeting) :
  schedule_of a = schedule_of b -> endTime a = endTime b.
Proof.
  unfold schedule_of, endTime. intros H.
  injection H as _ _ Hdt Hdur _ _ _ _. rewrite Hdt, Hdur. reflexivity.
Qed.

Lemma schedule_id (a b : Meeting) :
  schedule_of a = schedule_of b -> _id a = _id b.
Proof. unfold schedule_of. intros H. injection H as Hid _ _ _ _ _ _ _. exact Hid. Qed.

Lemma sweep_frame (cond : Meeting -> bool) (F : Meeting -> Meeting -> Meeting)
  (o : Oracle) (todo : list Meeting) :
  (forall x d, schedule_of (F x d) = schedule_of d) ->
  forall db,
    map schedule_of (meetings (snd (sweep cond F o todo db)))
    = map schedule_of (meetings db) /\
    users (snd (sweep cond F o todo db)) = users db /\
    attendances (snd (sweep cond F o todo db)) = attendances db.
Proof.
  intros HF. induction todo as [|x todo IH]; intros db; cbn [sweep].
  - auto.
  - destruct (cond x); [|apply IH].
    destruct (rejects o (_id x)); [cbn; auto|].
    destruct (IH (Meeting_findByIdAndUpdate (_id x) (F x) db)) as (Hm & Hu & Ha).
    rewrite Hm, Hu, Ha. cbn [Meeting_findByIdAndUpdate meetings users attendances].
    split; [|auto]. apply update_first_proj. apply HF.
Qed.

Section Ticks.

Context {P : Platform}.

Lemma activation_schedule (t : Z) (o : Oracle) (m d : Meeting) :
  schedule_of (activation t o m d) = schedule_of d.
Proof.
  unfold activation.
  destruct (type m); [destruct (String.eqb (qrCode m) "") |
                      destruct (String.eqb (attendanceToken m) "")];
    reflexivity.
Qed.

Lemma activation_isActive (t : Z) (o : Oracle) (m d : Meeting) :
  isActive (activation t o m d) = true.
Proof.
  unfold activation.
  destruct (type m); [destruct (String.eqb (qrCode m) "") |
                      destruct (String.eqb (attendanceToken m) "")];
    reflexivity.
Qed.

Lemma tick_doc_cases (t : Z) (o : Oracle) (d : Meeting) :
  tick_doc t o d =
  if negb (isActive d) && (dateTime d <=? t) && (t <? endTime d) then activation t o d d
  else if isActive d && (endTime d <=? t) then deactivation d else d.
Proof.
  unfold tick_doc.
  destruct (negb (isActive d) && (dateTime d <=? t) && (t <? endTime d)) eqn:Hact;
    cbv zeta; [|reflexivity].
  rewrite activation_isActive, (endTime_schedule (activation_schedule t o d d)).
  apply andb_prop in Hact as [_ Hlt].
  replace (endTime d <=? t) with false by lia. reflexivity.
Qed.

Lemma tick_doc_schedule (t : Z) (o : Oracle) (d : Meeting) :
  schedule_of (tick_doc t o d) = schedule_of d.
Proof.
  rewrite tick_doc_cases.
  destruct (_ && _ && _); [apply activation_schedule|].
  destruct (_ && _); reflexivity.
Qed.

Lemma tick_doc_flag (t : Z) (o : Oracle) (d : Meeting) :
  isActive (tick_doc t o d) = (isActive d || (dateTime d <=? t)) && (t <? endTime d).
Proof.
  rewrite tick_doc_cases.
  destruct (isActive d) eqn:Ha; cbn [negb andb orb].
  - destruct (endTime d <=? t) eqn:He; cbn [deactivation set_isActive isActive].
    + unfold deactivation. cbn. lia.
    + rewrite Ha. lia.
  - destruct (dateTime d <=? t); cbn [andb]; [|exact Ha].
    destruct (t <? endTime d); [apply activation_isActive | exact Ha].
Qed.

Lemma tick_doc_idempotent (t : Z) (o o' : Oracle) (d : Meeting) :
  tick_doc t o' (tick_doc t o d) = tick_doc t o d.
Proof.
  rewrite (tick_doc_cases t o' (tick_doc t o d)).
  rewrite tick_doc_flag, (endTime_schedule (tick_doc_schedule t o d)).
  assert (Hdt : dateTime (tick_doc t o d) = dateTime d).
  { pose proof (tick_doc_schedule t o d) as H. unfold schedule_of in H.
    injection H as _ _ Hdt _ _ _ _ _. exact Hdt. }
  rewrite Hdt.
  destruct (isActive d), (dateTime d <=? t), (t <? endTime d) eqn:Hlt;
    cbn [negb andb orb];
    try reflexivity;
    replace (endTime d <=? t) with false by lia; reflexivity.
Qed.

Lemma tick_find (t : Z) (o : Oracle) (db : DB) (id : ObjectId) :
  clean o ->
  NoDup (map _id (meetings db)) ->
  Meeting_findById id (checkAndUpdateMeetings t o db)
  = option_map (tick_doc t o) (Meeting_findById id db).
Proof.
  intros Hclean Hnd. rewrite (tick_as_map t db Hclean Hnd).
  unfold Meeting_findById. cbn [meetings].
  apply find_map_invariant. intros a.
  rewrite (schedule_id (tick_doc_schedule t o a)). reflexivity.
Qed.

End Ticks.

(** X7. After a tick in which no update is rejected, the live flag of
    every meeting is settled by the clock and by what the flag was: the
    meeting is live exactly when it has not ended and either was live or
    has started.  The schedule of the meeting is as it was. *)
Theorem tick_flag_follows_window {P : Platform} (t : Z) (o : Oracle) (db : DB)
  (id : ObjectId) (d : Meeting) :
  clean o ->
  NoDup (map _id (meetings db)) ->
  Meeting_findById id db = Some d ->
  exists d',
    Meeting_findById id (checkAndUpdateMeetings t o db) = Some d' /\
    schedule_of d' = schedule_of d /\
    isActive d' = (isActive d || (dateTime d <=? t)) && (t <? endTime d).
Proof.
  intros Hclean Hnd Hfind. exists (tick_doc t o d).
  rewrite (tick_find t db id Hclean Hnd), Hfind.
  split; [reflexivity|]. split; [apply tick_doc_schedule | apply tick_doc_flag].
Qed.

Lemma tick_flag_follows_window_witness :
  option_map isActive
    (Meeting_findById "m6"
       (checkAndUpdateMeetings (P := Sample.runtime) 6000000 (Sample.oracle [])
          Sample.upcoming))
  = Some true.
Proof.
  destruct (@tick_flag_follows_window Sample.runtime 6000000 (Sample.oracle [])
              Sample.upcoming "m6" (Sample.talk "m6")
              (fun _ => eq_refl)
              ltac:(repeat constructor; cbn; intuition discriminate)
              eq_refl) as (d' & Hfind & _ & Hflag).
  rewrite Hfind. cbn [option_map]. rewrite Hflag. reflexivity.
Defined.

(** X8. A tick settles the store: a second tick at the same clock
    reading changes nothing, whatever tokens it would draw. *)
Theorem tick_idempotent {P : Platform} (t : Z) (o o' : Oracle) (db : DB) :
  clean o -> clean o' ->
  NoDup (map _id (meetings db)) ->
  checkAndUpdateMeetings t o' (checkAndUpdateMeetings t o db)
  = checkAndUpdateMeetings t o db.
Proof.
  intros Hclean Hclean' Hnd.
  rewrite (tick_as_map t db Hclean Hnd).
  rewrite tick_as_map; [|exact Hclean'|].
  - cbn [meetings users attendances]. rewrite map_map. f_equal.
    apply map_ext. intros d. apply tick_doc_idempotent.
  - cbn [meetings]. rewrite map_ids_preserved; [exact Hnd|].
    intros d. apply (schedule_id (tick_doc_schedule t o d)).
Qed.

Lemma tick_idempotent_witness :
  checkAndUpdateMeetings (P := Sample.runtime) 6000000 (Sample.oracle [])
    (checkAndUpdateMeetings (P := Sample.runtime) 6000000 (Sample.oracle [])
       Sample.upcoming)
  = checkAndUpdateMeetings (P := Sample.runtime) 6000000 (Sample.oracle [])
      Sample.upcoming.
Proof.
  apply (@tick_idempotent Sample.runtime 6000000 (Sample.oracle []) (Sample.oracle [])
           Sample.upcoming (fun _ => eq_refl) (fun _ => eq_refl)).
  repeat constructor; cbn; intuition discriminate.
Defined.

(** X9. Whatever a tick of the scheduler does, and whether or not one of
    its updates is rejected, it leaves the users and the attendance
    records alone, and of the meetings it keeps the number, the order and
    the schedule (id, type, start, duration, link, participation,
    participants, fence): it only writes the live flag and the proof
    state. *)
Theorem tick_frame {P : Platform} (t : Z) (o : Oracle) (db : DB) :
  map schedule_of (meetings (checkAndUpdateMeetings t o db))
  = map schedule_of (meetings db) /\
  users (checkAndUpdateMeetings t o db) = users db /\
  attendances (checkAndUpdateMeetings t o db) = attendances db.
Proof.
  unfold checkAndUpdateMeetings. rewrite activate_loop_sweep.
  match goal with |- context [sweep ?c ?F o ?todo db] =>
    pose proof (@sweep_frame c F o todo (activation_schedule t o) db) as H1;
    destruct (sweep c F o todo db) as [[ex|] db1]
  end; cbn [snd] in H1; [exact H1|].
  rewrite deactivate_loop_sweep.
  match goal with |- context [sweep ?c ?F o ?todo db1] =>
    pose proof (@sweep_frame c F o todo (fun _ _ => eq_refl) db1) as H2
  end.
  destruct H1 as (Hm1 & Hu1 & Ha1), H2 as (Hm2 & Hu2 & Ha2).
  rewrite Hm2, Hu2, Ha2. auto.
Qed.

(** ** Codes on display *)

Section Display.

Context {P : Platform}.

(** Scanning the payload a meeting holds passes every check up to the
    time window. *)
Lemma displayed_reaches_window (e : Env) (b : ScanBody) (db : DB) (m : Meeting)
  (tok : string) (t : Z) :
  Meeting_findById (_id m) db = Some m ->
  type m = offline ->
  qrData m = JSON_stringify_qr (_id m) tok t ->
  well_coded (_id m) tok t ->
  body_qrData b = Some (qrData m) ->
  reaches_window (ViaQR e b) db m.
Proof.
  intros Hfind Hty Hdata (Hne & Hid & Htok & Hcast & props & Hparse & Hmid & Htk) Hb.
  apply String.eqb_neq in Hid, Htok.
  cbn [reaches_window]. exists (Some (JString tok)), (Some (JString tok)).
  split; [|split; [|split]].
  - exists (qrData m), (JObject props), (Some (JString (_id m))).
    split; [exact Hb|]. rewrite Hdata.
    split; [exact Hne|]. split; [exact Hparse|].
    split; [cbn; rewrite Hmid; reflexivity|].
    split; [cbn; rewrite Htk; reflexivity|].
    split; [cbn; rewrite Hid; reflexivity|].
    split; [cbn; rewrite Htok; reflexivity|].
    cbn [Meeting_findById_cast]. rewrite Hcast, Hfind. reflexivity.
  - unfold storedToken, meetingQrParsed. rewrite Hdata.
    apply String.eqb_neq in Hne. rewrite Hne, Hparse. cbn. rewrite Htk. reflexivity.
  - cbn. apply String.eqb_refl.
  - exact Hty.
Qed.

(** A submission that is in order and shows the payload the meeting
    holds is accepted. *)
Lemma displayed_accepted (e : Env) (b : ScanBody) (db : DB) (m : Meeting) (u : User)
  (tok : string) (t : Z) :
  Meeting_findById (_id m) db = Some m ->
  type m = offline ->
  qrData m = JSON_stringify_qr (_id m) tok t ->
  well_coded (_id m) tok t ->
  body_qrData b = Some (qrData m) ->
  in_order (ViaQR e b) db m u ->
  accepted (ViaQR e b) db m u.
Proof.
  intros Hfind Hty Hdata Hcoded Hb Horder.
  assert (Hreach : reaches_window (ViaQR e b) db m)
    by (eapply displayed_reaches_window; eassumption).
  assert (Hadm : admissible (ViaQR e b) db m u /\ insert_fault (env_of (ViaQR e b)) = false)
    by (apply admissible_in_order; assumption).
  apply admissible_accepted; apply Hadm.
Qed.

(** A meeting without proof state passes the token check of no
    submission. *)
Lemma blank_never_reaches_window (s : Submission) (db : DB) (m : Meeting) :
  qrData m = "" -> attendanceToken m = "" -> ~ reaches_window s db m.
Proof.
  intros Hdata Htoken Hreach. destruct s as [e b | e q]; cbn [reaches_window] in Hreach.
  - destruct Hreach as (token & stored & Hdec & Hstored & Heq & _).
    destruct Hdec as (raw & parsed & meetingId & _ & _ & _ & _ & _ & _ & Htruthy & _).
    unfold storedToken, meetingQrParsed in Hstored. rewrite Hdata in Hstored.
    cbn in Hstored. injection Hstored as <-.
    destruct token as [j|]; [destruct j; discriminate | discriminate].
  - destruct Hreach as (Hne & _ & Hfind & _).
    apply find_some in Hfind as [_ Heq]. apply String.eqb_eq in Heq.
    congruence.
Qed.

End Display.

(** X10. Once a tick of the scheduler has closed a meeting that was
    live past its end, no submission passes the token check for it, at
    whatever clock reading and with whatever payload or link, and no
    handler adds an attendance record for it. *)
Theorem closed_meeting_takes_no_attendance {P : Platform} (t : Z) (o : Oracle)
  (db : DB) (d : Meeting) :
  clean o ->
  NoDup (map _id (meetings db)) ->
  In d (meetings db) ->
  isActive d = true ->
  endTime d <= t ->
  let db' := checkAndUpdateMeetings t o db in
  (forall s m, reaches_window s db' m -> _id m <> _id d) /\
  (forall s a,
      In a (attendances (snd (handle s db'))) -> meeting a = _id d ->
      In a (attendances db)).
Proof.
  intros Hclean Hnd Hin Hact Hend db'.
  assert (Hdb' : db' = {| meetings := map (tick_doc t o) (meetings db);
                          users := users db; attendances := attendances db |})
    by (apply tick_as_map; assumption).
  clearbody db'.
  assert (Hnone : forall s m, reaches_window s db' m -> _id m <> _id d).
  { intros s m Hreach Hid.
    assert (Hm : In m (meetings db')).
    { destruct s as [e b | e q]; cbn [reaches_window] in Hreach.
      - destruct Hreach as (token & stored & Hdec & _).
        destruct Hdec as (raw & parsed & meetingId & _ & _ & _ & _ & _ & _ & _ & Hcast).
        unfold Meeting_findById_cast in Hcast.
        destruct meetingId as [j|]; [|discriminate].
        destruct (castObjectId j); [|discriminate].
        injection Hcast as Hfind. apply find_some in Hfind. apply Hfind.
      - destruct Hreach as (_ & _ & Hfind & _).
        apply find_some in Hfind. apply Hfind. }
    rewrite Hdb' in Hm. cbn [meetings] in Hm.
    apply in_map_iff in Hm as (d0 & Hd0 & Hin0).
    assert (d0 = d).
    { apply (unique_id (meetings db)); try assumption.
      rewrite <- Hid, <- Hd0. symmetry.
      apply (schedule_id (tick_doc_schedule t o d0)). }
    subst d0. rewrite tick_doc_cases in Hd0.
    rewrite Hact in Hd0. cbn [negb andb] in Hd0.
    replace (endTime d <=? t) with true in Hd0 by lia.
    apply (@blank_never_reaches_window P s db' m); [| | exact Hreach];
      rewrite <- Hd0; reflexivity. }
  split; [exact Hnone|].
  intros s a Ha Hmeeting.
  assert (Hatts : attendances db' = attendances db) by (rewrite Hdb'; reflexivity).
  destruct (handle_cases s db') as [[_ Hsame] | (m & u & Hadm & [Hfresh | Hrepeat])].
  - rewrite Hsame, Hatts in Ha. exact Ha.
  - destruct Hfresh as (_ & _ & Heq). rewrite Heq in Ha.
    cbn [snd with_attendances attendances] in Ha.
    apply in_app_or in Ha as [Ha | [Ha | []]]; [rewrite <- Hatts; exact Ha|].
    exfalso. apply (Hnone s m); [apply Hadm|].
    rewrite <- Hmeeting, <- Ha. destruct s; reflexivity.
  - destruct Hrepeat as (_ & Heq). rewrite Heq in Ha. cbn [snd] in Ha.
    rewrite Hatts in Ha. exact Ha.
Qed.

Lemma closed_meeting_takes_no_attendance_witness :
  let db' :=
    checkAndUpdateMeetings (P := Sample.runtime) 5000000 (Sample.oracle []) Sample.db0 in
  let s := ViaQR (Sample.at_ 1200000 "alice") (Sample.scan "qr:m1:tokA" None) in
  ~ reaches_window (P := Sample.runtime) s db' (deactivation Sample.standup).
Proof.
  intros db' s Hreach.
  apply (proj1 (@closed_meeting_takes_no_attendance Sample.runtime 5000000
                  (Sample.oracle []) Sample.db0 Sample.standup
                  (fun _ => eq_refl)
                  ltac:(repeat constructor; cbn; intuition discriminate)
                  (or_introl eq_refl) eq_refl
                  ltac:(unfold endTime; cbn; lia))
               s (deactivation Sample.standup) Hreach).
  reflexivity.
Defined.

(** X11. A tick without rejections opens an offline meeting that has
    started and not ended: the meeting is live afterwards with its
    schedule as it was.  A code it held is kept as it is.  When it held
    none, the payload drawn by the tick is stored, and a scan of that
    payload by a member for whom everything else is in order is
    accepted. *)
Theorem activation_issues_working_code {P : Platform} (t : Z) (o : Oracle) (db : DB)
  (d : Meeting) :
  clean o ->
  NoDup (map _id (meetings db)) ->
  Meeting_findById (_id d) db = Some d ->
  isActive d = false ->
  dateTime d <= t < endTime d ->
  type d = offline ->
  let db' := checkAndUpdateMeetings t o db in
  let payload := JSON_stringify_qr (_id d) (randomHex o (_id d)) t in
  exists d',
    Meeting_findById (_id d) db' = Some d' /\
    isActive d' = true /\
    schedule_of d' = schedule_of d /\
    (qrCode d <> "" -> qrCode d' = qrCode d /\ qrData d' = qrData d) /\
    (qrCode d = "" ->
     qrData d' = payload /\
     (well_coded (_id d) (randomHex o (_id d)) t ->
      forall e b u,
        body_qrData b = Some payload ->
        in_order (ViaQR e b) db d u ->
        accepted (ViaQR e b) db' d' u)).
Proof.
  intros Hclean Hnd Hfind Hact Hwin Hty db' payload.
  assert (Hfind' : Meeting_findById (_id d) db' = Some (activation t o d d)).
  { unfold db'. rewrite (tick_find t db (_id d) Hclean Hnd), Hfind. cbn [option_map].
    rewrite tick_doc_cases, Hact. cbn [negb andb].
    replace (dateTime d <=? t) with true by lia.
    replace (t <? endTime d) with true by lia. reflexivity. }
  assert (Husers : users db' = users db)
    by (unfold db'; rewrite (tick_as_map t db Hclean Hnd); reflexivity).
  clearbody db'.
  exists (activation t o d d).
  split; [exact Hfind'|]. split; [apply activation_isActive|].
  split; [apply activation_schedule|].
  assert (Hid : _id (activation t o d d) = _id d) by apply activation_id.
  unfold activation in *. rewrite Hty in *.
  split.
  - intros Hcode. apply String.eqb_neq in Hcode. rewrite Hcode. split; reflexivity.
  - intros Hcode. rewrite Hcode in *. cbn [String.eqb] in *.
    split; [reflexivity|].
    intros Hcoded e b u Hb Horder.
    eapply displayed_accepted.
    + rewrite Hid. exact Hfind'.
    + exact Hty.
    + reflexivity.
    + exact Hcoded.
    + exact Hb.
    + eapply in_order_schedule; [| exact Husers | exact Horder]. reflexivity.
Qed.

Lemma activation_issues_working_code_witness :
  let db' :=
    checkAndUpdateMeetings (P := Sample.runtime) 2000000 (Sample.oracle [])
      Sample.upcoming in
  exists d',
    Meeting_findById "m4" db' = Some d' /\
    accepted (P := Sample.runtime)
      (ViaQR (Sample.at_ 2500000 "alice") (Sample.scan "qr:m4:c0ffee" None))
      db' d' Sample.alice.
Proof.
  intros db'.
  destruct (@activation_issues_working_code Sample.runtime 2000000 (Sample.oracle [])
              Sample.upcoming Sample.missed
              (fun _ => eq_refl)
              ltac:(repeat constructor; cbn; intuition discriminate)
              eq_refl eq_refl
              ltac:(unfold endTime; cbn; lia)
              eq_refl) as (d' & Hfind & _ & _ & _ & Hnew).
  exists d'. split; [exact Hfind|].
  apply (proj2 (Hnew eq_refl)).
  - split; [discriminate|]. split; [discriminate|]. split; [discriminate|].
    split; [reflexivity|]. eexists. split; [reflexivity|]. split; reflexivity.
  - reflexivity.
  - split; [unfold endTime; cbn; lia|]. split; [reflexivity|].
    split; [reflexivity|]. split; reflexivity.
Defined.

(** ** Rotation *)

Section RotationFrame.

Context {P : Platform}.

Lemma rotated_schedule (t : Z) (o : Oracle) (id : ObjectId) (d : Meeting) :
  schedule_of (rotated t o id d) = schedule_of d.
Proof. reflexivity. Qed.

Lemma refresh_fold_frame {B : Type} (pr : Meeting -> B) (t : Z) (o : Oracle)
  (ids : list ObjectId) :
  (forall q c d, pr (set_qr q c d) = pr d) ->
  forall db,
    let db' := fold_left (fun db id => refresh_one t o id db) ids db in
    map pr (meetings db') = map pr (meetings db) /\
    users db' = users db /\ attendances db' = attendances db.
Proof.
  intros Hpr. induction ids as [|id ids IH]; intros db; cbn [fold_left]; [auto|].
  destruct (IH (refresh_one t o id db)) as (Hm & Hu & Ha).
  cbv zeta. rewrite Hm, Hu, Ha. unfold refresh_one.
  destruct (rejects o id); [auto|].
  cbn [Meeting_findByIdAndUpdate meetings users attendances].
  split; [|auto]. apply update_first_proj. intros d. apply Hpr.
Qed.

Lemma refresh_fold_keeps (t : Z) (o : Oracle) (d : Meeting) (ids : list ObjectId) :
  ~ In (_id d) ids ->
  forall db,
    In d (meetings db) ->
    In d (meetings (fold_left (fun db id => refresh_one t o id db) ids db)).
Proof.
  induction ids as [|id ids IH]; intros Hnotin db Hin; cbn [fold_left]; [exact Hin|].
  apply IH; [intros H; apply Hnotin; right; exact H|].
  unfold refresh_one. destruct (rejects o id); [exact Hin|].
  cbn [Meeting_findByIdAndUpdate meetings].
  apply update_first_keeps; [|exact Hin].
  intros Heq. apply Hnotin. left. symmetry. exact Heq.
Qed.

End RotationFrame.

(** X12. The code a rotation tick issues works: for an offline
    meeting that is selected by the tick and whose refresh is not
    rejected, a scan of the new payload by a member for whom everything
    else is in order is accepted on the store the tick leaves. *)
Theorem rotated_code_is_accepted {P : Platform} (t : Z) (o : Oracle) (s : Server)
  (m : Meeting) (e : Env) (b : ScanBody) (u : User) :
  Meeting_findById (_id m) (store s) = Some m ->
  type m = offline ->
  rotating m = true ->
  rejects o (_id m) = false ->
  well_coded (_id m) (randomHex o (_id m)) t ->
  body_qrData b = Some (JSON_stringify_qr (_id m) (randomHex o (_id m)) t) ->
  in_order (ViaQR e b) (store s) m u ->
  accepted (ViaQR e b) (store (refreshQRCodes t o s)) (rotated t o (_id m) m) u.
Proof.
  intros Hfind Hty Hrot Hrej Hcoded Hb Horder.
  assert (Hfind' : Meeting_findById (_id m) (store (refreshQRCodes t o s))
                   = Some (rotated t o (_id m) m)).
  { unfold refreshQRCodes. cbn [store].
    apply (@refresh_fold_find P t o (_id m) _ Hrej (store s) m (or_introl Hfind)).
    apply in_map. apply filter_In. split; [|exact Hrot].
    apply find_some in Hfind. apply Hfind. }
  assert (Husers : users (store (refreshQRCodes t o s)) = users (store s)).
  { unfold refreshQRCodes. cbn [store].
    apply (refresh_fold_frame schedule_of t o _ (fun _ _ _ => eq_refl) (store s)). }
  eapply displayed_accepted.
  - exact Hfind'.
  - exact Hty.
  - reflexivity.
  - exact Hcoded.
  - exact Hb.
  - eapply in_order_schedule; [| exact Husers | exact Horder]. reflexivity.
Qed.

Lemma rotated_code_is_accepted_witness :
  accepted (P := Sample.runtime)
    (ViaQR (Sample.at_ 1200000 "alice") (Sample.scan "qr:m1:c0ffee" None))
    (store (refreshQRCodes (P := Sample.runtime) 1100000 (Sample.oracle ["m3"])
              {| store := Sample.on_display; lastRefreshedAt := None |}))
    (rotated (P := Sample.runtime) 1100000 (Sample.oracle ["m3"]) "m1" Sample.standup)
    Sample.alice.
Proof.
  apply (@rotated_code_is_accepted Sample.runtime 1100000 (Sample.oracle ["m3"])
           {| store := Sample.on_display; lastRefreshedAt := None |}
           Sample.standup (Sample.at_ 1200000 "alice")
           (Sample.scan "qr:m1:c0ffee" None) Sample.alice).
  - reflexivity.
  - reflexivity.
  - reflexivity.
  - reflexivity.
  - split; [discriminate|]. split; [discriminate|]. split; [discriminate|].
    split; [reflexivity|]. eexists. split; [reflexivity|]. split; reflexivity.
  - reflexivity.
  - split; [unfold endTime; cbn; lia|]. split; [reflexivity|].
    split; [reflexivity|]. split; reflexivity.
Defined.

(** X13. A rotation tick touches codes only, and only those on
    display: whatever is rejected, the users and the attendance records
    are as they were, every meeting keeps every path but [qrCode] and
    [qrData], and (ids being unique) a meeting that is paused or holds no
    code is stored unchanged, so that a paused code stays the current
    one. *)
Theorem rotation_touches_codes_only {P : Platform} (t : Z) (o : Oracle) (s : Server) :
  let s' := refreshQRCodes t o s in
  map beside_qr (meetings (store s')) = map beside_qr (meetings (store s)) /\
  users (store s') = users (store s) /\
  attendances (store s') = attendances (store s) /\
  (NoDup (map _id (meetings (store s))) ->
   forall d, In d (meetings (store s)) -> rotating d = false ->
             In d (meetings (store s'))).
Proof.
  cbv zeta. unfold refreshQRCodes. cbn [store].
  match goal with |- context [fold_left _ ?ids (store s)] =>
    destruct (refresh_fold_frame beside_qr t o ids (fun _ _ _ => eq_refl) (store s))
      as (Hm & Hu & Ha)
  end.
  split; [exact Hm|]. split; [exact Hu|]. split; [exact Ha|].
  intros Hnd d Hin Hrot. apply refresh_fold_keeps; [|exact Hin].
  intros Hsel. apply in_map_iff in Hsel as (x & Hid & Hx).
  apply filter_In in Hx as [Hx Hrotx].
  assert (x = d) by (apply (unique_id (meetings (store s))); assumption).
  subst x. unfold rotating in Hrot. congruence.
Qed.

(** X14. A rotation tick restarts the countdown the status endpoint
    reports: it reads 20 at the instant of the tick, never goes up until
    the next tick, is positive and not short of the time left to the 20
    second mark before it, and reads 0 from that mark on. *)
Theorem rotation_restarts_countdown {P : Platform} (t : Z) (o : Oracle) (s : Server) :
  let remaining t' := getSecondsUntilNextRefresh t' (lastRefreshedAt (refreshQRCodes t o s)) in
  remaining t = QR_REFRESH_INTERVAL /\
  (forall t1 t2, t <= t1 <= t2 -> remaining t2 <= remaining t1) /\
  (forall t', t <= t' < t + 1000 * QR_REFRESH_INTERVAL ->
              0 < remaining t' /\
              1000 * QR_REFRESH_INTERVAL - (t' - t) <= 1000 * remaining t'
                < 1000 * QR_REFRESH_INTERVAL - (t' - t) + 1000) /\
  (forall t', t + 1000 * QR_REFRESH_INTERVAL <= t' -> remaining t' = 0).
Proof.
  cbv zeta. cbn [refreshQRCodes lastRefreshedAt].
  unfold QR_REFRESH_INTERVAL.
  split; [|split; [|split]].
  - rewrite getSecondsUntilNextRefresh_closed_form. unfold QR_REFRESH_INTERVAL.
    rewrite Z.sub_diag. cbn. reflexivity.
  - intros t1 t2 H. rewrite !getSecondsUntilNextRefresh_closed_form.
    unfold QR_REFRESH_INTERVAL.
    assert ((t1 - t) / 1000 <= (t2 - t) / 1000) by (apply Z.div_le_mono; lia).
    lia.
  - intros t' H. rewrite getSecondsUntilNextRefresh_closed_form.
    unfold QR_REFRESH_INTERVAL.
    pose proof (Z.div_mod (t' - t) 1000 ltac:(lia)) as Hdm.
    pose proof (Z.mod_pos_bound (t' - t) 1000 ltac:(lia)) as Hmod.
    lia.
  - intros t' H. rewrite getSecondsUntilNextRefresh_closed_form.
    unfold QR_REFRESH_INTERVAL.
    assert (20 <= (t' - t) / 1000) by (apply Z.div_le_lower_bound; lia).
    lia.
Qed.

(** ** Codes and links issued by hand *)

Lemma find_unique {A : Type} (p : A -> bool) (l : list A) (y : A) :
  In y l -> p y = true ->
  (forall x, In x l -> p x = true -> x = y) ->
  find p l = Some y.
Proof.
  intros Hin Hp Huniq. destruct (find p l) as [z|] eqn:Hfind.
  - apply find_some in Hfind as [Hz Hpz]. f_equal. apply Huniq; assumption.
  - rewrite (find_none p l Hfind y Hin) in Hp. discriminate.
Qed.

Lemma find_absent {A : Type} (p : A -> bool) (l : list A) :
  (forall x, In x l -> p x = false) -> find p l = None.
Proof.
  intros Hall. destruct (find p l) as [z|] eqn:Hfind; [|reflexivity].
  apply find_some in Hfind as [Hz Hpz]. rewrite (Hall z Hz) in Hpz. discriminate.
Qed.

Lemma find_by_id (id : ObjectId) (db : DB) (m : Meeting) :
  Meeting_findById id db = Some m -> In m (meetings db) /\ _id m = id.
Proof.
  intros Hfind. apply find_some in Hfind as [Hin Hid].
  apply String.eqb_eq in Hid. auto.
Qed.

Lemma find_updated (id : ObjectId) (f : Meeting -> Meeting) (db : DB) :
  (forall d, _id (f d) = _id d) ->
  Meeting_findById id (Meeting_findByIdAndUpdate id f db)
  = option_map f (Meeting_findById id db).
Proof.
  intros Hf. unfold Meeting_findById, Meeting_findByIdAndUpdate. cbn [meetings].
  apply find_update_first_same. exact Hf.
Qed.

Section ByHand.

Context {P : Platform}.

(** Scanning the payload an online meeting holds is turned away as
    the wrong channel. *)
Lemma displayed_online_refused (e : Env) (b : ScanBody) (db : DB) (m : Meeting)
  (tok : string) (t : Z) :
  Meeting_findById (_id m) db = Some m ->
  type m = online ->
  qrData m = JSON_stringify_qr (_id m) tok t ->
  well_coded (_id m) tok t ->
  body_qrData b = Some (qrData m) ->
  scanQRAttendance e b db = (wrong_channel_qr, db).
Proof.
  intros Hfind Hty Hdata (Hne & Hid & Htok & Hcast & props & Hparse & Hmid & Htk) Hb.
  apply String.eqb_neq in Hid, Htok, Hne.
  unfold scanQRAttendance, scanQR_decide, bind, meetingQrParsed.
  rewrite Hb, Hdata, Hne, Hparse. cbn [get_prop]. rewrite Hmid, Htk.
  cbn [truthy]. rewrite Hid, Htok. cbn [negb orb Meeting_findById_cast].
  rewrite Hcast, Hfind, Hdata, Hne, Hparse. cbn [get_prop]. rewrite Htk.
  cbn [strict_eq]. rewrite String.eqb_refl. cbn [negb]. rewrite Hty. reflexivity.
Qed.

End ByHand.

(** X15. The code an administrator generates for a meeting is
    stored over the previous one, with every other path of every meeting,
    the users and the records as they were.  For an offline meeting a
    scan of the new payload by a member for whom everything else is in
    order is accepted.  For an online meeting, for which the endpoint
    issues a code all the same, every scan of it is turned away as the
    wrong channel. *)
Theorem generated_code_scans {P : Platform} (t : Z) (o : Oracle) (id : string)
  (db : DB) (oid : ObjectId) (m : Meeting) (e : Env) (b : ScanBody) (u : User) :
  castObjectId (JString id) = Some oid ->
  Meeting_findById oid db = Some m ->
  rejects o (_id m) = false ->
  well_coded (_id m) (randomHex o (_id m)) t ->
  let payload := JSON_stringify_qr (_id m) (randomHex o (_id m)) t in
  let db' := snd (generateQR t o id db) in
  body_qrData b = Some payload ->
  fst (generateQR t o id db) = QRGenerated (QRCode_toDataURL payload) payload (_id m) /\
  map beside_qr (meetings db') = map beside_qr (meetings db) /\
  users db' = users db /\ attendances db' = attendances db /\
  match type m with
  | offline =>
      in_order (ViaQR e b) db m u ->
      accepted (ViaQR e b) db' (rotated t o (_id m) m) u
  | online => scanQRAttendance e b db' = (wrong_channel_qr, db')
  end.
Proof.
  intros Hcast Hfind Hrej Hcoded payload db' Hb.
  destruct (find_by_id oid db Hfind) as [Hin Hid]. subst oid.
  assert (Hgen : generateQR t o id db =
                 (QRGenerated (QRCode_toDataURL payload) payload (_id m),
                  Meeting_findByIdAndUpdate (_id m) (rotated t o (_id m)) db)).
  { unfold generateQR. rewrite Hcast, Hfind, Hrej. reflexivity. }
  unfold db'. rewrite Hgen. cbn [fst snd].
  split; [reflexivity|].
  split; [apply update_first_proj; reflexivity|].
  split; [reflexivity|]. split; [reflexivity|].
  assert (Hfind' : Meeting_findById (_id m)
                     (Meeting_findByIdAndUpdate (_id m) (rotated t o (_id m)) db)
                   = Some (rotated t o (_id m) m)).
  { rewrite find_updated by reflexivity. rewrite Hfind. reflexivity. }
  destruct (type m) eqn:Hty.
  - intros Horder. eapply displayed_accepted.
    + exact Hfind'.
    + exact Hty.
    + reflexivity.
    + exact Hcoded.
    + exact Hb.
    + eapply in_order_schedule; [| | exact Horder]; reflexivity.
  - apply (@displayed_online_refused P e b _ (rotated t o (_id m) m)
             (randomHex o (_id m)) t).
    + exact Hfind'.
    + exact Hty.
    + reflexivity.
    + exact Hcoded.
    + exact Hb.
Qed.

Lemma generated_code_scans_witness :
  let db' := snd (generateQR (P := Sample.runtime) 1100000 (Sample.oracle []) "m2"
                    Sample.db0) in
  scanQRAttendance (P := Sample.runtime) (Sample.at_ 1200000 "alice")
    (Sample.scan "qr:m2:c0ffee" None) db'
  = (wrong_channel_qr, db').
Proof.
  intros db'.
  refine (proj2 (proj2 (proj2 (proj2
    (@generated_code_scans Sample.runtime 1100000 (Sample.oracle []) "m2" Sample.db0
       "m2" Sample.webinar (Sample.at_ 1200000 "alice")
       (Sample.scan "qr:m2:c0ffee" None) Sample.alice
       eq_refl eq_refl eq_refl _ eq_refl))))).
  split; [discriminate|]. split; [discriminate|]. split; [discriminate|].
  split; [reflexivity|]. eexists. split; [reflexivity|]. split; reflexivity.
Defined.

(** X16. The attendance link an administrator generates for an online
    meeting replaces the previous one, with every other path of every
    meeting, the users and the records as they were.  When the token
    drawn is not blank and held by no meeting, joining through the new
    link by a member for whom everything else is in order is accepted;
    and when no other meeting shared the previous token, the previous
    link is answered with the 404 of an invalid link. *)
Theorem generated_link_opens {P : Platform} (o : Oracle) (id : string) (db : DB)
  (oid : ObjectId) (m : Meeting) (e : Env) (q : MarkRequest) (u : User) :
  castObjectId (JString id) = Some oid ->
  Meeting_findById oid db = Some m ->
  type m = online ->
  rejects o (_id m) = false ->
  NoDup (map _id (meetings db)) ->
  let tok := randomHex o (_id m) in
  let db' := snd (generateAttendanceLink o id db) in
  tok <> "" -> String_trim tok <> "" ->
  (forall x, In x (meetings db) -> attendanceToken x <> tok) ->
  fst (generateAttendanceLink o id db) = LinkGenerated tok (_id m) /\
  map beside_attendanceToken (meetings db') = map beside_attendanceToken (meetings db) /\
  users db' = users db /\ attendances db' = attendances db /\
  (param_token q = tok ->
   in_order (ViaLink e q) db m u ->
   accepted (ViaLink e q) db' (set_attendanceToken tok m) u) /\
  (param_token q = attendanceToken m ->
   param_token q <> "" -> String_trim (param_token q) <> "" ->
   (forall x, In x (meetings db) -> attendanceToken x = attendanceToken m -> x = m) ->
   markAttendance e q db' = (Failure 404 NotFound (Text "Invalid attendance link."), db')).
Proof.
  intros Hcast Hfind Hty Hrej Hnd tok db' Htok Htrim Hnew.
  destruct (find_by_id oid db Hfind) as [Hin Hid]. subst oid.
  assert (Hgen : generateAttendanceLink o id db =
                 (LinkGenerated tok (_id m),
                  Meeting_findByIdAndUpdate (_id m) (set_attendanceToken tok) db)).
  { unfold generateAttendanceLink. rewrite Hcast, Hfind, Hty, Hrej. reflexivity. }
  assert (Hms : meetings db' =
                map (fun d => if String.eqb (_id d) (_id m)
                              then set_attendanceToken tok d else d) (meetings db)).
  { unfold db'. rewrite Hgen. cbn [snd Meeting_findByIdAndUpdate meetings].
    apply update_first_map. exact Hnd. }
  assert (Husers : users db' = users db) by (unfold db'; rewrite Hgen; reflexivity).
  assert (Hatts : attendances db' = attendances db)
    by (unfold db'; rewrite Hgen; reflexivity).
  clearbody db'.
  split; [rewrite Hgen; reflexivity|].
  split.
  { rewrite Hms, map_map. apply map_ext. intros d.
    destruct (String.eqb (_id d) (_id m)); reflexivity. }
  split; [exact Husers|]. split; [exact Hatts|].
  split.
  - intros Hq Horder.
    assert (Hreach : reaches_window (ViaLink e q) db' (set_attendanceToken tok m)).
    { cbn [reaches_window]. rewrite Hq.
      split; [exact Htok|]. split; [exact Htrim|]. split; [|exact Hty].
      unfold Meeting_findByToken. rewrite Hms. apply find_unique.
      - apply in_map_iff. exists m. rewrite String.eqb_refl. auto.
      - cbn. apply String.eqb_refl.
      - intros x Hx Hxtok. apply in_map_iff in Hx as (x0 & Hx0 & Hin0).
        apply String.eqb_eq in Hxtok.
        destruct (String.eqb (_id x0) (_id m)) eqn:Hid0.
        + apply String.eqb_eq in Hid0.
          assert (x0 = m) by (apply (unique_id (meetings db)); assumption).
          subst x0. symmetry. exact Hx0.
        + subst x. exfalso. apply (Hnew x0 Hin0 Hxtok). }
    assert (Hadm : admissible (ViaLink e q) db' (set_attendanceToken tok m) u /\
                   insert_fault (env_of (ViaLink e q)) = false).
    { apply admissible_in_order; [exact Hreach|].
      eapply in_order_schedule; [| exact Husers | exact Horder]. reflexivity. }
    apply admissible_accepted; apply Hadm.
  - intros Hq Hne Htr Hsole.
    apply String.eqb_neq in Hne, Htr.
    unfold markAttendance, mark_decide. rewrite Hne, Htr. cbn [orb].
    replace (Meeting_findByToken (param_token q) db') with (@None Meeting);
      [reflexivity|].
    symmetry. unfold Meeting_findByToken. rewrite Hms. apply find_absent.
    intros x Hx. apply in_map_iff in Hx as (x0 & Hx0 & Hin0).
    apply String.eqb_neq. intros Hxtok.
    destruct (String.eqb (_id x0) (_id m)) eqn:Hid0.
    + subst x. cbn in Hxtok. apply (Hnew m Hin). congruence.
    + subst x. assert (x0 = m) by (apply Hsole; [assumption | congruence]).
      subst x0. rewrite String.eqb_refl in Hid0. discriminate.
Qed.

Lemma generated_link_opens_witness :
  let db' := snd (generateAttendanceLink (P := Sample.runtime) (Sample.oracle []) "m2"
                    Sample.db0) in
  accepted (P := Sample.runtime)
    (ViaLink (Sample.at_ 1200000 "bob") (Sample.open_link "c0ffee"))
    db' (set_attendanceToken "c0ffee" Sample.webinar) Sample.bob /\
  markAttendance (P := Sample.runtime) (Sample.at_ 1200000 "bob")
    (Sample.open_link "linkB") db'
  = (Failure 404 NotFound (Text "Invalid attendance link."), db').
Proof.
  intros db'.
  destruct (@generated_link_opens Sample.runtime (Sample.oracle []) "m2" Sample.db0
              "m2" Sample.webinar (Sample.at_ 1200000 "bob")
              (Sample.open_link "c0ffee") Sample.bob
              eq_refl eq_refl eq_refl eq_refl
              ltac:(repeat constructor; cbn; intuition discriminate)
              ltac:(discriminate) ltac:(discriminate)
              ltac:(intros x [<- | [<- | [<- | []]]]; discriminate))
    as (_ & _ & _ & _ & Hnew & _).
  destruct (@generated_link_opens Sample.runtime (Sample.oracle []) "m2" Sample.db0
              "m2" Sample.webinar (Sample.at_ 1200000 "bob")
              (Sample.open_link "linkB") Sample.bob
              eq_refl eq_refl eq_refl eq_refl
              ltac:(repeat constructor; cbn; intuition discriminate)
              ltac:(discriminate) ltac:(discriminate)
              ltac:(intros x [<- | [<- | [<- | []]]]; discriminate))
    as (_ & _ & _ & _ & _ & Hold).
  split.
  - apply Hnew; [reflexivity|].
    split; [unfold endTime; cbn; lia|]. split; [reflexivity|].
    split; [reflexivity|]. split; reflexivity.
  - apply Hold; [reflexivity | discriminate | discriminate |].
    intros x [<- | [<- | [<- | []]]]; intros Hx; try reflexivity; discriminate.
Defined.

(** ** Toggles *)

Lemma update_first_twice (id : ObjectId) (f g : Meeting -> Meeting) (ms : list Meeting) :
  (forall d, _id (f d) = _id d) ->
  update_first id g (update_first id f ms) = update_first id (fun d => g (f d)) ms.
Proof.
  intros Hf. induction ms as [|m ms IH]; cbn; [reflexivity|].
  destruct (String.eqb (_id m) id) eqn:Hm; cbn.
  - rewrite Hf, Hm. reflexivity.
  - rewrite Hm, IH. reflexivity.
Qed.

Lemma update_first_fixed (id : ObjectId) (h : Meeting -> Meeting) (ms : list Meeting)
  (m : Meeting) :
  find (fun x => String.eqb (_id x) id) ms = Some m ->
  h m = m ->
  update_first id h ms = ms.
Proof.
  intros Hfind Hh. induction ms as [|x ms IH]; cbn in *; [reflexivity|].
  destruct (String.eqb (_id x) id).
  - injection Hfind as ->. rewrite Hh. reflexivity.
  - rewrite IH by exact Hfind. reflexivity.
Qed.

Lemma set_isActive_back (m : Meeting) (b : bool) :
  set_isActive (isActive m) (set_isActive b m) = m.
Proof. destruct m; reflexivity. Qed.

Lemma set_qrPaused_back (m : Meeting) (b : bool) :
  set_qrPaused (qrPaused m) (set_qrPaused b m) = m.
Proof. destruct m; reflexivity. Qed.

(** X17. The two toggles of the meeting controller undo
    themselves: two calls of toggle-active in a row, and two calls of
    qr-pause in a row, leave the store (and the instant of the last
    rotation) as they were, whether or not the meeting exists; each
    successful call reports the flag negated. *)
Theorem toggles_are_involutions {P : Platform} (id : string) (db : DB) (s : Server) :
  snd (toggleActive id (snd (toggleActive id db))) = db /\
  snd (toggleQRPause id (snd (toggleQRPause id s))) = s /\
  (forall m, fst (toggleActive id db) = ActiveToggled m ->
             exists m0, Meeting_findById (_id m) db = Some m0 /\
                        isActive m = negb (isActive m0) /\
                        beside_isActive m = beside_isActive m0 /\
                        Meeting_findById (_id m) (snd (toggleActive id db)) = Some m).
Proof.
  split; [|split].
  - unfold toggleActive. destruct (castObjectId (JString id)) as [oid|] eqn:Hcast;
      cbn [snd]; [|reflexivity].
    destruct (Meeting_findById oid db) as [m|] eqn:Hfind; cbn [snd].
    + rewrite find_updated by reflexivity. rewrite Hfind. cbn [option_map snd].
      unfold Meeting_findByIdAndUpdate. cbn [meetings users attendances].
      rewrite update_first_twice by reflexivity.
      rewrite (update_first_fixed oid _ (meetings db) Hfind).
      * destruct db; reflexivity.
      * cbn [set_isActive isActive]. rewrite negb_involutive.
        apply set_isActive_back.
    + rewrite Hfind. reflexivity.
  - unfold toggleQRPause. destruct (castObjectId (JString id)) as [oid|] eqn:Hcast;
      cbn [snd]; [|reflexivity].
    destruct (Meeting_findById oid (store s)) as [m|] eqn:Hfind; cbn [snd store].
    + rewrite find_updated by reflexivity. rewrite Hfind.
      cbn [option_map snd store lastRefreshedAt].
      unfold Meeting_findByIdAndUpdate. cbn [meetings users attendances].
      rewrite update_first_twice by reflexivity.
      rewrite (update_first_fixed oid _ (meetings (store s)) Hfind).
      * destruct s as [[ms us ats] last]; reflexivity.
      * cbn [set_qrPaused qrPaused]. rewrite negb_involutive.
        apply set_qrPaused_back.
    + rewrite Hfind. reflexivity.
  - intros m Hm. unfold toggleActive in *.
    destruct (castObjectId (JString id)) as [oid|]; [|discriminate].
    destruct (Meeting_findById oid db) as [m0|] eqn:Hfind; [|discriminate].
    cbn [fst snd] in *. injection Hm as <-.
    destruct (find_by_id oid db Hfind) as [_ Hid]. cbn [_id set_isActive].
    rewrite Hid. exists m0. split; [exact Hfind|].
    split; [reflexivity|]. split; [reflexivity|].
    rewrite find_updated by reflexivity. rewrite Hfind. reflexivity.
Qed.

(** X18. A manual override lasts until the next tick at most once the
    meeting has started: after toggle-active and a tick without
    rejections, a meeting whose start has passed is live exactly when it
    has not ended, whatever the toggle did.  Only before the start does
    the override stand: the meeting is then live exactly when the toggle
    switched it on. *)
Theorem override_lasts_until_tick {P : Platform} (t : Z) (o : Oracle) (id : string)
  (db : DB) (oid : ObjectId) (m : Meeting) :
  castObjectId (JString id) = Some oid ->
  Meeting_findById oid db = Some m ->
  clean o ->
  NoDup (map _id (meetings db)) ->
  exists m',
    Meeting_findById oid (checkAndUpdateMeetings t o (snd (toggleActive id db)))
    = Some m' /\
    (dateTime m <= t -> isActive m' = (t <? endTime m)) /\
    (t < dateTime m -> isActive m' = negb (isActive m) && (t <? endTime m)).
Proof.
  intros Hcast Hfind Hclean Hnd.
  unfold toggleActive. rewrite Hcast, Hfind. cbn [snd].
  set (m1 := set_isActive (negb (isActive m)) m).
  rewrite tick_find; [|exact Hclean|].
  - rewrite find_updated by reflexivity. rewrite Hfind. cbn [option_map].
    exists (tick_doc t o m1).
    split; [reflexivity|]. rewrite tick_doc_flag.
    change (endTime m1) with (endTime m). change (dateTime m1) with (dateTime m).
    change (isActive m1) with (negb (isActive m)).
    split; intros Ht.
    + replace (dateTime m <=? t) with true by lia. rewrite orb_true_r. reflexivity.
    + replace (dateTime m <=? t) with false by lia. rewrite orb_false_r. reflexivity.
  - cbn [Meeting_findByIdAndUpdate meetings].
    rewrite update_first_ids; [exact Hnd | reflexivity].
Qed.

Lemma override_lasts_until_tick_witness :
  option_map isActive
    (Meeting_findById "m1"
       (checkAndUpdateMeetings (P := Sample.runtime) 1200000 (Sample.oracle [])
          (snd (toggleActive (P := Sample.runtime) "m1" Sample.db0))))
  = Some true.
Proof.
  destruct (@override_lasts_until_tick Sample.runtime 1200000 (Sample.oracle []) "m1"
              Sample.db0 "m1" Sample.standup eq_refl eq_refl (fun _ => eq_refl)
              ltac:(repeat constructor; cbn; intuition discriminate))
    as (m' & Hfind & Hstarted & _).
  rewrite Hfind. cbn [option_map]. rewrite Hstarted by (cbn; lia). reflexivity.
Defined.

(** ** Deleting a meeting *)

Lemma filter_all {A : Type} (p : A -> bool) (l : list A) :
  (forall x, In x l -> p x = true) -> filter p l = l.
Proof.
  induction l as [|a l IH]; intros Hall; cbn; [reflexivity|].
  rewrite (Hall a (or_introl eq_refl)), IH; [reflexivity|].
  intros x Hx. apply Hall. right. exact Hx.
Qed.

Lemma remove_first_filter (id : ObjectId) (ms : list Meeting) :
  NoDup (map _id ms) ->
  remove_first id ms = filter (fun x => negb (String.eqb (_id x) id)) ms.
Proof.
  induction ms as [|m ms IH]; intros Hnd; cbn; [reflexivity|].
  inversion Hnd as [|x l Hnotin Hnd']; subst.
  destruct (String.eqb (_id m) id) eqn:Hm; cbn.
  - symmetry. apply filter_all. intros x Hx.
    apply negb_true_iff, String.eqb_neq. intros Heq.
    apply String.eqb_eq in Hm. apply Hnotin. rewrite Hm, <- Heq.
    apply in_map. exact Hx.
  - rewrite IH by exact Hnd'. reflexivity.
Qed.

(** X19. Deleting a meeting removes that meeting and nothing else
    (ids being unique): it is no longer found, every other meeting and
    every user is as before, and so is every attendance record, those of
    the deleted meeting included, which the attendance list of its id
    still returns.  Deleting it a second time is answered with 404. *)
Theorem delete_keeps_records {P : Platform} (id : string) (db : DB) (oid : ObjectId)
  (m : Meeting) :
  castObjectId (JString id) = Some oid ->
  Meeting_findById oid db = Some m ->
  NoDup (map _id (meetings db)) ->
  let db' := snd (deleteMeeting id db) in
  fst (deleteMeeting id db) = Deleted /\
  Meeting_findById oid db' = None /\
  (forall x, In x (meetings db') <-> In x (meetings db) /\ _id x <> oid) /\
  users db' = users db /\
  attendances db' = attendances db /\
  getMeetingAttendance id db' = getMeetingAttendance id db /\
  deleteMeeting id db' = (AdminFailure 404 NotFound (Text "Meeting not found."), db').
Proof.
  intros Hcast Hfind Hnd db'.
  assert (Hdel : deleteMeeting id db =
                 (Deleted, {| meetings := filter (fun x => negb (String.eqb (_id x) oid))
                                            (meetings db);
                              users := users db; attendances := attendances db |})).
  { unfold deleteMeeting. rewrite Hcast, Hfind, remove_first_filter by exact Hnd.
    reflexivity. }
  unfold db'. rewrite Hdel. cbn [fst snd meetings users attendances]. clear db'.
  assert (Hgone : Meeting_findById oid
                    {| meetings := filter (fun x => negb (String.eqb (_id x) oid))
                                     (meetings db);
                       users := users db; attendances := attendances db |} = None).
  { apply find_absent. intros x Hx. apply filter_In in Hx as [_ Hx].
    apply negb_true_iff in Hx. exact Hx. }
  split; [reflexivity|]. split; [exact Hgone|]. split.
  { intros x. rewrite filter_In, negb_true_iff, String.eqb_neq. reflexivity. }
  split; [reflexivity|]. split; [reflexivity|]. split.
  - unfold getMeetingAttendance. reflexivity.
  - unfold deleteMeeting. rewrite Hcast, Hgone. reflexivity.
Qed.

Lemma delete_keeps_records_witness :
  Meeting_findById "m2" (snd (deleteMeeting (P := Sample.runtime) "m2" Sample.db0)) = None.
Proof.
  exact (proj1 (proj2 (@delete_keeps_records Sample.runtime "m2" Sample.db0 "m2"
                         Sample.webinar eq_refl eq_refl
                         ltac:(repeat constructor; cbn; intuition discriminate)))).
Defined.

(** ** The list of meetings in progress *)

Lemma Sorted_weaken {A : Type} (R S : A -> A -> Prop) (l : list A) :
  (forall a b, R a b -> S a b) -> Sorted R l -> Sorted S l.
Proof.
  intros HRS. induction 1 as [|a l Hs IH Hhd]; constructor; [exact IH|].
  destruct Hhd; constructor. apply HRS. assumption.
Qed.

(** X20. The list of meetings in progress is decided by the clock
    alone: it holds exactly the stored meetings with [dateTime <= t <
    dateTime + duration], latest start first, whatever their live flag
    says; each of them (its duration not being 0) is inside the window
    the attendance handlers apply. *)
Theorem active_list_follows_clock (t : Z) (db : DB) :
  (forall m, In m (getActiveMeetings t db) <->
             In m (meetings db) /\ dateTime m <= t < dateTime m + duration m * 60000) /\
  Sorted (fun a b => dateTime b <= dateTime a) (getActiveMeetings t db) /\
  (forall m, In m (getActiveMeetings t db) -> duration m <> 0 ->
             dateTime m <= t < endTime m) /\
  (forall f, map _id (getActiveMeetings t (recache f db))
             = map _id (getActiveMeetings t db)).
Proof.
  unfold getActiveMeetings.
  set (sel := fun m => (dateTime m <=? t) && (t <? dateTime m + duration m * 60000)).
  assert (Hmem : forall m, In m (sort_by (fun m => - dateTime m) (filter sel (meetings db)))
                           <-> In m (meetings db) /\
                               dateTime m <= t < dateTime m + duration m * 60000).
  { intros m. split.
    - intros Hin. apply (Permutation_in _ (sort_by_perm _ _)) in Hin.
      apply filter_In in Hin as [Hin Hsel]. unfold sel in Hsel.
      apply andb_prop in Hsel as [H1 H2]. split; [exact Hin | lia].
    - intros [Hin Hwin]. apply (Permutation_in _ (Permutation_sym (sort_by_perm _ _))).
      apply filter_In. split; [exact Hin|]. unfold sel.
      apply andb_true_intro. split; lia. }
  split; [exact Hmem|]. split; [|split].
  - apply (Sorted_weaken (R := fun a b => - dateTime a <= - dateTime b));
      [intros a b; lia | apply sort_by_sorted].
  - intros m Hin Hdur. apply Hmem in Hin as [_ Hwin]. unfold endTime.
    apply Z.eqb_neq in Hdur. rewrite Hdur. exact Hwin.
  - intros f. unfold recache. cbn [meetings].
    assert (Hins : forall x l,
               insert_by (fun m => - dateTime m) (set_isActive (f x) x)
                 (map (fun m => set_isActive (f m) m) l)
               = map (fun m => set_isActive (f m) m)
                   (insert_by (fun m => - dateTime m) x l)).
    { intros x l. induction l as [|y l IH]; cbn; [reflexivity|].
      destruct (- dateTime x <=? - dateTime y); cbn; [reflexivity|].
      rewrite IH. reflexivity. }
    assert (Hsort : forall l,
               sort_by (fun m => - dateTime m)
                 (filter sel (map (fun m => set_isActive (f m) m) l))
               = map (fun m => set_isActive (f m) m)
                   (sort_by (fun m => - dateTime m) (filter sel l))).
    { induction l as [|y l IH]; cbn; [reflexivity|].
      change (sel (set_isActive (f y) y)) with (sel y).
      destruct (sel y); cbn; [|exact IH].
      unfold sort_by in IH. rewrite IH. apply Hins. }
    rewrite Hsort, map_map. reflexivity.
Qed.

(** ** CSV export *)

Lemma csv_body_reads (s rest : string) :
  after_cell rest = true ->
  csv_body (double_quotes s ++ String dquote rest)%string = Some (s, rest).
Proof.
  intros Hrest. induction s as [|c s IH].
  - cbn [double_quotes String.append csv_body]. rewrite Ascii.eqb_refl.
    destruct rest as [|c' rest']; [reflexivity|].
    cbn [after_cell] in Hrest. apply negb_true_iff in Hrest. rewrite Hrest. reflexivity.
  - cbn [double_quotes]. destruct (Ascii.eqb c dquote) eqn:Hc.
    + apply Ascii.eqb_eq in Hc. subst c.
      cbn [String.append csv_body]. rewrite Ascii.eqb_refl.
      rewrite IH. reflexivity.
    + cbn [String.append csv_body]. rewrite Hc, IH. reflexivity.
Qed.

(** X22. The quoting of the title and name cells of the CSV exports
    can be read back: a reader that takes a quoted cell off the front of
    a row, pairing doubled quotes, gets exactly the original text and
    exactly the rest of the row, whatever commas, quotes and line breaks
    the text holds. *)
Theorem csv_cell_reads_back (s rest : string) :
  after_cell rest = true ->
  csv_read (csv_cell s ++ rest)%string = Some (s, rest).
Proof.
  intros Hrest. unfold csv_cell, csv_read. cbn [String.append].
  rewrite Ascii.eqb_refl.
  replace ((double_quotes s ++ String dquote EmptyString) ++ rest)%string
    with (double_quotes s ++ String dquote rest)%string.
  - apply csv_body_reads. exact Hrest.
  - induction (double_quotes s) as [|c d IH]; cbn [String.append];
      [reflexivity | f_equal; exact IH].
Qed.

Lemma csv_cell_reads_back_witness :
  let title := ("Q&A, part " ++ String dquote ("two" ++ String dquote ""))%string in
  csv_read (csv_cell title ++ ",offline")%string = Some (title, ",offline").
Proof.
  intros title. apply (csv_cell_reads_back title ",offline"). reflexivity.
Defined.





(** ** The status tabs of the meeting list *)

(** X24. At any instant the three status filters of the meeting list
    sort a meeting whose duration is not negative under exactly one
    heading: upcoming before its start, active from its start to its end,
    past from its end on; and the active filter selects the meetings of
    the list of meetings in progress. *)
Theorem status_filters_partition (t : Z) (m : Meeting) (db : DB) :
  0 <= duration m ->
  (status_filter "upcoming" t m = true <-> t < dateTime m) /\
  (status_filter "active" t m = true <->
   dateTime m <= t < dateTime m + duration m * 60000) /\
  (status_filter "past" t m = true <-> dateTime m + duration m * 60000 <= t) /\
  (if status_filter "upcoming" t m
   then status_filter "active" t m = false /\ status_filter "past" t m = false
   else if status_filter "active" t m
        then status_filter "past" t m = false
        else status_filter "past" t m = true) /\
  Permutation (filter (status_filter "active" t) (meetings db)) (getActiveMeetings t db).
Proof.
  intros Hdur. unfold status_filter. cbn [String.eqb Ascii.eqb Bool.eqb].
  split; [apply Z.ltb_lt|]. split.
  { split; [intros H; apply andb_prop in H; lia
           | intros H; apply andb_true_intro; split; lia]. }
  split; [apply Z.leb_le|]. split.
  - destruct (t <? dateTime m) eqn:H1; [split; lia|].
    destruct ((dateTime m <=? t) && (t <? dateTime m + duration m * 60000)) eqn:H2.
    + apply andb_prop in H2. lia.
    + apply andb_false_iff in H2. lia.
  - symmetry. apply sort_by_perm.
Qed.

Lemma status_filters_partition_witness :
  status_filter "active" 1200000 Sample.standup = true /\
  status_filter "past" 1200000 Sample.standup = false.
Proof.
  pose proof (@status_filters_partition 1200000 Sample.standup Sample.db0
                ltac:(cbn; lia)) as (_ & _ & _ & H & _).
  change (status_filter "upcoming" 1200000 Sample.standup) with false in H.
  change (status_filter "active" 1200000 Sample.standup) with true in H.
  split; [reflexivity | exact H].
Defined.

(** ** The radius of a fence *)

Lemma not_nan_spec (x : float) :
  PrimFloat.is_nan x = false -> Prim2SF x <> S754_nan.
Proof.
  unfold PrimFloat.is_nan. rewrite FloatAxioms.eqb_spec. intros H Hnan.
  rewrite Hnan in H. discriminate.
Qed.

Lemma SFcompare_total (x y : spec_float) :
  x <> S754_nan -> y <> S754_nan -> SFcompare x y <> None.
Proof.
  destruct x as [sx | sx | | sx mx ex], y as [sy | sy | | sy my ey]; cbn;
    try congruence;
    try destruct sx; try destruct sy; try discriminate;
    destruct (ex ?= ey); try discriminate;
    destruct (Pos.compare_cont _ _ _); discriminate.
Qed.

Lemma float_ltb_leb (a b : float) :
  (a <? b)%float = true -> (a <=? b)%float = true.
Proof.
  rewrite FloatAxioms.ltb_spec, FloatAxioms.leb_spec. unfold SFltb, SFleb.
  destruct (SFcompare (Prim2SF a) (Prim2SF b)) as [[ | | ]|]; congruence.
Qed.

Lemma float_tie (a b : float) :
  PrimFloat.is_nan a = false -> PrimFloat.is_nan b = false ->
  (a <? b)%float = false -> (b <? a)%float = false ->
  (a =? b)%float = true /\ (a <=? b)%float = true /\ (b <=? a)%float = true.
Proof.
  intros Ha Hb. rewrite !FloatAxioms.ltb_spec, !FloatAxioms.leb_spec, FloatAxioms.eqb_spec. unfold SFltb, SFleb, SFeqb.
  pose proof (@SFcompare_total _ _ (@not_nan_spec a Ha) (@not_nan_spec b Hb)) as Htotal.
  rewrite (SFcompare_antisym (Prim2SF a) (Prim2SF b)).
  destruct (SFcompare (Prim2SF a) (Prim2SF b)) as [[ | | ]|]; cbn; try congruence; auto.
Qed.

Lemma float_leb_not_nan (a b : float) :
  (a <=? b)%float = true -> PrimFloat.is_nan a = false /\ PrimFloat.is_nan b = false.
Proof.
  unfold PrimFloat.is_nan. rewrite FloatAxioms.leb_spec, !FloatAxioms.eqb_spec. unfold SFleb, SFeqb.
  destruct (Prim2SF a) as [sa | sa | | sa ma ea], (Prim2SF b) as [sb | sb | | sb mb eb];
    cbn; try discriminate; intros _;
    try destruct sa; try destruct sb; cbn;
    rewrite ?Z.compare_refl, ?Pos.compare_cont_refl; auto.
Qed.

Lemma ten_up_not_zero (x : float) :
  (10 <=? x)%float = true -> (x =? 0)%float = false.
Proof.
  rewrite FloatAxioms.leb_spec, FloatAxioms.eqb_spec. unfold SFleb, SFeqb.
  replace (Prim2SF 10) with (S754_finite false 5629499534213120 (-49))
    by (vm_compute; reflexivity).
  replace (Prim2SF 0) with (S754_zero false) by (vm_compute; reflexivity).
  destruct (Prim2SF x) as [s | s | | s mx ex]; cbn; try discriminate;
    destruct s; cbn; congruence.
Qed.

Lemma above_5000_above_10 (x : float) :
  (5000 <? x)%float = true -> (10 <? x)%float = true.
Proof.
  rewrite !FloatAxioms.ltb_spec. unfold SFltb.
  replace (Prim2SF 10) with (S754_finite false 5629499534213120 (-49))
    by (vm_compute; reflexivity).
  replace (Prim2SF 5000) with (S754_finite false 5497558138880000 (-40))
    by (vm_compute; reflexivity).
  destruct (Prim2SF x) as [s | s | | s mx ex]; cbn [SFcompare]; try discriminate;
    destruct s; try discriminate; try reflexivity.
  destruct (Z.compare_spec (-40) ex) as [He | He | He]; try discriminate.
  - subst ex. intros _. reflexivity.
  - intros _. destruct (Z.compare_spec (-49) ex) as [He' | He' | He'];
      [lia | reflexivity | lia].
Qed.

Lemma clamp_bounds (v : float) :
  PrimFloat.is_nan v = false ->
  (10 <=? Math_min 5000 (Math_max 10 v))%float = true /\
  (Math_min 5000 (Math_max 10 v) <=? 5000)%float = true.
Proof.
  intros Hnan. unfold Math_max.
  change (PrimFloat.is_nan 10) with false. rewrite Hnan. cbn [orb].
  destruct (10 <? v)%float eqn:H1.
  - unfold Math_min. change (PrimFloat.is_nan 5000) with false.
    rewrite Hnan. cbn [orb].
    destruct (5000 <? v)%float eqn:H2; [split; reflexivity|].
    destruct (v <? 5000)%float eqn:H3.
    + split; apply float_ltb_leb; assumption.
    + change (PrimFloat.get_sign 5000) with false. cbv iota.
      split; [apply float_ltb_leb; exact H1|].
      apply (@float_tie 5000%float v); auto.
  - assert (Hmax : (if (v <? 10)%float then 10%float
                    else if PrimFloat.get_sign 10 then v else 10%float) = 10%float)
      by (destruct (v <? 10)%float; reflexivity).
    rewrite Hmax. split; reflexivity.
Qed.

(** X25. The radius stored with an enabled fence, on creating and on
    editing a meeting, lies between 10 and 5000 metres whatever number
    the request carries, so that the bounds of the schema are never
    violated: a number in that range is kept, a missing one, 0 or NaN
    gives the default of 200, anything below 10 gives 10 and anything
    above 5000 gives 5000.  A fence is stored only with both coordinates
    numbers and not both 0. *)
Theorem fence_radius_in_bounds (lat lng req : option float) :
  (10 <=? fence_radius req)%float = true /\
  (fence_radius req <=? 5000)%float = true /\
  (req = None -> fence_radius req = 200%float) /\
  (forall x, req = Some x ->
     ((10 <=? x)%float = true -> (x <=? 5000)%float = true ->
      (fence_radius req =? x)%float = true) /\
     ((x <? 10)%float = true -> (x =? 0)%float = false ->
      fence_radius req = 10%float) /\
     ((5000 <? x)%float = true -> fence_radius req = 5000%float)) /\
  (forall g, requested_fence lat lng req = Some g ->
     enabled g = true /\ radius g = fence_radius req /\
     exists la ln, lat = Some la /\ lng = Some ln /\
                   center_lat g = la /\ center_lng g = ln /\
                   ((la =? 0)%float && (ln =? 0)%float = false)).
Proof.
  assert (Hreq : exists v, fence_radius req = Math_min 5000 (Math_max 10 v) /\
                           PrimFloat.is_nan v = false).
  { unfold fence_radius. destruct req as [x|]; [|exists 200%float; split; reflexivity].
    destruct (truthy (Some (JNumber x))) eqn:Ht; [|exists 200%float; split; reflexivity].
    exists x. split; [reflexivity|]. cbn in Ht.
    apply negb_true_iff, orb_false_iff in Ht. apply Ht. }
  destruct Hreq as (v & Hv & Hnan).
  split; [rewrite Hv; apply clamp_bounds; exact Hnan|].
  split; [rewrite Hv; apply clamp_bounds; exact Hnan|].
  split; [intros ->; reflexivity|].
  split.
  - intros x ->. clear v Hv Hnan. unfold fence_radius. cbn [truthy].
    split; [|split].
    + intros Hlo Hhi.
      destruct (@float_leb_not_nan _ _ Hlo) as [_ Hnan].
      rewrite (@ten_up_not_zero x Hlo), Hnan. cbn [orb negb].
      unfold Math_max. change (PrimFloat.is_nan 10) with false. rewrite Hnan. cbn [orb].
      assert (Hself : (x =? x)%float = true).
      { unfold PrimFloat.is_nan in Hnan. apply negb_false_iff in Hnan. exact Hnan. }
      destruct (10 <? x)%float eqn:H1.
      * unfold Math_min. change (PrimFloat.is_nan 5000) with false.
        rewrite Hnan. cbn [orb].
        rewrite (@float_leb_not_gt _ _ Hhi).
        destruct (x <? 5000)%float; [exact Hself|].
        change (PrimFloat.get_sign 5000) with false. exact Hself.
      * rewrite (@float_leb_not_gt _ _ Hlo).
        change (PrimFloat.get_sign 10) with false. cbv iota.
        change (Math_min 5000 10) with 10%float.
        apply (@float_tie 10%float x); auto.
        apply float_leb_not_gt. exact Hlo.
    + intros Hlt Hnz.
      assert (Hnan : PrimFloat.is_nan x = false)
        by (apply (@float_leb_not_nan x 10%float), float_ltb_leb; exact Hlt).
      rewrite Hnz, Hnan. cbn [orb negb].
      unfold Math_max. change (PrimFloat.is_nan 10) with false. rewrite Hnan. cbn [orb].
      rewrite (@float_leb_not_gt _ _ (@float_ltb_leb _ _ Hlt)), Hlt. reflexivity.
    + intros Hgt.
      assert (H1 : (10 <? x)%float = true) by (apply above_5000_above_10; exact Hgt).
      assert (Hle : (10 <=? x)%float = true) by (apply float_ltb_leb; exact H1).
      destruct (@float_leb_not_nan _ _ Hle) as [_ Hnan].
      rewrite (@ten_up_not_zero x Hle), Hnan. cbn [orb negb].
      unfold Math_max. change (PrimFloat.is_nan 10) with false. rewrite Hnan. cbn [orb].
      rewrite H1. unfold Math_min. change (PrimFloat.is_nan 5000) with false.
      rewrite Hnan. cbn [orb]. rewrite Hgt. reflexivity.
  - intros g Hg. unfold requested_fence in Hg.
    destruct lat as [la|]; [|discriminate]. destruct lng as [ln|]; [|discriminate].
    destruct ((la =? 0)%float && (ln =? 0)%float) eqn:Hzero; [discriminate|].
    injection Hg as <-. cbn. split; [reflexivity|]. split; [reflexivity|].
    exists la, ln. auto.
Qed.

(** ** Pagination *)

Lemma float_not_ltb_leb (a b : float) :
  PrimFloat.is_nan a = false -> PrimFloat.is_nan b = false ->
  (a <? b)%float = false -> (b <=? a)%float = true.
Proof.
  intros Ha Hb. rewrite FloatAxioms.ltb_spec, FloatAxioms.leb_spec.
  unfold SFltb, SFleb.
  pose proof (@SFcompare_total _ _ (@not_nan_spec a Ha) (@not_nan_spec b Hb)) as Htotal.
  rewrite (SFcompare_antisym (Prim2SF a) (Prim2SF b)).
  destruct (SFcompare (Prim2SF a) (Prim2SF b)) as [[ | | ]|]; cbn; congruence.
Qed.

Lemma Math_max_one (v : float) :
  PrimFloat.is_nan v = false ->
  Math_max 1 v = if (1 <? v)%float then v else 1%float.
Proof.
  intros Hnan. unfold Math_max. change (PrimFloat.is_nan 1) with false.
  rewrite Hnan. cbn [orb].
  destruct (1 <? v)%float; [reflexivity|].
  destruct (v <? 1)%float; reflexivity.
Qed.

Lemma Math_min_hundred (w : float) :
  PrimFloat.is_nan w = false ->
  Math_min 100 w = if (100 <? w)%float then 100%float else w.
Proof.
  intros Hnan. unfold Math_min. change (PrimFloat.is_nan 100) with false.
  rewrite Hnan. cbn [orb].
  destruct (100 <? w)%float; [reflexivity|].
  destruct (w <? 100)%float; reflexivity.
Qed.

Lemma or_number_not_nan (x d : float) :
  PrimFloat.is_nan d = false -> PrimFloat.is_nan (or_number x d) = false.
Proof.
  intros Hd. unfold or_number. cbn [truthy].
  destruct (x =? 0)%float; cbn [orb negb]; [exact Hd|].
  destruct (PrimFloat.is_nan x) eqn:Hx; cbn [negb]; [exact Hd | exact Hx].
Qed.

Lemma or_number_kept (x d : float) :
  (x =? 0)%float = false -> PrimFloat.is_nan x = false -> or_number x d = x.
Proof. intros H0 Hnan. unfold or_number. cbn [truthy]. rewrite H0, Hnan. reflexivity. Qed.

Lemma or_number_default (x d : float) :
  (x =? 0)%float || PrimFloat.is_nan x = true -> or_number x d = d.
Proof. intros H. unfold or_number. cbn [truthy]. rewrite H. reflexivity. Qed.

Lemma one_up_not_zero (x : float) :
  (1 <=? x)%float = true -> (x =? 0)%float = false.
Proof.
  rewrite FloatAxioms.leb_spec, FloatAxioms.eqb_spec. unfold SFleb, SFeqb.
  replace (Prim2SF 1) with (S754_finite false 4503599627370496 (-52))
    by (vm_compute; reflexivity).
  replace (Prim2SF 0) with (S754_zero false) by (vm_compute; reflexivity).
  destruct (Prim2SF x) as [s | s | | s mx ex]; cbn; try discriminate;
    destruct s; cbn; congruence.
Qed.

Lemma above_100_above_1 (x : float) :
  (100 <? x)%float = true -> (1 <? x)%float = true.
Proof.
  rewrite !FloatAxioms.ltb_spec. unfold SFltb.
  replace (Prim2SF 1) with (S754_finite false 4503599627370496 (-52))
    by (vm_compute; reflexivity).
  replace (Prim2SF 100) with (S754_finite false 7036874417766400 (-46))
    by (vm_compute; reflexivity).
  destruct (Prim2SF x) as [s | s | | s mx ex]; cbn [SFcompare]; try discriminate;
    destruct s; try discriminate; try reflexivity.
  destruct (Z.compare_spec (-46) ex) as [He | He | He]; try discriminate.
  - subst ex. intros _. reflexivity.
  - intros _. destruct (Z.compare_spec (-52) ex) as [He' | He' | He'];
      [lia | reflexivity | lia].
Qed.

Lemma float_self (x : float) : PrimFloat.is_nan x = false -> (x =? x)%float = true.
Proof. unfold PrimFloat.is_nan. intros H. apply negb_false_iff in H. exact H. Qed.

(** X21. The pagination parameters of [listMeetings] and [listUsers]
    are sanitised whatever [parseInt] returns for [page] and [limit], be
    it NaN, 0, a negative number, a number beyond every collection or an
    infinity: the page number is at least 1 and the limit lies between 1
    and 100, so that no query asks for more than 100 documents.  NaN and
    0 give the defaults, page 1 and limit 20; a value in range is kept; a
    limit above 100 gives 100; a page or limit below 1 that is not 0
    gives 1; and [hasPrev] is set exactly when the parsed page is greater
    than 1. *)
Theorem pagination_is_sanitised (parsedPage parsedLimit : float) :
  (1 <=? pageNum parsedPage)%float = true /\
  (1 <=? limitNum parsedLimit)%float = true /\
  (limitNum parsedLimit <=? 100)%float = true /\
  ((parsedPage =? 0)%float || PrimFloat.is_nan parsedPage = true ->
   pageNum parsedPage = 1%float) /\
  ((parsedLimit =? 0)%float || PrimFloat.is_nan parsedLimit = true ->
   limitNum parsedLimit = 20%float) /\
  ((1 <=? parsedPage)%float = true ->
   (pageNum parsedPage =? parsedPage)%float = true) /\
  ((parsedPage <? 1)%float = true -> pageNum parsedPage = 1%float) /\
  ((1 <=? parsedLimit)%float = true -> (parsedLimit <=? 100)%float = true ->
   (limitNum parsedLimit =? parsedLimit)%float = true) /\
  ((100 <? parsedLimit)%float = true -> limitNum parsedLimit = 100%float) /\
  ((parsedLimit <? 1)%float = true -> (parsedLimit =? 0)%float = false ->
   limitNum parsedLimit = 1%float) /\
  hasPrev parsedPage = (1 <? parsedPage)%float.
Proof.
  assert (Hp : PrimFloat.is_nan (or_number parsedPage 1) = false)
    by (apply or_number_not_nan; reflexivity).
  assert (Hl : PrimFloat.is_nan (or_number parsedLimit 20) = false)
    by (apply or_number_not_nan; reflexivity).
  assert (Hpage : pageNum parsedPage =
                  if (1 <? or_number parsedPage 1)%float
                  then or_number parsedPage 1 else 1%float)
    by (apply Math_max_one; exact Hp).
  assert (Hlimit : limitNum parsedLimit =
                   if (1 <? or_number parsedLimit 20)%float
                   then if (100 <? or_number parsedLimit 20)%float
                        then 100%float else or_number parsedLimit 20
                   else 1%float).
  { unfold limitNum. rewrite (@Math_max_one _ Hl).
    destruct (1 <? or_number parsedLimit 20)%float; [|reflexivity].
    apply Math_min_hundred. exact Hl. }
  split; [|split; [|split; [|split; [|split; [|split; [|split; [|split;
    [|split; [|split]]]]]]]]].
  - rewrite Hpage. destruct (1 <? or_number parsedPage 1)%float eqn:H1;
      [apply float_ltb_leb; exact H1 | reflexivity].
  - rewrite Hlimit. destruct (1 <? or_number parsedLimit 20)%float eqn:H1;
      [|reflexivity].
    destruct (100 <? or_number parsedLimit 20)%float;
      [reflexivity | apply float_ltb_leb; exact H1].
  - rewrite Hlimit. destruct (1 <? or_number parsedLimit 20)%float eqn:H1;
      [|reflexivity].
    destruct (100 <? or_number parsedLimit 20)%float eqn:H2; [reflexivity|].
    apply float_not_ltb_leb; [reflexivity | exact Hl | exact H2].
  - intros H. rewrite Hpage, (@or_number_default _ _ H). reflexivity.
  - intros H. rewrite Hlimit, (@or_number_default _ _ H). reflexivity.
  - intros H1. destruct (@float_leb_not_nan _ _ H1) as [_ Hnan].
    rewrite Hpage, (@or_number_kept _ _ (@one_up_not_zero _ H1) Hnan).
    destruct (1 <? parsedPage)%float eqn:Hlt; [apply float_self; exact Hnan|].
    apply (@float_tie 1%float parsedPage); auto.
    apply float_leb_not_gt. exact H1.
  - intros Hlt.
    assert (Hle : (parsedPage <=? 1)%float = true) by (apply float_ltb_leb; exact Hlt).
    rewrite Hpage. unfold or_number.
    destruct (truthy (Some (JNumber parsedPage))); [|reflexivity].
    rewrite (@float_leb_not_gt _ _ Hle). reflexivity.
  - intros H1 H100. destruct (@float_leb_not_nan _ _ H1) as [_ Hnan].
    rewrite Hlimit, (@or_number_kept _ _ (@one_up_not_zero _ H1) Hnan).
    rewrite (@float_leb_not_gt _ _ H100).
    destruct (1 <? parsedLimit)%float eqn:Hlt; [apply float_self; exact Hnan|].
    apply (@float_tie 1%float parsedLimit); auto.
    apply float_leb_not_gt. exact H1.
  - intros H100.
    assert (H1 : (1 <? parsedLimit)%float = true) by (apply above_100_above_1; exact H100).
    assert (Hle : (1 <=? parsedLimit)%float = true) by (apply float_ltb_leb; exact H1).
    destruct (@float_leb_not_nan _ _ Hle) as [_ Hnan].
    rewrite Hlimit, (@or_number_kept _ _ (@one_up_not_zero _ Hle) Hnan), H1, H100.
    reflexivity.
  - intros Hlt Hnz.
    assert (Hle : (parsedLimit <=? 1)%float = true) by (apply float_ltb_leb; exact Hlt).
    destruct (@float_leb_not_nan _ _ Hle) as [Hnan _].
    rewrite Hlimit, (@or_number_kept _ _ Hnz Hnan), (@float_leb_not_gt _ _ Hle).
    reflexivity.
  - unfold hasPrev. rewrite Hpage.
    destruct ((parsedPage =? 0)%float || PrimFloat.is_nan parsedPage) eqn:Hfalsy.
    + rewrite (@or_number_default _ _ Hfalsy).
      change (if (1 <? 1)%float then 1%float else 1%float) with 1%float.
      change (1 <? 1)%float with false. symmetry.
      apply orb_true_iff in Hfalsy as [Hz | Hnan].
      * rewrite FloatAxioms.ltb_spec. rewrite FloatAxioms.eqb_spec in Hz.
        unfold SFltb. unfold SFeqb in Hz.
        replace (Prim2SF 1) with (S754_finite false 4503599627370496 (-52))
          by (vm_compute; reflexivity).
        replace (Prim2SF 0) with (S754_zero false) in Hz by (vm_compute; reflexivity).
        destruct (Prim2SF parsedPage) as [s | s | | s mx ex]; cbn in *;
          try reflexivity; try discriminate; destruct s; discriminate.
      * destruct (1 <? parsedPage)%float eqn:Hlt; [|reflexivity].
        apply float_ltb_leb in Hlt. apply float_leb_not_nan in Hlt.
        destruct Hlt as [_ Hlt]. congruence.
    + apply orb_false_iff in Hfalsy as [Hz Hnan].
      rewrite (@or_number_kept _ _ Hz Hnan).
      destruct (1 <? parsedPage)%float eqn:Hlt; [exact Hlt|].
      reflexivity.
Qed.

(** ** A record outlives whatever comes after it *)

Lemma find_app_first {A : Type} (p : A -> bool) (l more : list A) (a : A) :
  find p l = Some a -> find p (l ++ more) = Some a.
Proof.
  induction l as [|x l IH]; cbn; [discriminate|].
  destruct (p x); [trivial | exact IH].
Qed.

Section Histories.

Context {P : Platform}.

Lemma tick_attendances (t : Z) (o : Oracle) (db : DB) :
  attendances (checkAndUpdateMeetings t o db) = attendances db.
Proof.
  unfold checkAndUpdateMeetings. rewrite activate_loop_sweep.
  match goal with |- context [sweep ?c ?F o ?todo db] =>
    pose proof (@sweep_frame c F o todo (activation_schedule t o) db) as H1;
    destruct (sweep c F o todo db) as [[ex|] db1]
  end; cbn [snd] in H1; [apply H1|].
  rewrite deactivate_loop_sweep.
  match goal with |- context [sweep ?c ?F o ?todo db1] =>
    pose proof (@sweep_frame c F o todo (fun _ _ => eq_refl) db1) as H2
  end.
  destruct H1 as (_ & _ & Ha1), H2 as (_ & _ & Ha2).
  rewrite Ha2. exact Ha1.
Qed.

(** No operation removes or alters an attendance record. *)
Lemma perform_attendances (op : Operation) (sv : Server) :
  exists more,
    attendances (store (perform op sv)) = attendances (store sv) ++ more.
Proof.
  destruct op as [s | t o | t o | id | id | t o id | o id | id];
    cbn [perform on_store store].
  - destruct (handle_cases s (store sv))
      as [[_ Hsame] | (m & u & _ & [(_ & _ & Hh) | (_ & Hh)])].
    + exists []. rewrite Hsame, app_nil_r. reflexivity.
    + exists [record_for s m u]. rewrite Hh. reflexivity.
    + exists []. rewrite Hh, app_nil_r. reflexivity.
  - exists []. rewrite tick_attendances, app_nil_r. reflexivity.
  - exists []. rewrite app_nil_r. unfold refreshQRCodes. cbn [store].
    apply (refresh_fold_frame schedule_of t o _ (fun _ _ _ => eq_refl) (store sv)).
  - exists []. rewrite app_nil_r. unfold toggleQRPause.
    destruct (castObjectId (JString id)); [|reflexivity].
    destruct (Meeting_findById _ (store sv)); reflexivity.
  - exists []. rewrite app_nil_r. unfold toggleActive.
    destruct (castObjectId (JString id)); [|reflexivity].
    destruct (Meeting_findById _ (store sv)); reflexivity.
  - exists []. rewrite app_nil_r. unfold generateQR.
    destruct (castObjectId (JString id)); [|reflexivity].
    destruct (Meeting_findById _ (store sv)); [|reflexivity].
    destruct (rejects o _); reflexivity.
  - exists []. rewrite app_nil_r. unfold generateAttendanceLink.
    destruct (castObjectId (JString id)); [|reflexivity].
    destruct (Meeting_findById _ (store sv)) as [m|]; [|reflexivity].
    destruct (type m); [reflexivity|]. destruct (rejects o _); reflexivity.
  - exists []. rewrite app_nil_r. unfold deleteMeeting.
    destruct (castObjectId (JString id)); [|reflexivity].
    destruct (Meeting_findById _ (store sv)); reflexivity.
Qed.

Lemma history_keeps_record (ops : list Operation) (mid uid : ObjectId) :
  forall (sv : Server) (a : Attendance),
    Attendance_findOne mid uid (store sv) = Some a ->
    Attendance_findOne mid uid (store (history ops sv)) = Some a.
Proof.
  unfold history. induction ops as [|op ops IH]; intros sv a Hfind; cbn [fold_left];
    [exact Hfind|].
  apply IH. destruct (perform_attendances op sv) as [more Hmore].
  unfold Attendance_findOne in *. rewrite Hmore.
  apply find_app_first. exact Hfind.
Qed.

(** A submission for which every check holds and which is answered with
    the 201 leaves the record of its pair in the store. *)
Lemma fresh_leaves_record (s : Submission) (db : DB) (m : Meeting) (u : User) :
  admissible s db m u ->
  fresh (fst (handle s db)) = true ->
  Attendance_findOne (_id m) (user_id u) (snd (handle s db))
  = Some (record_for s m u).
Proof.
  intros (Hreach & Hwin & Huser & Hel & Hgeo) Hfresh.
  rewrite (handle_past_window s db m Hreach Hwin) in *.
  unfold after_window in *. rewrite Huser, Hel, Hgeo in *.
  destruct (Attendance_findOne (_id m) (user_id u) db) eqn:Hone.
  - destruct s; discriminate.
  - destruct (commit_cases s (record_for s m u) m db)
      as [(_ & Hstore & _) | (Hother & _)].
    + rewrite Hstore. unfold Attendance_findOne in *.
      cbn [attendances with_attendances].
      apply find_app_last; [exact Hone|].
      unfold same_pair. destruct s; cbn; rewrite !String.eqb_refl; reflexivity.
    + rewrite (kind_not_fresh _ Hother) in Hfresh. discriminate.
Qed.

End Histories.

(** X3. A record outlives whatever comes after it.  Once a handler
    has answered a submission with the 201, then after any further
    operations on the store -- submissions by anyone, ticks of the
    scheduler and of the rotation with or without rejections, the two
    toggles, codes and links issued by hand, deletions -- every
    submission that passes every check on the store reached, for the
    meeting of the same id and for the same member, is answered with the
    200 repeat and leaves that store as it is: a retry, a rejoin through
    the link, a scan of the code of a later rotation. *)
Theorem recorded_then_repeat {P : Platform} (s : Submission) (db : DB) :
  fresh (fst (handle s db)) = true ->
  (exists m u, admissible s db m u) /\
  forall m u,
    admissible s db m u ->
    forall (last : option Z) (later : list Operation) (s' : Submission)
           (m' : Meeting) (u' : User),
      let db' := store (history later {| store := snd (handle s db);
                                         lastRefreshedAt := last |}) in
      admissible s' db' m' u' ->
      _id m' = _id m -> user_id u' = user_id u ->
      handle s' db' = (repeat_reply s' m', db').
Proof.
  intros Hfresh. split.
  - destruct (handle_cases s db) as [[Hf _] | (m & u & Hadm & _)].
    + rewrite (kind_not_fresh _ ltac:(rewrite Hf; reflexivity)) in Hfresh.
      discriminate.
    + exists m, u. exact Hadm.
  - intros m u Hadm last later s' m' u' db' Hadm' Hm Hu.
    assert (Hrec : Attendance_findOne (_id m') (user_id u') db'
                   = Some (record_for s m u)).
    { unfold db'. rewrite Hm, Hu. apply history_keeps_record. cbn [store].
      apply fresh_leaves_record; assumption. }
    clearbody db'.
    destruct Hadm' as (Hreach & Hwin & Huser & Hel & Hgeo).
    rewrite (handle_past_window s' db' m' Hreach Hwin).
    unfold after_window. rewrite Huser, Hel, Hgeo, Hrec. reflexivity.
Qed.

(** Alice is recorded at the stand-up; the rotation then issues the
    next code, and her scan of it is answered with the 200 repeat. *)
Lemma recorded_then_repeat_witness :
  let s := ViaQR (Sample.at_ 1200000 "alice") (Sample.scan "qr:m1:tokA" None) in
  let later := [RotationTick 1210000 (Sample.oracle [])] in
  let s' := ViaQR (Sample.at_ 1300000 "alice") (Sample.scan "qr:m1:c0ffee" None) in
  let db' :=
    store (history (P := Sample.runtime) later
             {| store := snd (handle (P := Sample.runtime) s Sample.db0);
                lastRefreshedAt := None |}) in
  handle (P := Sample.runtime) s' db' = (Success 200 true (MeetingData "m1"), db').
Proof.
  intros s later s' db'.
  refine (proj2 (@recorded_then_repeat Sample.runtime s Sample.db0 eq_refl)
            Sample.standup Sample.alice _ None later s'
            (rotated (P := Sample.runtime) 1210000 (Sample.oracle []) "m1" Sample.standup)
            Sample.alice _ eq_refl eq_refl).
  - split; [|split; [|split; [|split]]].
    + exists (Some (JString "tokA")), (Some (JString "tokA")).
      split; [|repeat split].
      exists "qr:m1:tokA",
        (JObject [("meetingId", JString "m1"); ("token", JString "tokA")]),
        (Some (JString "m1")).
      repeat split. discriminate.
    + unfold endTime; cbn; lia.
    + reflexivity.
    + reflexivity.
    + reflexivity.
  - split; [|split; [|split; [|split]]].
    + exists (Some (JString "c0ffee")), (Some (JString "c0ffee")).
      split; [|repeat split].
      exists "qr:m1:c0ffee",
        (JObject [("meetingId", JString "m1"); ("token", JString "c0ffee")]),
        (Some (JString "m1")).
      repeat split. discriminate.
    + unfold endTime; cbn; lia.
    + reflexivity.
    + reflexivity.
    + reflexivity.
Defined.
